(** * CryptoRank scrapers: retry wrappers, cache, merge and throttle

    A shallow embedding of the orchestration code of the three scrapers
    (fund pages, funding-round table pages, project detail pages) and of
    the pure helpers they share, with the properties of the written
    specification stated and settled against it.

    Source files embedded here:
    - [src/api.js], the client of the upstream source;
    - the fund scraper class [FundScraper] (imported as [./scraper.js]);
    - the fund entry point that imports it ([main], [loadCache],
      [savePartialResults]);
    - [src/funding-rounds-scraper.js] and [src/funding-rounds.js];
    - [src/project-details-scraper.js] and the project-details entry point
      in its version without a cache ([extractUniqueProjects], [saveResults],
      [main]);
    - of the same files, the helpers around them: [categorizeLink] and
      [extractSocialLinks] of the fund scraper, [parseSupply], and
      [parseArgs] of the three entry points;
    - [src/project-details.js], the project-details entry point with a
      cache ([loadCachedDetails], [main]);
    - [src/generate-test-data.js].

    Conventions.
    - A JavaScript value of type [string | null | undefined] is an
      [option string]; [None] stands for both [null] and [undefined].
    - A JavaScript [number] that the code only counts or compares is a [Z];
      the amounts computed by [parseRaiseAmount] are binary64 values
      ([spec_float] with precision 53 and maximal exponent 1024).
    - Everything the remote browser does is an oracle; every call that has
      an effect outside the process leaves an [Event] in the trace. *)

From stdpp Require Import base list strings gmap.
From Stdlib Require Import ZArith Ascii Lia Permutation.
From Stdlib Require Import Floats.SpecFloat.
From Stdlib Require Import Sorted.

(** ** JavaScript truthiness of nullable strings *)

(** [truthy v] is the test JavaScript makes in [if (v)], [!v], [v || d]
    when [v] is a string, [null] or [undefined]: only a non-empty string
    passes. *)
Definition truthy (v : option string) : bool :=
  match v with
  | Some s => negb (String.eqb s "")
  | None => false
  end.

(** [v || null] *)
Definition or_null (v : option string) : option string :=
  if truthy v then v else None.

(** [v || d] for a string default [d] *)
Definition or_default (v : option string) (d : string) : string :=
  match v with
  | Some s => if String.eqb s "" then d else s
  | None => d
  end.

(** [haystack.includes(needle)] *)
Fixpoint includes (haystack needle : string) : bool :=
  String.prefix needle haystack ||
  match haystack with
  | EmptyString => false
  | String _ rest => includes rest needle
  end.

(** ** [parseRaiseAmount] ([src/funding-rounds-scraper.js], lines 37-68)

    [parseAmount] of [src/project-details-scraper.js] (lines 36-67) is the
    same function under another name.

    A string is a sequence of code units; the model covers the units
    0..255 (Rocq's [ascii]).  Above 127 the only unit that [\s] matches is
    the no-break space 160, and [toUpperCase] never maps such a unit to a
    digit, a dot or one of [K], [M], [B], so they are left as they are. *)

Module Amount.

(** binary64 *)
Definition double : Type := spec_float.
Definition prec : Z := 53.
Definition emax : Z := 1024.

Definition double_of_Z (n : Z) : double := binary_normalize prec emax n 0 false.
Definition mul (x y : double) : double := SFmul prec emax x y.

Definition code (c : ascii) : nat := nat_of_ascii c.

(** [\s] *)
Definition is_space (c : ascii) : bool :=
  (Nat.leb 9 (code c) && Nat.leb (code c) 13)
  || Nat.eqb (code c) 32 || Nat.eqb (code c) 160.

(** [\d] *)
Definition is_digit (c : ascii) : bool :=
  Nat.leb 48 (code c) && Nat.leb (code c) 57.

(** [[$,\s]] *)
Definition is_stripped (c : ascii) : bool :=
  Nat.eqb (code c) 36 || Nat.eqb (code c) 44 || is_space c.

(** [[\d.]] *)
Definition is_digit_or_dot (c : ascii) : bool :=
  is_digit c || Nat.eqb (code c) 46.

(** [[KMB]] *)
Definition is_suffix (c : ascii) : bool :=
  Nat.eqb (code c) 75 || Nat.eqb (code c) 77 || Nat.eqb (code c) 66.

(** [s.replace(/[$,\s]/g, '')] *)
Fixpoint strip (s : string) : string :=
  match s with
  | EmptyString => EmptyString
  | String c rest => if is_stripped c then strip rest else String c (strip rest)
  end.

Definition upper_char (c : ascii) : ascii :=
  if Nat.leb 97 (code c) && Nat.leb (code c) 122
  then ascii_of_nat (code c - 32) else c.

(** [s.toUpperCase()] *)
Fixpoint toUpperCase (s : string) : string :=
  match s with
  | EmptyString => EmptyString
  | String c rest => String (upper_char c) (toUpperCase rest)
  end.

(** The longest prefix of [s] whose units satisfy [p], and what follows. *)
Fixpoint span (p : ascii -> bool) (s : string) : string * string :=
  match s with
  | EmptyString => (EmptyString, EmptyString)
  | String c rest =>
      if p c then let '(a, b) := span p rest in (String c a, b)
      else (EmptyString, s)
  end.

(** [cleaned.match(/^([\d.]+)([KMB])?$/)]: the two capture groups, or [None]
    for [null].  The first group is greedy; giving back a unit of it never
    helps, because the unit given back is a digit or a dot and the rest of
    the pattern wants [K], [M], [B] or the end of the string. *)
Definition match_amount (cleaned : string) : option (string * option ascii) :=
  let '(body, rest) := span is_digit_or_dot cleaned in
  match body with
  | EmptyString => None
  | _ =>
      match rest with
      | EmptyString => Some (body, None)
      | String c EmptyString => if is_suffix c then Some (body, Some c) else None
      | _ => None
      end
  end.

Fixpoint digits_value (acc : Z) (s : string) : Z :=
  match s with
  | EmptyString => acc
  | String c rest => digits_value (10 * acc + Z.of_nat (code c - 48)) rest
  end.

(** The binary64 value nearest to [d / 10^k] (ties to even). *)
Definition decimal_to_double (d : Z) (k : nat) : double :=
  match d with
  | Zpos p =>
      SFdiv prec emax (S754_finite false p 0)
                      (S754_finite false (Z.to_pos (10 ^ Z.of_nat k)) 0)
  | _ => S754_zero false
  end.

(** [parseFloat(text)] on the texts the pattern lets through, which hold
    digits and dots only (no blank, sign or exponent can occur): the
    longest prefix of the form [digits], [digits.], [digits.digits] or
    [.digits] is read; [None] is [NaN], the answer when there is no such
    prefix. *)
Definition parseFloat (text : string) : option double :=
  let '(int_part, rest) := span is_digit text in
  let frac_part :=
    match rest with
    | String "."%char after => fst (span is_digit after)
    | _ => EmptyString
    end in
  match int_part, frac_part with
  | EmptyString, EmptyString => None
  | _, _ =>
      Some (match frac_part with
            | EmptyString => decimal_to_double (digits_value 0 int_part) 0
            | _ => decimal_to_double (digits_value 0 (int_part +:+ frac_part))
                                     (String.length frac_part)
            end)
  end.

Definition is_sentinel (s : string) : bool :=
  String.eqb s "" || String.eqb s "-" || String.eqb s "N/A".

(** The factor chosen by the [switch] on the second capture group. *)
Definition multiplier (suffix : option ascii) : option Z :=
  match suffix with
  | Some "K"%char => Some 1000%Z
  | Some "M"%char => Some 1000000%Z
  | Some "B"%char => Some 1000000000%Z
  | _ => None
  end.

(** The part the three parsers share: match, [parseFloat], [isNaN], the
    [switch] on the multiplier. *)
Definition parse_cleaned (cleaned : string) : option double :=
  match match_amount cleaned with
  | None => None
  | Some (text, suffix) =>
      match parseFloat text with
      | None => None
      | Some num =>
          match multiplier suffix with
          | Some factor => Some (mul num (double_of_Z factor))
          | None => Some num
          end
      end
  end.

Definition parseRaiseAmount (amountStr : option string) : option double :=
  match amountStr with
  | None => None
  | Some s =>
      if is_sentinel s then None
      else parse_cleaned (toUpperCase (strip s))
  end.

Definition parseAmount := parseRaiseAmount.

(** [parseSupply] ([src/project-details-scraper.js], lines 74-102): the
    same, but only commas and whitespace are removed. *)
Definition is_stripped_supply (c : ascii) : bool :=
  Nat.eqb (code c) 44 || is_space c.

Fixpoint strip_supply (s : string) : string :=
  match s with
  | EmptyString => EmptyString
  | String c rest =>
      if is_stripped_supply c then strip_supply rest
      else String c (strip_supply rest)
  end.

Definition parseSupply (supplyStr : option string) : option double :=
  match supplyStr with
  | None => None
  | Some s =>
      if is_sentinel s then None
      else parse_cleaned (toUpperCase (strip_supply s))
  end.

(** *** The claim's vocabulary *)

Fixpoint all_units (p : ascii -> bool) (s : string) : bool :=
  match s with
  | EmptyString => true
  | String c rest => p c && all_units p rest
  end.

(** [s] with "$", commas and whitespace removed, upper-cased. *)
Definition cleaned (s : string) : string := toUpperCase (strip s).

(** [c] is digits-and-dots [text] followed by [suffix], one of nothing,
    K, M, B. *)
Definition splits (c text suffix : string) : Prop :=
  c = text +:+ suffix /\ text <> "" /\ all_units is_digit_or_dot text = true /\
  (suffix = "" \/ suffix = "K" \/ suffix = "M" \/ suffix = "B").

Definition matches_pattern (c : string) : Prop :=
  exists text suffix, splits c text suffix.

(** A text of digits and dots has a leading number when it starts with a
    digit, or with a dot that a digit follows. *)
Definition has_leading_number (text : string) : bool :=
  match text with
  | EmptyString => false
  | String c rest =>
      is_digit c ||
      (Nat.eqb (code c) 46 &&
       match rest with String d _ => is_digit d | EmptyString => false end)
  end.

Definition scale (num : double) (suffix : string) : double :=
  if String.eqb suffix "K" then mul num (double_of_Z 1000)
  else if String.eqb suffix "M" then mul num (double_of_Z 1000000)
  else if String.eqb suffix "B" then mul num (double_of_Z 1000000000)
  else num.

Definition suffix_text (suffix : option ascii) : string :=
  match suffix with
  | Some c => String c EmptyString
  | None => EmptyString
  end.

End Amount.


(** ** Funding rounds and projects

    A row as [extractRowData] reads it from the table, and the round that
    [scrapePage] makes of it ([src/funding-rounds-scraper.js], lines
    233-243 and 297-302).  A timestamp ([new Date().toISOString()],
    [Date.now()]) is the reading of the clock, in milliseconds. *)

Module Investor.
Record t : Type := mk { name : string; key : option string }.
End Investor.

Module Row.
Record t : Type := mk {
  projectName : option string;
  projectKey : option string;
  projectUrl : option string;
  projectIcoURL : option string;
  raiseAmount : option string;
  stage : option string;
  investors : list Investor.t;
  date : option string;
  moniScore : option string
}.
End Row.

Module Round.
(** [{ ...row, raiseAmountRaw, dateISO, scrapedAt }] *)
Record t : Type := mk {
  row : Row.t;
  raiseAmountRaw : option Amount.double;
  dateISO : option string;
  scrapedAt : Z
}.
Definition projectKey (r : t) : option string := Row.projectKey (row r).
Definition projectName (r : t) : option string := Row.projectName (row r).
Definition projectUrl (r : t) : option string := Row.projectUrl (row r).
End Round.

Module Project.
(** [{ projectKey, projectName, projectUrl }]; the key of a project passed
    the truthiness test, so it is a string. *)
Record t : Type := mk {
  projectKey : string;
  projectName : option string;
  projectUrl : option string
}.
End Project.

(** ** [extractUniqueProjects] (project-details entry point, lines 83-99) *)

Module Extract.

Definition project_of (k : string) (round : Round.t) : Project.t :=
  Project.mk k (Round.projectName round) (Round.projectUrl round).

(** The [for ... of] loop, with the set [seen] and the array [projects]
    it updates. *)
Fixpoint loop (fundingRounds : list Round.t) (seen : gset string)
    (projects : list Project.t) : list Project.t :=
  match fundingRounds with
  | [] => projects
  | round :: rest =>
      match Round.projectKey round with
      | Some k =>
          if negb (String.eqb k "") && negb (bool_decide (k ∈ seen))
          then loop rest ({[k]} ∪ seen) (projects ++ [project_of k round])
          else loop rest seen projects
      | None => loop rest seen projects
      end
  end.

Definition extractUniqueProjects (fundingRounds : list Round.t) : list Project.t :=
  loop fundingRounds ∅ [].

(** The position of the first round of the list whose [projectKey] is the
    string [k]. *)
Fixpoint first_index (k : string) (fundingRounds : list Round.t) : option nat :=
  match fundingRounds with
  | [] => None
  | round :: rest =>
      if bool_decide (Round.projectKey round = Some k) then Some 0
      else S <$> first_index k rest
  end.

End Extract.

(** ** Insertion-ordered maps

    A JavaScript [Map] with string keys: an association list in insertion
    order.  [set] on a key that is present replaces the value where the key
    stands; on a new key it appends. *)

Module JsMap.
Section Ops.
Context {V : Type}.

Definition t : Type := list (string * V).

Definition empty : t := [].

Fixpoint set (k : string) (v : V) (m : t) : t :=
  match m with
  | [] => [(k, v)]
  | (k', v') :: rest =>
      if String.eqb k' k then (k', v) :: rest else (k', v') :: set k v rest
  end.

Fixpoint get (k : string) (m : t) : option V :=
  match m with
  | [] => None
  | (k', v') :: rest => if String.eqb k' k then Some v' else get k rest
  end.

Definition has (k : string) (m : t) : bool :=
  match get k m with Some _ => true | None => false end.

Definition keys (m : t) : list string := fst <$> m.
Definition values (m : t) : list V := snd <$> m.
Definition size (m : t) : nat := length m.

End Ops.
Arguments t : clear implicits.
End JsMap.

(** ** Records of the fund scraper *)

(** The object [extractSocialLinks] returns: eleven links, each a string or
    [null], in the order of the object literal. *)
Module Links.
Record t : Type := mk {
  website : option string;
  twitter : option string;
  telegram : option string;
  discord : option string;
  medium : option string;
  linkedin : option string;
  github : option string;
  youtube : option string;
  facebook : option string;
  instagram : option string;
  reddit : option string
}.

Definition none : t :=
  mk None None None None None None None None None None None.

(** [Object.values(links)] *)
Definition values (l : t) : list (option string) :=
  [website l; twitter l; telegram l; discord l; medium l; linkedin l;
   github l; youtube l; facebook l; instagram l; reddit l].

(** [Object.entries(otherLinks)] after [website] and [twitter] were taken
    out by the destructuring in [main]. *)
Definition other_entries (l : t) : list (string * option string) :=
  [("telegram", telegram l); ("discord", discord l); ("medium", medium l);
   ("linkedin", linkedin l); ("github", github l); ("youtube", youtube l);
   ("facebook", facebook l); ("instagram", instagram l); ("reddit", reddit l)].
End Links.

(** What [scrapeFund] returns: [{ ...links, error }]. *)
Module ScrapeResult.
Record t : Type := mk { links : Links.t; error : option string }.
End ScrapeResult.

(** An item of the upstream source. *)
Module Fund.
Record t : Type := mk {
  id : Z;
  key : string;
  name : string;
  tier : Z;
  type : string
}.
End Fund.

(** A record of the persisted fund file.  [top] holds the link properties
    found at the top level of the record: [main] writes [website] and
    [twitter] there and nothing else, [loadCache] reads all eleven. *)
Module FundRecord.
Record t : Type := mk {
  id : Z;
  key : string;
  name : string;
  tier : Z;
  type : string;
  url : option string;
  top : Links.t;
  scrapedAt : Z;
  error : option string;
  other_socials : option (list (string * string))
}.

Definition set_url (u : option string) (r : t) : t :=
  mk (id r) (key r) (name r) (tier r) (type r) u (top r) (scrapedAt r)
     (error r) (other_socials r).
End FundRecord.

Module FundMetadata.
Record t : Type := mk {
  generatedAt : Z;
  source : string;
  tiers : list Z;
  totalFunds : nat;
  successfulScrapes : nat;
  failedScrapes : nat;
  fromCache : option nat;
  newlyScrapped : option nat;
  durationMs : Z;
  partial : bool
}.
End FundMetadata.

Module FundResultSet.
Record t : Type := mk { metadata : FundMetadata.t; data : list FundRecord.t }.
End FundResultSet.

(** ** Records of the funding-rounds and project-details programs *)

Module RoundsMetadata.
Record t : Type := mk {
  generatedAt : Z;
  source : string;
  totalRounds : nat;
  limit : nat;
  pagesScraped : nat;
  partial : bool;
  durationMs : Z
}.
End RoundsMetadata.

Module RoundsResultSet.
Record t : Type := mk { metadata : RoundsMetadata.t; data : list Round.t }.
End RoundsResultSet.

(** The object [extractDetails] returns
    ([src/project-details-scraper.js], lines 189-207). *)
Module RawDetails.
Record t : Type := mk {
  description : option string;
  website : option string;
  twitter : option string;
  telegram : option string;
  discord : option string;
  github : option string;
  linkedin : option string;
  tokenSymbol : option string;
  tokenPrice : option string;
  marketCap : option string;
  fdv : option string;
  totalSupply : option string;
  circulatingSupply : option string;
  categories : list string;
  totalRaised : option string;
  tgeDate : option string;
  valuation : option string
}.
End RawDetails.

(** A value kept in the [details] object of a project, and that object:
    the properties that hold data, in the order they were written. *)
Inductive Field : Type :=
| FText (s : string)
| FNumber (x : Amount.double)
| FList (items : list string)
| FTime (t : Z).

Definition Details : Type := list (string * Field).

(** What [scrapeProject] returns. *)
Module ProjectResult.
Record t : Type := mk { details : option Details; error : option string }.
End ProjectResult.

Module EnrichedRound.
(** [{ ...round, details, detailsError }] *)
Record t : Type := mk {
  round : Round.t;
  details : option Details;
  detailsError : option string
}.
End EnrichedRound.

Module DetailedMetadata.
Record t : Type := mk {
  generatedAt : Z;
  source : string;
  totalProjects : nat;
  successful : nat;
  failed : nat;
  partial : bool;
  durationMs : Z
}.
End DetailedMetadata.

Module DetailedResultSet.
Record t : Type := mk { metadata : DetailedMetadata.t; data : list EnrichedRound.t }.
End DetailedResultSet.

(** ** Durable storage, events and the world *)

(** The state of one JSON file whose documents have the shape [A]. *)
Inductive Stored (A : Type) : Type :=
| Absent                 (* the file does not exist *)
| Unparseable            (* it cannot be read, or [JSON.parse] throws *)
| NoDataArray            (* valid JSON with no [data] array *)
| Holding (doc : A).     (* a document [{ metadata, data }] *)
Arguments Absent {A}.
Arguments Unparseable {A}.
Arguments NoDataArray {A}.
Arguments Holding {A} doc.

(** The four files of the programs, each with its own shape. *)
Module Files.
Record t : Type := mk {
  tier1 : Stored FundResultSet.t;           (* ./output/tier1-vcs.json *)
  tier1_2 : Stored FundResultSet.t;         (* ./output/tier1-2-vcs.json *)
  rounds : Stored RoundsResultSet.t;        (* ./output/funding-rounds.json *)
  detailed : Stored DetailedResultSet.t     (* ./output/funding-rounds-detailed.json *)
}.
Definition none : t := mk Absent Absent Absent Absent.
End Files.

(** A unit of work. *)
Inductive Target : Type :=
| TFund (key : string)
| TPage (pageNumber : nat)
| TProject (key : string).

(** What leaves the process, in the order it happens. *)
Inductive Event : Type :=
| EvConnect (ok : bool)
    (* [scraper.connect()] called by an entry point *)
| EvAttempt (target : Target) (attempt : nat)
    (* one run of the [try] body of a scraper: [ensureConnected], a new
       tab, navigation, extraction, closing the tab *)
| EvFundScreenshot (key status : string) (attempt : nat)
    (* [saveScreenshot] of the fund scraper, when screenshots are enabled *)
| EvPageScreenshot (target : Target)
    (* [saveScreenshot] of the two other scrapers *)
| EvSessionDropped
    (* [this.browser = null] after a connection-loss message *)
| EvRetryDelay (ms : Z)
    (* the scraper's [delay(RETRY_DELAY_MS)] *)
| EvUnit (target : Target)
    (* the progress line that opens an iteration of an entry point *)
| EvThrottle (ms : Z)
    (* the entry point's [delay(DELAY_BETWEEN_..._MS)] *)
| EvWrite (path : string) (ok : bool)
    (* [writeFile] *)
| EvDisconnect.
    (* [scraper.disconnect()] *)

(** [calls] counts the attempts made so far; it numbers the answers of the
    remote browser. *)
Record World : Type := mkWorld {
  calls : nat;
  files : Files.t;
  trace : list Event
}.

Definition emit (e : Event) (w : World) : World :=
  mkWorld (calls w) (files w) (trace w ++ [e]).

Definition next_call (w : World) : World :=
  mkWorld (S (calls w)) (files w) (trace w).

Definition set_files (f : Files.t) (w : World) : World :=
  mkWorld (calls w) f (trace w).

(** What one attempt comes to: an exception raised anywhere in the [try]
    body (with whether a tab was open when it was raised), or the payload
    the extraction returned. *)
Inductive Outcome (P : Type) : Type :=
| Raised (message : string) (pageOpen : bool)
| Extracted (payload : P).
Arguments Raised {P} message pageOpen.
Arguments Extracted {P} payload.

(** How an entry point ends. *)
Inductive Exit : Type :=
| Completed      (* [main] returned after the final save *)
| FromCache      (* [main] returned early: nothing to scrape *)
| Failed.        (* [process.exit(1)] *)

(** ** The fund scraper ([FundScraper], lines 234-351)

    [scrapeFund] is the retry wrapper of the fund pages.  The constant
    [MAX_RETRIES] of the module is the parameter [maxRetries] here, so that
    properties can be stated for every number of attempts; the program runs
    with [maxRetries = MAX_RETRIES]. *)

Module FundScraper.

Definition MAX_RETRIES : nat := 3.
Definition RETRY_DELAY_MS : Z := 2000.
Definition CRYPTORANK_FUND_URL : string := "https://cryptorank.io/funds/".

(** [Object.values(links).some(v => v !== null)] *)
Definition hasAnyLinks (links : Links.t) : bool :=
  existsb (fun v => match v with Some _ => true | None => false end)
          (Links.values links).

(** The test of the [catch] block on [error.message]. *)
Definition connection_lost (message : string) : bool :=
  includes message "Connection closed" ||
  includes message "Protocol error" ||
  includes message "Target closed".

(** The object returned after the loop. *)
Definition exhausted (lastError : option string) : ScrapeResult.t :=
  ScrapeResult.mk Links.none (Some (or_default lastError "Unknown error")).

Section Scraper.
(** [fetch n key]: what the [n]-th attempt of the run comes to on the page
    of [key]. *)
Variable fetch : nat -> string -> Outcome Links.t.
Variable enableScreenshots : bool.
Variable maxRetries : nat.

Definition saveScreenshot (key status : string) (attempt : nat) (w : World) : World :=
  if enableScreenshots then emit (EvFundScreenshot key status attempt) w else w.

(** The [catch] block: screenshot if a tab is open, drop the session on a
    connection-loss message, wait if attempts remain. *)
Definition on_error (key : string) (attempt : nat) (message : string)
    (pageOpen : bool) (w : World) : World :=
  let w1 := if pageOpen then saveScreenshot key "error" attempt w else w in
  let w2 := if connection_lost message then emit EvSessionDropped w1 else w1 in
  if Nat.ltb attempt maxRetries then emit (EvRetryDelay RETRY_DELAY_MS) w2 else w2.

(** The [for] loop over the attempt numbers still [todo]; [lastError] is
    the message of the last exception caught. *)
Fixpoint attempts (todo : list nat) (key : string) (lastError : option string)
    (w : World) : ScrapeResult.t * World :=
  match todo with
  | [] => (exhausted lastError, w)
  | attempt :: later =>
      let w1 := emit (EvAttempt (TFund key) attempt) (next_call w) in
      match fetch (calls w) key with
      | Extracted links =>
          if negb (hasAnyLinks links) && Nat.ltb attempt maxRetries then
            let message := "No social links found - retrying" in
            attempts later key (Some message)
              (on_error key attempt message false
                 (saveScreenshot key "no-links" attempt w1))
          else if negb (hasAnyLinks links) then
            (ScrapeResult.mk links (Some "No social links found"),
             saveScreenshot key "error-no-links" attempt w1)
          else
            (ScrapeResult.mk links None, saveScreenshot key "success" attempt w1)
      | Raised message pageOpen =>
          attempts later key (Some message)
            (on_error key attempt message pageOpen w1)
      end
  end.

(** [for (let attempt = 1; attempt <= MAX_RETRIES; attempt++)] *)
Definition scrapeFund (key : string) (index total : nat) (w : World)
    : ScrapeResult.t * World :=
  attempts (seq 1 maxRetries) key None w.

End Scraper.

(** An attempt fails when it raises or extracts no link at all. *)
Definition fails (o : Outcome Links.t) : Prop :=
  match o with
  | Raised _ _ => True
  | Extracted links => hasAnyLinks links = false
  end.

Definition succeeds (o : Outcome Links.t) : Prop :=
  match o with
  | Raised _ _ => False
  | Extracted links => hasAnyLinks links = true
  end.

(** What the wrapper returns when every attempt left fails: it depends on
    the last attempt only. *)
Definition after_failures (lastError : option string) (last : option (Outcome Links.t))
    : ScrapeResult.t :=
  match last with
  | None => exhausted lastError
  | Some (Raised message _) => exhausted (Some message)
  | Some (Extracted links) => ScrapeResult.mk links (Some "No social links found")
  end.

End FundScraper.

(** ** The funding-rounds scraper ([src/funding-rounds-scraper.js], lines
    255-353) *)

Module PageResult.
(** [{ data, error }] *)
Record t : Type := mk { data : list Round.t; error : option string }.
End PageResult.

Module RoundsScraper.

Definition MAX_RETRIES : nat := 3.
Definition RETRY_DELAY_MS : Z := 2000.

Definition connection_lost := FundScraper.connection_lost.

Section Scraper.
(** [fetch n pageNumber]: what the [n]-th attempt of the run comes to: an
    exception, or the rows [extractRowData] returned. *)
Variable fetch : nat -> nat -> Outcome (list Row.t).
(** [parseDateToISO], which rests on the [Date] parser of the engine and on
    the current year. *)
Variable parseDateToISO : option string -> option string.
(** The clock, read after a number of events. *)
Variable now : nat -> Z.
Variable maxRetries : nat.

Definition saveScreenshot (pageNumber : nat) (w : World) : World :=
  emit (EvPageScreenshot (TPage pageNumber)) w.

Definition on_error (pageNumber attempt : nat) (message : string)
    (pageOpen : bool) (w : World) : World :=
  let w1 := if pageOpen then saveScreenshot pageNumber w else w in
  let w2 := if connection_lost message then emit EvSessionDropped w1 else w1 in
  if Nat.ltb attempt maxRetries then emit (EvRetryDelay RETRY_DELAY_MS) w2 else w2.

(** [rawData.map(row => ({ ...row, raiseAmountRaw, dateISO, scrapedAt }))] *)
Definition post_process (w : World) (row : Row.t) : Round.t :=
  Round.mk row (Amount.parseRaiseAmount (Row.raiseAmount row))
           (parseDateToISO (Row.date row)) (now (length (trace w))).

Fixpoint attempts (todo : list nat) (pageNumber : nat) (lastError : option string)
    (w : World) : PageResult.t * World :=
  match todo with
  | [] => (PageResult.mk [] (Some (or_default lastError "Unknown error")), w)
  | attempt :: later =>
      let w1 := emit (EvAttempt (TPage pageNumber) attempt) (next_call w) in
      match fetch (calls w) pageNumber with
      | Extracted rawData =>
          let data := post_process w1 <$> rawData in
          if Nat.eqb (length data) 0 && Nat.ltb attempt maxRetries then
            let message := "No funding rounds found - retrying" in
            attempts later pageNumber (Some message)
              (on_error pageNumber attempt message false w1)
          else
            (PageResult.mk data None, saveScreenshot pageNumber w1)
      | Raised message pageOpen =>
          attempts later pageNumber (Some message)
            (on_error pageNumber attempt message pageOpen w1)
      end
  end.

Definition scrapePage (pageNumber : nat) (w : World) : PageResult.t * World :=
  attempts (seq 1 maxRetries) pageNumber None w.

End Scraper.

(** An attempt of the page scraper fails when it raises; it comes back
    empty when it extracts no row. *)
Definition raises (o : Outcome (list Row.t)) : Prop :=
  match o with
  | Raised _ _ => True
  | Extracted _ => False
  end.

Definition extracts_rows (o : Outcome (list Row.t)) : Prop :=
  match o with
  | Raised _ _ => False
  | Extracted rawData => rawData <> []
  end.

Definition raises_or_empty (o : Outcome (list Row.t)) : Prop :=
  match o with
  | Raised _ _ => True
  | Extracted rawData => rawData = []
  end.

(** What the wrapper returns when every attempt left raises or comes back
    empty: it depends on the last attempt only. *)
Definition after_failures (lastError : option string)
    (last : option (Outcome (list Row.t))) : PageResult.t :=
  match last with
  | None => PageResult.mk [] (Some (or_default lastError "Unknown error"))
  | Some (Raised message _) =>
      PageResult.mk [] (Some (or_default (Some message) "Unknown error"))
  | Some (Extracted _) => PageResult.mk [] None
  end.

End RoundsScraper.

(** ** The project-details scraper ([src/project-details-scraper.js],
    lines 492-617) *)

Module ProjectScraper.

Definition MAX_RETRIES : nat := 3.
Definition RETRY_DELAY_MS : Z := 2000.

Definition connection_lost := FundScraper.connection_lost.

Definition text (v : option string) : option Field := FText <$> v.
Definition number (v : option Amount.double) : option Field := FNumber <$> v.

(** [{ ...rawDetails, tokenPriceRaw, ..., scrapedAt }] *)
Definition fullDetails (raw : RawDetails.t) (scrapedAt : Z)
    : list (string * option Field) :=
  [("description", text (RawDetails.description raw));
   ("website", text (RawDetails.website raw));
   ("twitter", text (RawDetails.twitter raw));
   ("telegram", text (RawDetails.telegram raw));
   ("discord", text (RawDetails.discord raw));
   ("github", text (RawDetails.github raw));
   ("linkedin", text (RawDetails.linkedin raw));
   ("tokenSymbol", text (RawDetails.tokenSymbol raw));
   ("tokenPrice", text (RawDetails.tokenPrice raw));
   ("marketCap", text (RawDetails.marketCap raw));
   ("fdv", text (RawDetails.fdv raw));
   ("totalSupply", text (RawDetails.totalSupply raw));
   ("circulatingSupply", text (RawDetails.circulatingSupply raw));
   ("categories", Some (FList (RawDetails.categories raw)));
   ("totalRaised", text (RawDetails.totalRaised raw));
   ("tgeDate", text (RawDetails.tgeDate raw));
   ("valuation", text (RawDetails.valuation raw));
   ("tokenPriceRaw", number (Amount.parseAmount (RawDetails.tokenPrice raw)));
   ("marketCapRaw", number (Amount.parseAmount (RawDetails.marketCap raw)));
   ("fdvRaw", number (Amount.parseAmount (RawDetails.fdv raw)));
   ("totalSupplyRaw", number (Amount.parseSupply (RawDetails.totalSupply raw)));
   ("circulatingSupplyRaw",
      number (Amount.parseSupply (RawDetails.circulatingSupply raw)));
   ("totalRaisedRaw", number (Amount.parseAmount (RawDetails.totalRaised raw)));
   ("valuationRaw", number (Amount.parseAmount (RawDetails.valuation raw)));
   ("scrapedAt", Some (FTime scrapedAt))].

(** The filter on the entries: [null] and empty arrays are dropped. *)
Definition keep (entry : string * option Field) : option (string * Field) :=
  match entry with
  | (_, None) => None
  | (_, Some (FList [])) => None
  | (name, Some value) => Some (name, value)
  end.

Section Scraper.
Variable fetch : nat -> string -> Outcome RawDetails.t.
Variable now : nat -> Z.
Variable maxRetries : nat.

Definition saveScreenshot (projectKey : string) (w : World) : World :=
  emit (EvPageScreenshot (TProject projectKey)) w.

Definition on_error (projectKey : string) (attempt : nat) (message : string)
    (pageOpen : bool) (w : World) : World :=
  let w1 := if pageOpen then saveScreenshot projectKey w else w in
  let w2 := if connection_lost message then emit EvSessionDropped w1 else w1 in
  if Nat.ltb attempt maxRetries then emit (EvRetryDelay RETRY_DELAY_MS) w2 else w2.

Fixpoint attempts (todo : list nat) (projectKey : string)
    (lastError : option string) (w : World) : ProjectResult.t * World :=
  match todo with
  | [] => (ProjectResult.mk None (Some (or_default lastError "Unknown error")), w)
  | attempt :: later =>
      let w1 := emit (EvAttempt (TProject projectKey) attempt) (next_call w) in
      match fetch (calls w) projectKey with
      | Extracted rawDetails =>
          let details :=
            omap keep (fullDetails rawDetails (now (length (trace w1)))) in
          (ProjectResult.mk (Some details) None, saveScreenshot projectKey w1)
      | Raised message pageOpen =>
          attempts later projectKey (Some message)
            (on_error projectKey attempt message pageOpen w1)
      end
  end.

Definition scrapeProject (projectKey : string) (w : World)
    : ProjectResult.t * World :=
  attempts (seq 1 maxRetries) projectKey None w.

End Scraper.
End ProjectScraper.

(** ** The upstream source ([src/api.js]) *)

Module Api.

(** [tiers.includes(tier)] *)
Definition includes_tier (tiers : list Z) (tier : Z) : bool :=
  existsb (Z.eqb tier) tiers.

(** [fetchFundsByTiers]: [response] is the [data] array of the answer, or
    [None] when the request fails or the answer has no such array (the
    function throws). *)
Definition fetchFundsByTiers (response : option (list Fund.t)) (tiers : list Z)
    : option (list Fund.t) :=
  List.filter (fun fund => includes_tier tiers (Fund.tier fund)) <$> response.

Definition fetchTier1Funds (response : option (list Fund.t)) :=
  fetchFundsByTiers response [1%Z].
Definition fetchTier1And2Funds (response : option (list Fund.t)) :=
  fetchFundsByTiers response [1%Z; 2%Z].

End Api.

(** ** The fund entry point ([main], [loadCache], [savePartialResults]) *)

Module FundMain.

Definition OUTPUT_FILE_TIER1 : string := "./output/tier1-vcs.json".
Definition OUTPUT_FILE_TIER1_2 : string := "./output/tier1-2-vcs.json".
Definition DELAY_BETWEEN_REQUESTS_MS : Z := 1500.

Definition outputFile (includeTier2 : bool) : string :=
  if includeTier2 then OUTPUT_FILE_TIER1_2 else OUTPUT_FILE_TIER1.

(** The file at [outputFile]. *)
Definition read_output (includeTier2 : bool) (f : Files.t) : Stored FundResultSet.t :=
  if includeTier2 then Files.tier1_2 f else Files.tier1 f.

Definition write_output (includeTier2 : bool) (doc : FundResultSet.t) (f : Files.t)
    : Files.t :=
  if includeTier2
  then Files.mk (Files.tier1 f) (Holding doc) (Files.rounds f) (Files.detailed f)
  else Files.mk (Holding doc) (Files.tier1_2 f) (Files.rounds f) (Files.detailed f).

Definition targetTiers (includeTier2 : bool) : list Z :=
  if includeTier2 then [1%Z; 2%Z] else [1%Z].

(** [fund.website || fund.twitter || ... || fund.reddit], on the properties
    at the top level of the record. *)
Definition hasAnyLink (fund : FundRecord.t) : bool :=
  let top := FundRecord.top fund in
  truthy (Links.website top) || truthy (Links.twitter top) ||
  truthy (Links.telegram top) || truthy (Links.discord top) ||
  truthy (Links.medium top) || truthy (Links.linkedin top) ||
  truthy (Links.github top) || truthy (Links.youtube top) ||
  truthy (Links.facebook top) || truthy (Links.instagram top) ||
  truthy (Links.reddit top).

(** The records [loadCache] keeps: those without a truthy [error] that
    have a truthy link at the top level. *)
Definition cacheable (fund : FundRecord.t) : bool :=
  negb (truthy (FundRecord.error fund)) && hasAnyLink fund.

(** The body of the loop of [loadCache]. *)
Definition cache_step (cache : JsMap.t FundRecord.t) (fund : FundRecord.t)
    : JsMap.t FundRecord.t :=
  if negb (truthy (FundRecord.error fund)) && hasAnyLink fund
  then JsMap.set (FundRecord.key fund) fund cache
  else cache.

(** [loadCache(outputFile)], given the state of the file at [outputFile].
    The function has no way to throw: a missing file returns the empty map
    at once, and everything else runs inside [try]. *)
Definition loadCache (stored : Stored FundResultSet.t) : JsMap.t FundRecord.t :=
  match stored with
  | Absent => JsMap.empty
  | Unparseable => JsMap.empty
  | NoDataArray => JsMap.empty
  | Holding json => foldl cache_step JsMap.empty (FundResultSet.data json)
  end.

(** [if (!data.url) data.url = ...]: the cached record itself is changed. *)
Definition with_url (key : string) (data : FundRecord.t) : FundRecord.t :=
  if truthy (FundRecord.url data) then data
  else FundRecord.set_url (Some (FundScraper.CRYPTORANK_FUND_URL +:+ key)) data.

(** The cache after the first loop of a merge went over it. *)
Definition touch_cache (cache : JsMap.t FundRecord.t) : JsMap.t FundRecord.t :=
  (fun entry => (fst entry, with_url (fst entry) (snd entry))) <$> cache.

(** [allResultsMap] after the two loops: the cached records, then the new
    results set over them. *)
Definition merge (cache : JsMap.t FundRecord.t) (newResults : list FundRecord.t)
    : JsMap.t FundRecord.t :=
  let cached :=
    foldl (fun m entry => JsMap.set (fst entry) (snd entry) m)
          JsMap.empty (touch_cache cache) in
  foldl (fun m result => JsMap.set (FundRecord.key result) result m)
        cached newResults.

(** The last record of a batch that carries the key [K]: the one a [Map]
    keeps when the batch is set into it record by record. *)
Fixpoint last_for (K : string) (results : list FundRecord.t) : option FundRecord.t :=
  match results with
  | [] => None
  | result :: rest =>
      match last_for K rest with
      | Some later => Some later
      | None => if String.eqb (FundRecord.key result) K then Some result else None
      end
  end.

(** A map of records in which no key occurs twice and every record is
    stored under its own key, as [loadCache] builds it. *)
Definition keyed (m : JsMap.t FundRecord.t) : Prop :=
  NoDup (JsMap.keys m) /\ Forall (fun entry => FundRecord.key (snd entry) = fst entry) m.

(** A record built by [main] has the key and the tier of its fund. *)
Definition built_from (record : FundRecord.t) (fund : Fund.t) : Prop :=
  FundRecord.key record = Fund.key fund /\ FundRecord.tier record = Fund.tier fund.

Section Sorting.
(** [a.localeCompare(b)], which rests on the collation of the engine. *)
Variable localeCompare : string -> string -> Z.

(** The comparator given to [sort]. *)
Definition compare (a b : FundRecord.t) : Z :=
  if negb (Z.eqb (FundRecord.tier a) (FundRecord.tier b))
  then (FundRecord.tier a - FundRecord.tier b)%Z
  else localeCompare (FundRecord.name a) (FundRecord.name b).

Fixpoint insert (x : FundRecord.t) (sorted : list FundRecord.t) : list FundRecord.t :=
  match sorted with
  | [] => [x]
  | y :: rest =>
      if Z.leb (compare x y) 0 then x :: y :: rest else y :: insert x rest
  end.

(** [Array.prototype.sort] with the comparator.  The sort of the engine is
    stable; this one inserts from the right and puts an element before the
    ones it does not exceed, which is stable too, and gives the same array
    whenever the comparator orders the records consistently.  The
    properties below use only that the result is a rearrangement. *)
Definition sort (records : list FundRecord.t) : list FundRecord.t :=
  foldr insert [] records.

(** [Array.from(allResultsMap.values()).filter(...).sort(...)] *)
Definition allResults (includeTier2 : bool) (allResultsMap : JsMap.t FundRecord.t)
    : list FundRecord.t :=
  sort (List.filter
          (fun f => Api.includes_tier (targetTiers includeTier2) (FundRecord.tier f))
          (JsMap.values allResultsMap)).

(** The [data] array a merge of [cache] and [newResults] comes to. *)
Definition merged (includeTier2 : bool) (cache : JsMap.t FundRecord.t)
    (newResults : list FundRecord.t) : list FundRecord.t :=
  allResults includeTier2 (merge cache newResults).

Definition count_success (records : list FundRecord.t) : nat :=
  length (List.filter (fun f => negb (truthy (FundRecord.error f))) records).
Definition count_failed (records : list FundRecord.t) : nat :=
  length (List.filter (fun f => truthy (FundRecord.error f)) records).

Section Run.
(** The answer of the upstream source. *)
Variable response : option (list Fund.t).
(** Whether the first [scraper.connect()] succeeds. *)
Variable connectOk : bool.
Variable fetch : nat -> string -> Outcome Links.t.
(** The clock and the outcome of a [writeFile], after a number of events. *)
Variable now : nat -> Z.
Variable writeOk : nat -> bool.
Variable maxRetries : nat.
Variable includeTier2 enableScreenshots : bool.

Definition clock (w : World) : Z := now (length (trace w)).

(** [writeFile(outputFile, JSON.stringify(output))]: [false] when it throws. *)
Definition writeFile (output : FundResultSet.t) (w : World) : bool * World :=
  if writeOk (length (trace w))
  then (true, emit (EvWrite (outputFile includeTier2) true)
                (set_files (write_output includeTier2 output (files w)) w))
  else (false, emit (EvWrite (outputFile includeTier2) false) w).

(** [savePartialResults]: whether it returned ([false]: it threw), the
    cache after it, the world after it. *)
Definition savePartialResults (cache : JsMap.t FundRecord.t)
    (newResults : list FundRecord.t) (startTime : Z) (w : World)
    : bool * JsMap.t FundRecord.t * World :=
  let allResults := merged includeTier2 cache newResults in
  let output :=
    FundResultSet.mk
      (FundMetadata.mk (clock w) "cryptorank.io" (targetTiers includeTier2)
         (length allResults) (count_success allResults) (count_failed allResults)
         None None (clock w - startTime)%Z true)
      allResults in
  let '(ok, w') := writeFile output w in
  (ok, touch_cache cache, w').

(** The record [main] builds from a fund and the result of [scrapeFund]
    (lines 233-281). *)
Definition build_result (fund : Fund.t) (scrapeResult : ScrapeResult.t)
    (scrapedAt : Z) : FundRecord.t :=
  let links := ScrapeResult.links scrapeResult in
  let otherSocials :=
    omap (fun entry => match snd entry with
                       | Some value => Some (fst entry, value)
                       | None => None
                       end)
         (Links.other_entries links) in
  FundRecord.mk (Fund.id fund) (Fund.key fund) (Fund.name fund) (Fund.tier fund)
    (Fund.type fund)
    (Some (FundScraper.CRYPTORANK_FUND_URL +:+ Fund.key fund))
    (Links.mk (or_null (Links.website links)) (or_null (Links.twitter links))
       None None None None None None None None None)
    scrapedAt
    (or_null (ScrapeResult.error scrapeResult))
    (match otherSocials with [] => None | _ => Some otherSocials end).

(** What the loop of step 4 carries from one iteration to the next. *)
Record Progress : Type := mkProgress {
  p_cache : JsMap.t FundRecord.t;
  p_newResults : list FundRecord.t;
  p_successCount : nat;
  p_failCount : nat
}.

(** The loop of step 4 from index [i] on; [todo] is what is left of
    [fundsToScrape] and [total] its full length. *)
Fixpoint scrape_from (todo : list Fund.t) (i total : nat) (startTime : Z)
    (p : Progress) (w : World) : Progress * World :=
  match todo with
  | [] => (p, w)
  | fund :: later =>
      let index := S i in
      let w1 := emit (EvUnit (TFund (Fund.key fund))) w in
      let '(scrapeResult, w2) :=
        FundScraper.scrapeFund fetch enableScreenshots maxRetries
          (Fund.key fund) index total w1 in
      let failed := truthy (ScrapeResult.error scrapeResult) in
      let result := build_result fund scrapeResult (clock w2) in
      let newResults' := p_newResults p ++ [result] in
      let '(_, cache', w3) :=
        savePartialResults (p_cache p) newResults' startTime w2 in
      let w4 :=
        if Z.ltb (Z.of_nat i) (Z.of_nat total - 1)
        then emit (EvThrottle DELAY_BETWEEN_REQUESTS_MS) w3 else w3 in
      scrape_from later (S i) total startTime
        (mkProgress cache' newResults'
           (if failed then p_successCount p else S (p_successCount p))
           (if failed then S (p_failCount p) else p_failCount p))
        w4
  end.

(** The targets of a run: the funds of the wanted tiers. *)
Definition submitted : option (list Fund.t) :=
  if includeTier2 then Api.fetchTier1And2Funds response
  else Api.fetchTier1Funds response.

Definition fundsToScrape (funds : list Fund.t) (cache : JsMap.t FundRecord.t)
    : list Fund.t :=
  List.filter (fun f => negb (JsMap.has (Fund.key f) cache)) funds.

(** The number of units of work of a run: the funds left to scrape, when
    the run gets as far as scraping. *)
Definition units (w : World) : nat :=
  match submitted with
  | None => 0
  | Some funds =>
      if connectOk
      then length (fundsToScrape funds (loadCache (read_output includeTier2 (files w))))
      else 0
  end.

Definition main (w : World) : Exit * World :=
  let startTime := clock w in
  match submitted with
  | None => (Failed, w)
  | Some funds =>
      let cache := loadCache (read_output includeTier2 (files w)) in
      let cachedCount := JsMap.size cache in
      let todo := fundsToScrape funds cache in
      if Nat.eqb (length todo) 0 then (FromCache, w)
      else if negb connectOk then (Failed, emit (EvConnect false) w)
      else
        let w1 := emit (EvConnect true) w in
        let '(p, w2) :=
          scrape_from todo 0 (length todo) startTime
            (mkProgress cache [] 0 0) w1 in
        let w3 := emit EvDisconnect w2 in
        let allResults := merged includeTier2 (p_cache p) (p_newResults p) in
        let duration := (clock w3 - startTime)%Z in
        let output :=
          FundResultSet.mk
            (FundMetadata.mk (clock w3) "cryptorank.io" (targetTiers includeTier2)
               (length allResults) (count_success allResults)
               (count_failed allResults)
               (Some cachedCount) (Some (p_successCount p + p_failCount p))
               duration false)
            allResults in
        let '(ok, w4) := writeFile output w3 in
        if ok then (Completed, w4) else (Failed, w4)
  end.

End Run.
End Sorting.
End FundMain.

(** ** The funding-rounds entry point ([src/funding-rounds.js]) *)

Module RoundsMain.

Definition OUTPUT_FILE : string := "./output/funding-rounds.json".
Definition DEFAULT_LIMIT : nat := 200.
Definition ITEMS_PER_PAGE : nat := 20.
Definition DELAY_BETWEEN_PAGES_MS : Z := 2000.

(** [Math.ceil(limit / ITEMS_PER_PAGE)] *)
Definition pagesNeeded (limit : nat) : nat :=
  Nat.div (limit + (ITEMS_PER_PAGE - 1)) ITEMS_PER_PAGE.

(** A number or [null] after [JSON.stringify] and [JSON.parse]: a finite
    number comes back as it is (a zero without its sign), and a number
    that is not finite ([Infinity], [NaN]) is written as [null]. *)
Definition json_number (x : option Amount.double) : option Amount.double :=
  match x with
  | Some (S754_zero _) => Some (S754_zero false)
  | Some (S754_finite s m e) => Some (S754_finite s m e)
  | Some (S754_infinity _) => None
  | Some S754_nan => None
  | None => None
  end.

(** A round as a file holds it: of its fields only [raiseAmountRaw] is a
    number; the others are strings, [null] and the array of investors
    (objects of strings), which come back as they are. *)
Definition json_round (round : Round.t) : Round.t :=
  Round.mk (Round.row round) (json_number (Round.raiseAmountRaw round))
           (Round.dateISO round) (Round.scrapedAt round).

Section Run.
Variable connectOk : bool.
Variable fetch : nat -> nat -> Outcome (list Row.t).
Variable parseDateToISO : option string -> option string.
Variable now : nat -> Z.
Variable writeOk : nat -> bool.
Variable maxRetries : nat.
(** The limit [parseArgs] returns: [DEFAULT_LIMIT], or the positive number
    given on the command line. *)
Variable limit : nat.

Definition clock (w : World) : Z := now (length (trace w)).

Definition write_output (doc : RoundsResultSet.t) (f : Files.t) : Files.t :=
  Files.mk (Files.tier1 f) (Files.tier1_2 f) (Holding doc) (Files.detailed f).

(** [saveResults]: [false] when [writeFile] throws.  The file holds the
    text [JSON.stringify(output)], so the document in it has the rounds
    as [JSON.stringify] writes them. *)
Definition saveResults (data : list Round.t) (pagesScraped : nat) (startTime : Z)
    (partial : bool) (w : World) : bool * World :=
  let output :=
    RoundsResultSet.mk
      (RoundsMetadata.mk (clock w) "cryptorank.io/funding-rounds" (length data)
         limit pagesScraped partial (clock w - startTime)%Z)
      (json_round <$> data) in
  if writeOk (length (trace w))
  then (true, emit (EvWrite OUTPUT_FILE true)
                (set_files (write_output output (files w)) w))
  else (false, emit (EvWrite OUTPUT_FILE false) w).

Record Progress : Type := mkProgress {
  allData : list Round.t;
  pagesScraped : nat;
  successCount : nat;
  failCount : nat
}.

(** The loop of step 2 over the page numbers still [todo]. *)
Fixpoint scrape_pages (todo : list nat) (pages : nat) (startTime : Z)
    (p : Progress) (w : World) : Progress * World :=
  match todo with
  | [] => (p, w)
  | pageNumber :: later =>
      let w1 := emit (EvUnit (TPage pageNumber)) w in
      let '(result, w2) :=
        RoundsScraper.scrapePage fetch parseDateToISO now maxRetries pageNumber w1 in
      let p' :=
        if truthy (PageResult.error result)
        then mkProgress (allData p) (pagesScraped p) (successCount p)
                        (S (failCount p))
        else mkProgress (allData p ++ PageResult.data result)
                        (S (pagesScraped p)) (S (successCount p)) (failCount p) in
      let '(_, w3) := saveResults (allData p') (pagesScraped p') startTime true w2 in
      let w4 :=
        if Nat.ltb pageNumber pages
        then emit (EvThrottle DELAY_BETWEEN_PAGES_MS) w3 else w3 in
      scrape_pages later pages startTime p' w4
  end.

(** The number of units of work of a run: the pages, when the connection
    is made. *)
Definition units : nat := if connectOk then pagesNeeded limit else 0.

Definition main (w : World) : Exit * World :=
  let startTime := clock w in
  let pages := pagesNeeded limit in
  if negb connectOk then (Failed, emit (EvConnect false) w)
  else
    let w1 := emit (EvConnect true) w in
    let '(p, w2) :=
      scrape_pages (seq 1 pages) pages startTime (mkProgress [] 0 0 0) w1 in
    let w3 := emit EvDisconnect w2 in
    let '(ok, w4) := saveResults (allData p) (pagesScraped p) startTime false w3 in
    if ok then (Completed, w4) else (Failed, w4).

End Run.
End RoundsMain.

(** ** The project-details entry point (the version without a cache) *)

Module ProjectMain.

Definition INPUT_FILE : string := "./output/funding-rounds.json".
Definition OUTPUT_FILE : string := "./output/funding-rounds-detailed.json".
Definition DELAY_BETWEEN_PROJECTS_MS : Z := 2000.

(** The property name a [projectKey] selects in the plain object
    [projectDetails]: [null] is the name "null".  (Names that the prototype
    of an object answers, such as "constructor", are outside the model.) *)
Definition property (projectKey : option string) : string :=
  match projectKey with Some k => k | None => "null" end.

(** The object each round is mapped to in [saveResults]. *)
Definition enrich (projectDetails : JsMap.t ProjectResult.t) (round : Round.t)
    : EnrichedRound.t :=
  match JsMap.get (property (Round.projectKey round)) projectDetails with
  | Some details =>
      EnrichedRound.mk round (ProjectResult.details details)
                       (or_null (ProjectResult.error details))
  | None => EnrichedRound.mk round None None
  end.

Section Run.
Variable connectOk : bool.
Variable fetch : nat -> string -> Outcome RawDetails.t.
Variable now : nat -> Z.
Variable writeOk : nat -> bool.
Variable maxRetries : nat.
(** The limit [parseArgs] returns: [null], or a positive number. *)
Variable limit : option nat.

Definition clock (w : World) : Z := now (length (trace w)).

Definition write_output (doc : DetailedResultSet.t) (f : Files.t) : Files.t :=
  Files.mk (Files.tier1 f) (Files.tier1_2 f) (Files.rounds f) (Holding doc).

Definition saveResults (data : list Round.t)
    (projectDetails : JsMap.t ProjectResult.t)
    (totalProjects successful failed : nat) (startTime : Z) (partial : bool)
    (w : World) : bool * World :=
  let enrichedData := enrich projectDetails <$> data in
  let output :=
    DetailedResultSet.mk
      (DetailedMetadata.mk (clock w) "cryptorank.io/ico" totalProjects
         successful failed partial (clock w - startTime)%Z)
      enrichedData in
  if writeOk (length (trace w))
  then (true, emit (EvWrite OUTPUT_FILE true)
                (set_files (write_output output (files w)) w))
  else (false, emit (EvWrite OUTPUT_FILE false) w).

Record Progress : Type := mkProgress {
  projectDetails : JsMap.t ProjectResult.t;
  successCount : nat;
  failCount : nat
}.

(** The loop of step 4 from index [i] on. *)
Fixpoint scrape_from (todo : list Project.t) (i total : nat)
    (data : list Round.t) (startTime : Z) (p : Progress) (w : World)
    : Progress * World :=
  match todo with
  | [] => (p, w)
  | project :: later =>
      let key := Project.projectKey project in
      let w1 := emit (EvUnit (TProject key)) w in
      let '(result, w2) :=
        ProjectScraper.scrapeProject fetch now maxRetries key w1 in
      let failed := truthy (ProjectResult.error result) in
      let p' :=
        mkProgress (JsMap.set key result (projectDetails p))
          (if failed then successCount p else S (successCount p))
          (if failed then S (failCount p) else failCount p) in
      let '(_, w3) :=
        saveResults data (projectDetails p') total (successCount p')
          (failCount p') startTime true w2 in
      let w4 :=
        if Z.ltb (Z.of_nat i) (Z.of_nat total - 1)
        then emit (EvThrottle DELAY_BETWEEN_PROJECTS_MS) w3 else w3 in
      scrape_from later (S i) total data startTime p' w4
  end.

(** [if (limit && limit < projects.length) projects = projects.slice(0, limit)] *)
Definition apply_limit (projects : list Project.t) : list Project.t :=
  match limit with
  | Some n =>
      if negb (Nat.eqb n 0) && Nat.ltb n (length projects)
      then take n projects else projects
  | None => projects
  end.

(** The number of units of work of a run: the projects, when the input
    can be read and the connection is made. *)
Definition units (w : World) : nat :=
  match Files.rounds (files w) with
  | Holding fundingData =>
      if connectOk
      then length (apply_limit
                     (Extract.extractUniqueProjects (RoundsResultSet.data fundingData)))
      else 0
  | _ => 0
  end.

Definition main (w : World) : Exit * World :=
  let startTime := clock w in
  match Files.rounds (files w) with
  | Holding fundingData =>
      let data := RoundsResultSet.data fundingData in
      let projects := apply_limit (Extract.extractUniqueProjects data) in
      if negb connectOk then (Failed, emit (EvConnect false) w)
      else
        let w1 := emit (EvConnect true) w in
        let '(p, w2) :=
          scrape_from projects 0 (length projects) data startTime
            (mkProgress JsMap.empty 0 0) w1 in
        let w3 := emit EvDisconnect w2 in
        let '(ok, w4) :=
          saveResults data (projectDetails p) (length projects)
            (successCount p) (failCount p) startTime false w3 in
        if ok then (Completed, w4) else (Failed, w4)
  | _ => (Failed, w)
  end.

End Run.
End ProjectMain.

(** ** Vocabulary for traces *)

(** The steps of a retry wrapper seen in a trace: attempts, and the waits
    between them. *)
Inductive RetryStep : Type :=
| SAttempt
| SDelay (ms : Z).

Definition retry_step (e : Event) : option RetryStep :=
  match e with
  | EvAttempt _ _ => Some SAttempt
  | EvRetryDelay ms => Some (SDelay ms)
  | _ => None
  end.

Definition retry_steps (events : list Event) : list RetryStep :=
  omap retry_step events.

(** [n] attempts with a wait of [ms] between consecutive ones, and none
    before the first or after the last. *)
Fixpoint attempts_apart (ms : Z) (n : nat) : list RetryStep :=
  match n with
  | 0 => []
  | 1 => [SAttempt]
  | S n' => SAttempt :: SDelay ms :: attempts_apart ms n'
  end.

(** The steps of an entry point seen in a trace: units of work, and the
    throttle waits. *)
Inductive UnitStep : Type :=
| SUnit
| SThrottle (ms : Z).

Definition unit_step (e : Event) : option UnitStep :=
  match e with
  | EvUnit _ => Some SUnit
  | EvThrottle ms => Some (SThrottle ms)
  | _ => None
  end.

Definition unit_steps (events : list Event) : list UnitStep :=
  omap unit_step events.

(** [n] units with a throttle wait of [ms] between consecutive ones. *)
Fixpoint units_apart (ms : Z) (n : nat) : list UnitStep :=
  match n with
  | 0 => []
  | 1 => [SUnit]
  | S n' => SUnit :: SThrottle ms :: units_apart ms n'
  end.

Definition is_throttle (s : UnitStep) : bool :=
  match s with SThrottle _ => true | SUnit => false end.

Definition is_delay (s : RetryStep) : bool :=
  match s with SDelay _ => true | SAttempt => false end.

(** [w'] comes after [w]: its trace continues the trace of [w] with
    [events]. *)
Definition continues (w w' : World) (events : list Event) : Prop :=
  trace w' = trace w ++ events.

(** ** Sample runs

    Concrete funds, answers of the browser and worlds, used to run the
    definitions above. *)

Module Sample.

Definition alpha : Fund.t := Fund.mk 1 "a" "Alpha" 1 "Venture".
Definition beta : Fund.t := Fund.mk 2 "b" "Beta" 1 "Venture".

Definition website_only : Links.t :=
  Links.mk (Some "https://a.io") None None None None None None None None None None.

Definition telegram_only : Links.t :=
  Links.mk None None (Some "https://t.me/a") None None None None None None None None.

Definition start : World := mkWorld 0 Files.none [].

(** Code-unit order stands in for [localeCompare]. *)
Definition localeCompare (a b : string) : Z :=
  match String.compare a b with Lt => (-1)%Z | Eq => 0%Z | Gt => 1%Z end.

Definition now (n : nat) : Z := Z.of_nat n.
Definition writeOk (n : nat) : bool := true.
Definition parseDateToISO (d : option string) : option string := d.

(** The first call times out, every later one finds a website. *)
Definition fails_once (n : nat) (key : string) : Outcome Links.t :=
  if Nat.ltb n 1 then Raised "timeout" true else Extracted website_only.

(** Every call extracts the eleven links, all [null]. *)
Definition no_links (n : nat) (key : string) : Outcome Links.t :=
  Extracted Links.none.

(** Every call raises an error whose message is empty. *)
Definition silent_error (n : nat) (key : string) : Outcome Links.t :=
  Raised "" false.

(** Every call times out. *)
Definition always_timeout (n : nat) (key : string) : Outcome Links.t :=
  Raised "timeout" true.

(** Every call finds a Telegram link and nothing else. *)
Definition finds_telegram (n : nat) (key : string) : Outcome Links.t :=
  Extracted telegram_only.

(** Every call finds a website. *)
Definition finds_website (n : nat) (key : string) : Outcome Links.t :=
  Extracted website_only.

(** A record of fund "a" as a previous run stored it, with a website. *)
Definition stored_alpha : FundRecord.t :=
  FundRecord.mk 1 "a" "Alpha" 1 "Venture" (Some "https://cryptorank.io/funds/a")
    website_only 10 None None.

(** A record of fund "b", of tier 1, stored with a website. *)
Definition stored_beta : FundRecord.t :=
  FundRecord.mk 2 "b" "Beta" 1 "Venture" (Some "https://cryptorank.io/funds/b")
    (Links.mk (Some "https://b.io") None None None None None None None None None None)
    11 None None.

(** The record [main] writes for a fund whose page shows a Telegram link
    and nothing else. *)
Definition alpha_telegram : FundRecord.t :=
  FundRecord.mk 1 "a" "Alpha" 1 "Venture" (Some "https://cryptorank.io/funds/a")
    Links.none 3 None (Some [("telegram", "https://t.me/a")]).

Definition metadata (n : nat) : FundMetadata.t :=
  FundMetadata.mk 0 "cryptorank.io" [1%Z] n n 0 (Some 0) (Some n) 0 false.

Definition holding (records : list FundRecord.t) : Stored FundResultSet.t :=
  Holding (FundResultSet.mk (metadata (length records)) records).

Definition a_row : Row.t :=
  Row.mk (Some "Alpha") (Some "alpha") (Some "https://cryptorank.io/price/alpha")
         (Some "https://cryptorank.io/ico/alpha") (Some "$5.5M") (Some "Seed")
         [] (Some "Jan 27, 2026") None.

(** The first call of the page scraper times out, every later one reads
    one row. *)
Definition page_fails_once (n pageNumber : nat) : Outcome (list Row.t) :=
  if Nat.ltb n 1 then Raised "timeout" true else Extracted [a_row].

(** Every call reads an empty table. *)
Definition empty_page (n pageNumber : nat) : Outcome (list Row.t) :=
  Extracted [].

(** The first three calls read an empty table, every later one reads one
    row. *)
Definition empty_three_times (n pageNumber : nat) : Outcome (list Row.t) :=
  if Nat.ltb n 3 then Extracted [] else Extracted [a_row].

End Sample.

(** ** The links of a fund page ([categorizeLink], lines 37-73, and
    [extractSocialLinks], lines 172-227, of the fund scraper)

    [extractSocialLinks] runs in the page: it reads the [href] attribute of
    every anchor the selector matches, in document order, and sorts the
    values into the eleven properties of its result.  The anchors of the
    page are given here by the list of their [href] attributes, [None] for
    an anchor without one. *)

Module SocialLinks.

(** [s.toLowerCase()] on the code units 0..255: the letters A-Z, and the
    capital letters of Latin-1 (192..222 without the multiplication sign
    215), move up by 32. *)
Definition lower_char (c : ascii) : ascii :=
  let n := Amount.code c in
  if (Nat.leb 65 n && Nat.leb n 90) ||
     (Nat.leb 192 n && Nat.leb n 222 && negb (Nat.eqb n 215))
  then ascii_of_nat (n + 32) else c.

Fixpoint toLowerCase (s : string) : string :=
  match s with
  | EmptyString => EmptyString
  | String c rest => String (lower_char c) (toLowerCase rest)
  end.

(** [categorizeLink(href)]: the name of a category, or [None] for [null]
    (a website). *)
Definition categorizeLink (href : string) : option string :=
  let lowerHref := toLowerCase href in
  if includes lowerHref "twitter.com/" || includes lowerHref "x.com/"
  then Some "twitter"
  else if includes lowerHref "t.me/" || includes lowerHref "telegram."
  then Some "telegram"
  else if includes lowerHref "discord.gg/" || includes lowerHref "discord.com/"
  then Some "discord"
  else if includes lowerHref "medium.com/" || includes lowerHref "medium.com/@"
  then Some "medium"
  else if includes lowerHref "linkedin.com/" then Some "linkedin"
  else if includes lowerHref "github.com/" then Some "github"
  else if includes lowerHref "youtube.com/" || includes lowerHref "youtu.be/"
  then Some "youtube"
  else if includes lowerHref "facebook.com/" then Some "facebook"
  else if includes lowerHref "instagram.com/" then Some "instagram"
  else if includes lowerHref "reddit.com/" then Some "reddit"
  else None.

(** [result.<name> = href], one definition for each property. *)
Definition set_website (href : string) (l : Links.t) : Links.t :=
  Links.mk (Some href) (Links.twitter l) (Links.telegram l) (Links.discord l)
    (Links.medium l) (Links.linkedin l) (Links.github l) (Links.youtube l)
    (Links.facebook l) (Links.instagram l) (Links.reddit l).
Definition set_twitter (href : string) (l : Links.t) : Links.t :=
  Links.mk (Links.website l) (Some href) (Links.telegram l) (Links.discord l)
    (Links.medium l) (Links.linkedin l) (Links.github l) (Links.youtube l)
    (Links.facebook l) (Links.instagram l) (Links.reddit l).
Definition set_telegram (href : string) (l : Links.t) : Links.t :=
  Links.mk (Links.website l) (Links.twitter l) (Some href) (Links.discord l)
    (Links.medium l) (Links.linkedin l) (Links.github l) (Links.youtube l)
    (Links.facebook l) (Links.instagram l) (Links.reddit l).
Definition set_discord (href : string) (l : Links.t) : Links.t :=
  Links.mk (Links.website l) (Links.twitter l) (Links.telegram l) (Some href)
    (Links.medium l) (Links.linkedin l) (Links.github l) (Links.youtube l)
    (Links.facebook l) (Links.instagram l) (Links.reddit l).
Definition set_medium (href : string) (l : Links.t) : Links.t :=
  Links.mk (Links.website l) (Links.twitter l) (Links.telegram l) (Links.discord l)
    (Some href) (Links.linkedin l) (Links.github l) (Links.youtube l)
    (Links.facebook l) (Links.instagram l) (Links.reddit l).
Definition set_linkedin (href : string) (l : Links.t) : Links.t :=
  Links.mk (Links.website l) (Links.twitter l) (Links.telegram l) (Links.discord l)
    (Links.medium l) (Some href) (Links.github l) (Links.youtube l)
    (Links.facebook l) (Links.instagram l) (Links.reddit l).
Definition set_github (href : string) (l : Links.t) : Links.t :=
  Links.mk (Links.website l) (Links.twitter l) (Links.telegram l) (Links.discord l)
    (Links.medium l) (Links.linkedin l) (Some href) (Links.youtube l)
    (Links.facebook l) (Links.instagram l) (Links.reddit l).
Definition set_youtube (href : string) (l : Links.t) : Links.t :=
  Links.mk (Links.website l) (Links.twitter l) (Links.telegram l) (Links.discord l)
    (Links.medium l) (Links.linkedin l) (Links.github l) (Some href)
    (Links.facebook l) (Links.instagram l) (Links.reddit l).
Definition set_facebook (href : string) (l : Links.t) : Links.t :=
  Links.mk (Links.website l) (Links.twitter l) (Links.telegram l) (Links.discord l)
    (Links.medium l) (Links.linkedin l) (Links.github l) (Links.youtube l)
    (Some href) (Links.instagram l) (Links.reddit l).
Definition set_instagram (href : string) (l : Links.t) : Links.t :=
  Links.mk (Links.website l) (Links.twitter l) (Links.telegram l) (Links.discord l)
    (Links.medium l) (Links.linkedin l) (Links.github l) (Links.youtube l)
    (Links.facebook l) (Some href) (Links.reddit l).
Definition set_reddit (href : string) (l : Links.t) : Links.t :=
  Links.mk (Links.website l) (Links.twitter l) (Links.telegram l) (Links.discord l)
    (Links.medium l) (Links.linkedin l) (Links.github l) (Links.youtube l)
    (Links.facebook l) (Links.instagram l) (Some href).

(** The [if ... else if ... else] chain of the loop of
    [extractSocialLinks]. *)
Definition categorize (href : string) (result : Links.t) : Links.t :=
  let lowerHref := toLowerCase href in
  if includes lowerHref "twitter.com/" || includes lowerHref "x.com/"
  then set_twitter href result
  else if includes lowerHref "t.me/" || includes lowerHref "telegram."
  then set_telegram href result
  else if includes lowerHref "discord.gg/" || includes lowerHref "discord.com/"
  then set_discord href result
  else if includes lowerHref "medium.com/" || includes lowerHref "medium.com/@"
  then set_medium href result
  else if includes lowerHref "linkedin.com/" then set_linkedin href result
  else if includes lowerHref "github.com/" then set_github href result
  else if includes lowerHref "youtube.com/" || includes lowerHref "youtu.be/"
  then set_youtube href result
  else if includes lowerHref "facebook.com/" then set_facebook href result
  else if includes lowerHref "instagram.com/" then set_instagram href result
  else if includes lowerHref "reddit.com/" then set_reddit href result
  else set_website href result.

(** The body of the loop: [if (!href) continue], the test on
    "cryptorank", the chain. *)
Definition visit (result : Links.t) (href : option string) : Links.t :=
  match href with
  | None => result
  | Some h =>
      if negb (truthy (Some h)) then result
      else if includes (toLowerCase h) "cryptorank" then result
      else categorize h result
  end.

Definition extractSocialLinks (hrefs : list (option string)) : Links.t :=
  foldl visit Links.none hrefs.

(** *** Vocabulary of the properties *)

(** The categories: [null] for a website, and the ten names. *)
Definition categories : list (option string) :=
  [None; Some "twitter"; Some "telegram"; Some "discord"; Some "medium";
   Some "linkedin"; Some "github"; Some "youtube"; Some "facebook";
   Some "instagram"; Some "reddit"].

(** The property of the result that belongs to a category:
    [links.website] for [null], [links[name]] for a name. *)
Definition link_of (category : option string) (l : Links.t) : option string :=
  match category with
  | None => Links.website l
  | Some name =>
      if String.eqb name "twitter" then Links.twitter l
      else if String.eqb name "telegram" then Links.telegram l
      else if String.eqb name "discord" then Links.discord l
      else if String.eqb name "medium" then Links.medium l
      else if String.eqb name "linkedin" then Links.linkedin l
      else if String.eqb name "github" then Links.github l
      else if String.eqb name "youtube" then Links.youtube l
      else if String.eqb name "facebook" then Links.facebook l
      else if String.eqb name "instagram" then Links.instagram l
      else if String.eqb name "reddit" then Links.reddit l
      else None
  end.

(** An [href] the loop does not skip: a non-empty string that does not
    hold "cryptorank", in any case of the letters. *)
Definition usable (href : option string) : bool :=
  match href with
  | Some h => truthy (Some h) && negb (includes (toLowerCase h) "cryptorank")
  | None => false
  end.

(** The usable [href] values of a category, in document order. *)
Definition of_category (category : option string) (hrefs : list (option string))
    : list string :=
  omap (fun href =>
          match href with
          | Some h =>
              if usable href && bool_decide (categorizeLink h = category)
              then Some h else None
          | None => None
          end) hrefs.

(** What the browser answers when the page is read through
    [extractSocialLinks]: [anchors n key] is the outcome of the [n]-th
    attempt with, for a page that was read, the [href] values of its
    anchors. *)
Definition through_extraction
    (anchors : nat -> string -> Outcome (list (option string)))
    (n : nat) (key : string) : Outcome Links.t :=
  match anchors n key with
  | Raised message pageOpen => Raised message pageOpen
  | Extracted hrefs => Extracted (extractSocialLinks hrefs)
  end.

End SocialLinks.

(** ** Amounts: vocabulary *)

Module AmountShape.

(** A number that is not [NaN] and whose sign bit is clear: [+0], a
    positive finite number, or [+Infinity]. *)
Definition non_negative (x : Amount.double) : bool :=
  match x with
  | S754_zero s => negb s
  | S754_infinity s => negb s
  | S754_finite s _ _ => negb s
  | S754_nan => false
  end.

End AmountShape.

(** ** The [details] object of a project: vocabulary

    The numeric properties [scrapeProject] adds to the texts the page
    shows, each with the text it is computed from and the parser that
    computes it ([src/project-details-scraper.js], lines 554-564). *)

Module DetailsShape.

Definition raw_fields
    : list (string * string * (option string -> option Amount.double)) :=
  [("tokenPriceRaw", "tokenPrice", Amount.parseAmount);
   ("marketCapRaw", "marketCap", Amount.parseAmount);
   ("fdvRaw", "fdv", Amount.parseAmount);
   ("totalSupplyRaw", "totalSupply", Amount.parseSupply);
   ("circulatingSupplyRaw", "circulatingSupply", Amount.parseSupply);
   ("totalRaisedRaw", "totalRaised", Amount.parseAmount);
   ("valuationRaw", "valuation", Amount.parseAmount)].

(** The text a property holds, [None] when the property is missing or
    holds something else. *)
Definition as_text (value : option Field) : option string :=
  match value with
  | Some (FText s) => Some s
  | _ => None
  end.

(** [details[name]] *)
Definition prop (name : string) (details : Details) : option Field :=
  JsMap.get name details.

End DetailsShape.

(** ** Command-line arguments ([parseArgs] of the three entry points)

    [args] is [process.argv.slice(2)]. *)

Module Args.

(** *** The fund entry point (lines 31-37) *)

Record Flags : Type := mkFlags { includeTier2 : bool; enableScreenshots : bool }.

(** [args.includes(flag)] *)
Definition includes_arg (args : list string) (flag : string) : bool :=
  existsb (String.eqb flag) args.

Definition parseFlags (args : list string) : Flags :=
  mkFlags (includes_arg args "--tier2" || includes_arg args "-t2")
          (includes_arg args "--screenshots" || includes_arg args "-s").

(** *** [parseInt(text, 10)]

    Leading white space is skipped, one sign is read, then the longest run
    of decimal digits; the value is the binary64 number nearest to the
    integer they write.  [None] is [NaN]: there is no digit to read. *)

Fixpoint trimStart (text : string) : string :=
  match text with
  | String c rest => if Amount.is_space c then trimStart rest else text
  | EmptyString => EmptyString
  end.

Definition parseInt (text : string) : option Amount.double :=
  let s := trimStart text in
  let '(negative, unsigned) :=
    match s with
    | String "-"%char rest => (true, rest)
    | String "+"%char rest => (false, rest)
    | _ => (false, s)
    end in
  match fst (Amount.span Amount.is_digit unsigned) with
  | EmptyString => None
  | digits =>
      let magnitude := Amount.decimal_to_double (Amount.digits_value 0 digits) 0 in
      Some (if negative then SFopp magnitude else magnitude)
  end.

(** [parsed > 0] *)
Definition positive (parsed : Amount.double) : bool :=
  SFltb (S754_zero false) parsed.

Definition is_limit_flag (arg : string) : bool :=
  String.eqb arg "--limit" || String.eqb arg "-l".

(** *** The funding-rounds entry point ([src/funding-rounds.js], lines
    28-43)

    The loop of [parseArgs] over what is left of [args], with the value of
    [limit] so far.  When an argument is a limit flag and a non-empty
    argument follows it, that argument is read as the number and is
    skipped, whether or not it gave a number. *)
Fixpoint scan (args : list string) (limit : Amount.double) : Amount.double :=
  match args with
  | [] => limit
  | arg :: rest =>
      match rest with
      | next :: after =>
          if is_limit_flag arg && truthy (Some next) then
            scan after
              (match parseInt next with
               | Some parsed => if positive parsed then parsed else limit
               | None => limit
               end)
          else scan rest limit
      | [] => limit
      end
  end.

Definition DEFAULT_LIMIT : Amount.double := Amount.double_of_Z 200.

Definition parseArgs (args : list string) : Amount.double :=
  scan args DEFAULT_LIMIT.

(** *** The project-details entry point (lines 28-43): the same loop,
    with [limit] starting from [null]. *)
Fixpoint scan_nullable (args : list string) (limit : option Amount.double)
    : option Amount.double :=
  match args with
  | [] => limit
  | arg :: rest =>
      match rest with
      | next :: after =>
          if is_limit_flag arg && truthy (Some next) then
            scan_nullable after
              (match parseInt next with
               | Some parsed => if positive parsed then Some parsed else limit
               | None => limit
               end)
          else scan_nullable rest limit
      | [] => limit
      end
  end.

Definition parseArgs_nullable (args : list string) : option Amount.double :=
  scan_nullable args None.

End Args.

(** ** The project-details entry point with a cache
    ([src/project-details.js])

    [extractUniqueProjects] and [saveResults] are the functions of the
    version without a cache; [loadCachedDetails] and [main] are new. *)

Module ProjectMainCached.

Definition OUTPUT_FILE : string := ProjectMain.OUTPUT_FILE.
Definition DELAY_BETWEEN_PROJECTS_MS : Z := 2000.

(** The body of the loop of [loadCachedDetails] (lines 41-50): a round
    with a truthy [projectKey], a [details] object and no truthy
    [detailsError] puts [{ details, error: null }] under its key. *)
Definition cache_step (cache : JsMap.t ProjectResult.t) (round : EnrichedRound.t)
    : JsMap.t ProjectResult.t :=
  match Round.projectKey (EnrichedRound.round round), EnrichedRound.details round with
  | Some key, Some details =>
      if truthy (Some key) && negb (truthy (EnrichedRound.detailsError round))
      then JsMap.set key (ProjectResult.mk (Some details) None) cache
      else cache
  | _, _ => cache
  end.

(** [loadCachedDetails()] (lines 29-56), given the state of the output
    file: a missing file, a file that cannot be parsed and a document
    without a [data] array all give the empty object. *)
Definition loadCachedDetails (stored : Stored DetailedResultSet.t)
    : JsMap.t ProjectResult.t :=
  match stored with
  | Holding data => foldl cache_step JsMap.empty (DetailedResultSet.data data)
  | _ => JsMap.empty
  end.

(** [projectDetails] is a plain object ([const cache = {}]), so a read
    [projectDetails[key]] is answered by an entry of the object or else by
    its prototype.  These are the names of the properties of
    [Object.prototype]; what it holds under each of them is a function,
    and under "__proto__" the prototype itself: all of them truthy. *)
Definition OBJECT_PROTOTYPE : list string :=
  ["constructor"; "__defineGetter__"; "__defineSetter__"; "hasOwnProperty";
   "__lookupGetter__"; "__lookupSetter__"; "isPrototypeOf";
   "propertyIsEnumerable"; "toString"; "valueOf"; "__proto__";
   "toLocaleString"].

(** Whether [projectDetails[key]] is truthy: an entry is an object. *)
Definition answers (key : string) (projectDetails : JsMap.t ProjectResult.t)
    : bool :=
  JsMap.has key projectDetails || bool_decide (key ∈ OBJECT_PROTOTYPE).

(** An assignment [cache["__proto__"] = ...] stores no entry: it replaces
    the prototype of the object.  The map is the object as long as no
    entry is put under that name; the properties that rest on what the
    object answers take this as a premise.  ([main] itself never assigns
    under the name, which the prototype answers.) *)
Definition plain (projectDetails : JsMap.t ProjectResult.t) : Prop :=
  JsMap.has "__proto__" projectDetails = false.

Section Run.
Variable connectOk : bool.
Variable fetch : nat -> string -> Outcome RawDetails.t.
Variable now : nat -> Z.
Variable writeOk : nat -> bool.
Variable maxRetries : nat.
Variable limit : option nat.

Definition clock (w : World) : Z := now (length (trace w)).

(** The loop of step 5 from index [i] on, over what is left of
    [projectsToScrape]; [total] is the length of [projectsToScrape] and
    [totalProjects] the length of [projects]. *)
Fixpoint scrape_from (todo : list Project.t) (i total totalProjects : nat)
    (data : list Round.t) (startTime : Z) (p : ProjectMain.Progress) (w : World)
    : ProjectMain.Progress * World :=
  match todo with
  | [] => (p, w)
  | project :: later =>
      let key := Project.projectKey project in
      let w1 := emit (EvUnit (TProject key)) w in
      let '(result, w2) :=
        ProjectScraper.scrapeProject fetch now maxRetries key w1 in
      let failed := truthy (ProjectResult.error result) in
      let p' :=
        ProjectMain.mkProgress
          (JsMap.set key result (ProjectMain.projectDetails p))
          (if failed then ProjectMain.successCount p
           else S (ProjectMain.successCount p))
          (if failed then S (ProjectMain.failCount p)
           else ProjectMain.failCount p) in
      let '(_, w3) :=
        ProjectMain.saveResults now writeOk data (ProjectMain.projectDetails p')
          totalProjects (ProjectMain.successCount p') (ProjectMain.failCount p')
          startTime true w2 in
      let w4 :=
        if Z.ltb (Z.of_nat i) (Z.of_nat total - 1)
        then emit (EvThrottle DELAY_BETWEEN_PROJECTS_MS) w3 else w3 in
      scrape_from later (S i) total totalProjects data startTime p' w4
  end.

(** [projects.filter(p => !projectDetails[p.projectKey])] *)
Definition projectsToScrape (projects : list Project.t)
    (projectDetails : JsMap.t ProjectResult.t) : list Project.t :=
  List.filter (fun p => negb (answers (Project.projectKey p) projectDetails))
              projects.

(** The projects a run has to scrape: those of the input, within the
    limit, for which the cache answers nothing; none when the input
    cannot be read. *)
Definition toScrape (w : World) : list Project.t :=
  match Files.rounds (files w) with
  | Holding fundingData =>
      projectsToScrape
        (ProjectMain.apply_limit limit
           (Extract.extractUniqueProjects (RoundsResultSet.data fundingData)))
        (loadCachedDetails (Files.detailed (files w)))
  | _ => []
  end.

(** The number of units of work of a run. *)
Definition units (w : World) : nat :=
  if connectOk then length (toScrape w) else 0.

Definition main (w : World) : Exit * World :=
  let startTime := clock w in
  match Files.rounds (files w) with
  | Holding fundingData =>
      let data := RoundsResultSet.data fundingData in
      let projects :=
        ProjectMain.apply_limit limit (Extract.extractUniqueProjects data) in
      let projectDetails := loadCachedDetails (Files.detailed (files w)) in
      let cachedCount := JsMap.size projectDetails in
      let todo := projectsToScrape projects projectDetails in
      let scraping := Nat.ltb 0 (length todo) in
      if scraping && negb connectOk then (Failed, emit (EvConnect false) w)
      else
        let w1 := if scraping then emit (EvConnect true) w else w in
        let '(p, w2) :=
          scrape_from todo 0 (length todo) (length projects) data startTime
            (ProjectMain.mkProgress projectDetails cachedCount 0) w1 in
        let w3 := if scraping then emit EvDisconnect w2 else w2 in
        let '(ok, w4) :=
          ProjectMain.saveResults now writeOk data (ProjectMain.projectDetails p)
            (length projects) (ProjectMain.successCount p)
            (ProjectMain.failCount p) startTime false w3 in
        if ok then (Completed, w4) else (Failed, w4)
  | _ => (Failed, w)
  end.

End Run.
End ProjectMainCached.

(** *** Vocabulary of the properties of the cache *)

Module CachedShape.

(** The test of the loop of [loadCachedDetails] on a round of the file. *)
Definition qualifies (round : EnrichedRound.t) : bool :=
  truthy (Round.projectKey (EnrichedRound.round round)) &&
  match EnrichedRound.details round with Some _ => true | None => false end &&
  negb (truthy (EnrichedRound.detailsError round)).

(** What the cache holds for a round that qualifies. *)
Definition cached_result (round : EnrichedRound.t) : ProjectResult.t :=
  ProjectResult.mk (EnrichedRound.details round) None.

(** The rounds of the file that qualify and carry the key [k]. *)
Definition qualifying (k : string) (rounds : list EnrichedRound.t)
    : list EnrichedRound.t :=
  List.filter
    (fun round =>
       qualifies round &&
       bool_decide (Round.projectKey (EnrichedRound.round round) = Some k))
    rounds.

(** The units of work a trace opens, and the targets it fetches, in the
    order of the trace. *)
Definition units_of (events : list Event) : list Target :=
  omap (fun e => match e with EvUnit target => Some target | _ => None end)
       events.

Definition fetched (events : list Event) : list Target :=
  omap (fun e => match e with EvAttempt target _ => Some target | _ => None end)
       events.

(** The unit of work of a project. *)
Definition unit_of (project : Project.t) : Target :=
  TProject (Project.projectKey project).

End CachedShape.

(** ** Test data subsets ([src/generate-test-data.js])

    [main] reads the detailed file, lists the first round of every
    project, and for each count of [SUBSETS] writes the rounds of the
    first [count] projects to a file of its own.  Creating the output
    directory is taken to succeed. *)

Module TestData.

Definition SUBSETS : list nat := [2; 3; 5; 10].

(** [round.projectKey] of a round of the detailed file *)
Definition projectKey (round : EnrichedRound.t) : option string :=
  Round.projectKey (EnrichedRound.round round).

(** The loop that fills [uniqueProjects]: the rounds themselves are
    pushed. *)
Fixpoint loop (rounds : list EnrichedRound.t) (seen : gset string)
    (uniqueProjects : list EnrichedRound.t) : list EnrichedRound.t :=
  match rounds with
  | [] => uniqueProjects
  | round :: rest =>
      match projectKey round with
      | Some k =>
          if negb (String.eqb k "") && negb (bool_decide (k ∈ seen))
          then loop rest ({[k]} ∪ seen) (uniqueProjects ++ [round])
          else loop rest seen uniqueProjects
      | None => loop rest seen uniqueProjects
      end
  end.

Definition uniqueProjects (data : list EnrichedRound.t) : list EnrichedRound.t :=
  loop data ∅ [].

(** A value of a [Set] built from [projectKey] properties: a string, or
    [undefined]/[null]. *)
Definition subsetKeys (subset : list EnrichedRound.t) : list (option string) :=
  projectKey <$> subset.

(** [data.data.filter(round => subsetKeys.has(round.projectKey))] *)
Definition filteredRounds (data : list EnrichedRound.t)
    (keys : list (option string)) : list EnrichedRound.t :=
  List.filter (fun round => bool_decide (projectKey round ∈ keys)) data.

(** The metadata of a subset: that of the input with [generatedAt]
    replaced and three properties added. *)
Module Metadata.
Record t : Type := mk {
  inherited : DetailedMetadata.t;
  generatedAt : Z;
  testSubset : bool;
  projectCount : nat;
  totalRounds : nat
}.
End Metadata.

Module Output.
Record t : Type := mk { metadata : Metadata.t; data : list EnrichedRound.t }.
End Output.

(** The document written for [count], when [count] projects exist. *)
Definition subset_document (input : DetailedResultSet.t) (generatedAt : Z)
    (count : nat) : option Output.t :=
  let unique := uniqueProjects (DetailedResultSet.data input) in
  if Nat.ltb (length unique) count then None
  else
    let subset := take count unique in
    let rounds := filteredRounds (DetailedResultSet.data input) (subsetKeys subset) in
    Some (Output.mk
            (Metadata.mk (DetailedResultSet.metadata input) generatedAt true count
               (length rounds))
            rounds).

Section Run.
(** The clock and the outcome of a [writeFile], after a number of files
    were written. *)
Variable now : nat -> Z.
Variable writeOk : nat -> bool.

(** The loop over [SUBSETS], with the files written so far, each under
    the count its name carries.  A [writeFile] that throws ends [main]. *)
Fixpoint write_subsets (counts : list nat) (input : DetailedResultSet.t)
    (written : list (nat * Output.t)) : list (nat * Output.t) :=
  match counts with
  | [] => written
  | count :: later =>
      match subset_document input (now (length written)) count with
      | None => write_subsets later input written
      | Some output =>
          if writeOk (length written)
          then write_subsets later input (written ++ [(count, output)])
          else written
      end
  end.

(** [main], given the state of the input file: the files it writes. *)
Definition main (stored : Stored DetailedResultSet.t) : list (nat * Output.t) :=
  match stored with
  | Holding input => write_subsets SUBSETS input []
  | _ => []
  end.

End Run.

(** The truthy key of a round, if it has one. *)
Definition key_of (round : EnrichedRound.t) : option string :=
  or_null (projectKey round).

(** The distinct truthy keys of a list of rounds. *)
Definition distinct_keys (rounds : list EnrichedRound.t) : gset string :=
  list_to_set (omap key_of rounds).

End TestData.

(** ** More sample runs *)

Module SampleRuns.

(** A comparator that orders names consistently: by length. *)
Definition by_length (a b : string) : Z :=
  (Z.of_nat (String.length a) - Z.of_nat (String.length b))%Z.

(** A run of the fund entry point over two funds; the first call of the
    browser times out. *)
Definition fund_run (localeCompare : string -> string -> Z) : Exit * World :=
  FundMain.main localeCompare (Some [Sample.alpha; Sample.beta]) true
    Sample.fails_once Sample.now Sample.writeOk 3 false false Sample.start.

(** The same run on a disk that takes the two saves of the loop and
    refuses the final write. *)
Definition final_write_fails (t : nat) : bool := Nat.ltb t 10.

Definition interrupted_fund_run : Exit * World :=
  FundMain.main Sample.localeCompare (Some [Sample.alpha; Sample.beta]) true
    Sample.fails_once Sample.now final_write_fails 3 false false Sample.start.

(** A run of the funding-rounds entry point over two pages. *)
Definition rounds_run : Exit * World :=
  RoundsMain.main true Sample.page_fails_once Sample.parseDateToISO Sample.now
    Sample.writeOk 3 40 Sample.start.

(** Two rounds of one project and one round without a project. *)
Definition seed : Round.t :=
  Round.mk Sample.a_row (Amount.parseRaiseAmount (Some "$5.5M"))
           (Some "2026-01-27") 4.

Definition series_a : Round.t :=
  Round.mk
    (Row.mk (Some "Alpha") (Some "alpha") (Some "https://cryptorank.io/price/alpha")
            (Some "https://cryptorank.io/ico/alpha") (Some "$20M")
            (Some "Series A") [] (Some "Mar 3, 2026") None)
    (Amount.parseRaiseAmount (Some "$20M")) (Some "2026-03-03") 4.

Definition nameless : Round.t :=
  Round.mk (Row.mk None None None None (Some "$1M") None [] None None)
           (Amount.parseRaiseAmount (Some "$1M")) None 4.

Definition rounds_file : RoundsResultSet.t :=
  RoundsResultSet.mk
    (RoundsMetadata.mk 9 "cryptorank.io/funding-rounds" 3 200 1 false 9)
    [seed; nameless; series_a].

Definition with_rounds : World :=
  mkWorld 0 (Files.mk Absent Absent (Holding rounds_file) Absent) [].

(** The texts of a project page. *)
Definition alpha_page : RawDetails.t :=
  RawDetails.mk (Some "A project") (Some "https://alpha.io") None None None None
    None (Some "ALP") (Some "$1.50") (Some "$3.2M") None (Some "10B") None
    ["DeFi"] None None None.

Definition reads_page (n : nat) (key : string) : Outcome RawDetails.t :=
  Extracted alpha_page.

(** A run of the project-details entry point without a cache, and two
    runs, one after the other, of the one with a cache. *)
Definition project_run : Exit * World :=
  ProjectMain.main true reads_page Sample.now Sample.writeOk 3 None with_rounds.

Definition cached_run (w : World) : Exit * World :=
  ProjectMainCached.main true reads_page Sample.now Sample.writeOk 3 None w.

(** A detailed file with the rounds of two projects. *)
Definition beta_round : Round.t :=
  Round.mk
    (Row.mk (Some "Beta") (Some "beta") (Some "https://cryptorank.io/price/beta")
            (Some "https://cryptorank.io/ico/beta") (Some "$2M") (Some "Seed") []
            (Some "Feb 1, 2026") None)
    (Amount.parseRaiseAmount (Some "$2M")) (Some "2026-02-01") 4.

Definition detailed_file : DetailedResultSet.t :=
  DetailedResultSet.mk
    (DetailedMetadata.mk 9 "cryptorank.io/ico" 2 0 2 false 9)
    [EnrichedRound.mk seed None (Some "timeout");
     EnrichedRound.mk beta_round None (Some "timeout");
     EnrichedRound.mk nameless None None;
     EnrichedRound.mk series_a None (Some "timeout")].

(** The rounds of three projects, one of them with the key "constructor",
    and a detailed file of an earlier run in which only "alpha" got its
    details. *)
Definition odd_round : Round.t :=
  Round.mk
    (Row.mk (Some "Constructor") (Some "constructor")
            (Some "https://cryptorank.io/price/constructor")
            (Some "https://cryptorank.io/ico/constructor") (Some "$3M")
            (Some "Seed") [] (Some "Feb 2, 2026") None)
    (Amount.parseRaiseAmount (Some "$3M")) (Some "2026-02-02") 4.

Definition three_projects : RoundsResultSet.t :=
  RoundsResultSet.mk
    (RoundsMetadata.mk 9 "cryptorank.io/funding-rounds" 4 200 1 false 9)
    [seed; odd_round; beta_round; series_a].

Definition alpha_done : DetailedResultSet.t :=
  DetailedResultSet.mk
    (DetailedMetadata.mk 9 "cryptorank.io/ico" 3 1 1 true 9)
    [EnrichedRound.mk seed (Some [("description", FText "A project")]) None;
     EnrichedRound.mk odd_round None None;
     EnrichedRound.mk beta_round None (Some "timeout");
     EnrichedRound.mk series_a (Some [("description", FText "A project")]) None].

Definition half_done : World :=
  mkWorld 0
    (Files.mk Absent Absent (Holding three_projects) (Holding alpha_done)) [].

Definition test_files : list (nat * TestData.Output.t) :=
  TestData.main Sample.now Sample.writeOk (Holding detailed_file).

End SampleRuns.

(** * Part II: properties *)

(** ** Truthiness *)

Lemma truthy_Some (s : string) : truthy (Some s) = true <-> s <> "".
Proof.
  unfold truthy. destruct (String.eqb_spec s ""); simpl; split; congruence.
Qed.

Lemma or_null_truthy (v : option string) : truthy v = true -> or_null v = v.
Proof. unfold or_null. now intros ->. Qed.

Lemma or_null_falsy (v : option string) : truthy v = false -> or_null v = None.
Proof. unfold or_null. now intros ->. Qed.

Lemma or_default_nonempty (s d : string) : s <> "" -> or_default (Some s) d = s.
Proof.
  intros H. unfold or_default. destruct (String.eqb_spec s ""); congruence.
Qed.

(** ** Properties of [parseRaiseAmount] *)

Module AmountFacts.
Import Amount.

Lemma span_app (p : ascii -> bool) (s : string) :
  s = fst (span p s) +:+ snd (span p s).
Proof.
  induction s as [|c s IH]; simpl; [reflexivity|].
  destruct (p c); [|reflexivity].
  destruct (span p s) as [a b]; simpl in *. now rewrite IH at 1.
Qed.

Lemma span_all (p : ascii -> bool) (s : string) :
  all_units p (fst (span p s)) = true.
Proof.
  induction s as [|c s IH]; simpl; [reflexivity|].
  destruct (p c) eqn:E; [|reflexivity].
  destruct (span p s) as [a b]; simpl in *. now rewrite E.
Qed.

Lemma span_stop (p : ascii -> bool) (s : string) :
  match snd (span p s) with
  | EmptyString => True
  | String c _ => p c = false
  end.
Proof.
  induction s as [|c s IH]; simpl; [exact I|].
  destruct (p c) eqn:E; [|exact E].
  now destruct (span p s) as [a b].
Qed.

(** [span] finds the only way to cut [s] into a part satisfying [p] and a
    rest that is empty or starts with a unit failing [p]. *)
Lemma span_unique (p : ascii -> bool) (a b : string) :
  all_units p a = true ->
  match b with EmptyString => True | String c _ => p c = false end ->
  span p (a +:+ b) = (a, b).
Proof.
  intros Ha Hb. induction a as [|c a IH]; simpl in *.
  - destruct b as [|c b]; simpl; [reflexivity|]. now rewrite Hb.
  - apply andb_prop in Ha as [Hc Ha]. rewrite Hc, (IH Ha). reflexivity.
Qed.

Lemma suffix_not_digit_or_dot (c : ascii) :
  is_suffix c = true -> is_digit_or_dot c = false.
Proof.
  unfold is_suffix, is_digit_or_dot, is_digit.
  destruct (Nat.eqb_spec (code c) 75) as [->|_]; [reflexivity|].
  destruct (Nat.eqb_spec (code c) 77) as [->|_]; [reflexivity|].
  destruct (Nat.eqb_spec (code c) 66) as [->|_]; [reflexivity|].
  discriminate.
Qed.

Lemma is_suffix_cases (c : ascii) :
  is_suffix c = true <-> c = "K"%char \/ c = "M"%char \/ c = "B"%char.
Proof.
  split.
  - unfold is_suffix, code. intros H.
    apply orb_prop in H as [H|H]; [apply orb_prop in H as [H|H]|];
      apply Nat.eqb_eq in H;
      apply (f_equal ascii_of_nat) in H; rewrite ascii_nat_embedding in H;
      subst c; auto.
  - intros [->|[->| ->]]; reflexivity.
Qed.

Lemma splits_match (c text suffix : string) :
  splits c text suffix ->
  exists sfx, match_amount c = Some (text, sfx) /\ suffix_text sfx = suffix.
Proof.
  intros (-> & Hne & Hall & Hs).
  unfold match_amount.
  assert (Hb : match suffix with
               | EmptyString => True
               | String ch _ => is_digit_or_dot ch = false
               end).
  { destruct Hs as [->|[->|[->| ->]]]; simpl; auto. }
  rewrite (span_unique _ _ _ Hall Hb).
  destruct text as [|t text]; [congruence|].
  destruct Hs as [->|[->|[->| ->]]].
  - exists None. auto.
  - exists (Some "K"%char). auto.
  - exists (Some "M"%char). auto.
  - exists (Some "B"%char). auto.
Qed.

Lemma match_splits (c text : string) (sfx : option ascii) :
  match_amount c = Some (text, sfx) -> splits c text (suffix_text sfx).
Proof.
  unfold match_amount.
  pose proof (span_app is_digit_or_dot c) as Happ.
  pose proof (span_all is_digit_or_dot c) as Hall.
  destruct (span is_digit_or_dot c) as [body rest]; simpl in *.
  destruct body as [|b body]; [discriminate|].
  destruct rest as [|r rest].
  - intros [= <- <-]. unfold splits.
    split; [exact Happ|]. split; [discriminate|]. split; [exact Hall|].
    left; reflexivity.
  - destruct rest; [|discriminate].
    destruct (is_suffix r) eqn:Er; [|discriminate].
    intros [= <- <-]. unfold splits.
    split; [exact Happ|]. split; [discriminate|]. split; [exact Hall|].
    apply is_suffix_cases in Er as [->|[->| ->]]; simpl; auto.
Qed.

Lemma match_None (c : string) :
  match_amount c = None <-> ~ matches_pattern c.
Proof.
  split.
  - intros H (text & suffix & Hs).
    apply splits_match in Hs as (sfx & Hm & _). congruence.
  - intros H. destruct (match_amount c) as [[text sfx]|] eqn:E; [|reflexivity].
    exfalso. apply H. exists text, (suffix_text sfx). now apply match_splits.
Qed.

Lemma splits_unique (c t1 s1 t2 s2 : string) :
  splits c t1 s1 -> splits c t2 s2 -> t1 = t2 /\ s1 = s2.
Proof.
  intros H1 H2.
  apply splits_match in H1 as (x1 & E1 & <-).
  apply splits_match in H2 as (x2 & E2 & <-).
  rewrite E1 in E2. injection E2 as -> ->. auto.
Qed.

Lemma span_digit_head (text : string) :
  fst (span is_digit text) = EmptyString <->
  match text with EmptyString => True | String c _ => is_digit c = false end.
Proof.
  destruct text as [|c text]; simpl; [tauto|].
  destruct (is_digit c); [|tauto].
  destruct (span is_digit text). simpl. split; discriminate.
Qed.

Lemma parseFloat_None (text : string) :
  all_units is_digit_or_dot text = true ->
  parseFloat text = None <-> has_leading_number text = false.
Proof.
  intros Hall. unfold parseFloat.
  destruct text as [|c text]; simpl; [tauto|].
  simpl in Hall. apply andb_prop in Hall as [Hc Hall].
  destruct (is_digit c) eqn:Ed; simpl.
  - destruct (span is_digit text) as [a b].
    split; [|discriminate].
    destruct b as [|d b]; [discriminate|].
    destruct (Ascii.eqb_spec d "."%char) as [->|Hd].
    + destruct (fst (span is_digit b)); discriminate.
    + destruct d as [[] [] [] [] [] [] [] []]; try discriminate; congruence.
  - unfold is_digit_or_dot in Hc. rewrite Ed in Hc. simpl in Hc.
    apply Nat.eqb_eq in Hc. rewrite Hc. simpl.
    assert (c = "."%char) as ->.
    { unfold code in Hc. apply (f_equal ascii_of_nat) in Hc.
      now rewrite ascii_nat_embedding in Hc. }
    destruct text as [|d text]; simpl; [tauto|].
    destruct (is_digit d); [|tauto].
    destruct (span is_digit text). simpl. split; discriminate.
Qed.

Lemma multiplier_scale (num : double) (sfx : option ascii) :
  (sfx = None \/ exists c, sfx = Some c /\ is_suffix c = true) ->
  match multiplier sfx with
  | Some factor => mul num (double_of_Z factor)
  | None => num
  end = scale num (suffix_text sfx).
Proof.
  intros [->|(c & -> & Hc)]; [reflexivity|].
  apply is_suffix_cases in Hc as [->|[->| ->]]; reflexivity.
Qed.

Lemma match_suffix_ok (c text : string) (sfx : option ascii) :
  match_amount c = Some (text, sfx) ->
  sfx = None \/ exists ch, sfx = Some ch /\ is_suffix ch = true.
Proof.
  unfold match_amount.
  destruct (span is_digit_or_dot c) as [body rest].
  destruct body; [discriminate|].
  destruct rest as [|r rest]; [intros [= <- <-]; auto|].
  destruct rest; [|discriminate].
  destruct (is_suffix r) eqn:E; [|discriminate].
  intros [= <- <-]. right. eauto.
Qed.

Lemma is_sentinel_iff (s : string) :
  is_sentinel s = true <-> s = "" \/ s = "-" \/ s = "N/A".
Proof.
  unfold is_sentinel.
  destruct (String.eqb_spec s ""); [simpl; tauto|].
  destruct (String.eqb_spec s "-"); [simpl; tauto|].
  destruct (String.eqb_spec s "N/A"); simpl; [tauto|].
  split; [discriminate|]. intros [?|[?|?]]; contradiction.
Qed.

(** The example of the claim: "$5.5M" is 5500000. *)
Example parseRaiseAmount_5_5M :
  parseRaiseAmount (Some "$5.5M") = Some (double_of_Z 5500000).
Proof. reflexivity. Qed.

(** C9, counterexample.  The string "." is not empty, not "-" and not
    "N/A", and with "$", commas and whitespace removed it matches
    digits-and-dots with no suffix; the claim as stated promises a number,
    but [parseFloat(".")] is [NaN] and the function returns [null]. *)
Lemma parseRaiseAmount_lone_dot_is_null :
  ("." <> "" /\ "." <> "-" /\ "." <> "N/A") /\
  matches_pattern (cleaned ".") /\
  parseRaiseAmount (Some ".") = None.
Proof.
  split; [repeat split; discriminate|].
  split; [|reflexivity].
  exists ".", "". unfold splits. simpl.
  split; [reflexivity|]. split; [discriminate|]. split; [reflexivity|].
  left; reflexivity.
Qed.

(** C9, as amended.  [parseRaiseAmount s] is [null] exactly when [s] is
    empty, "-" or "N/A", or [s] with "$", commas and whitespace removed
    (upper-cased) is not digits-and-dots optionally followed by one of K,
    M, B, or those digits-and-dots have no leading number (they start with
    a dot that no digit follows).  In every other case it returns the
    parsed leading number, multiplied by 1000 for K, 1000000 for M,
    1000000000 for B, and as it is with no suffix. *)
Theorem parseRaiseAmount_spec (s : string) :
  (parseRaiseAmount (Some s) = None <->
     (s = "" \/ s = "-" \/ s = "N/A") \/
     ~ matches_pattern (cleaned s) \/
     exists text suffix,
       splits (cleaned s) text suffix /\ has_leading_number text = false) /\
  (forall text suffix,
     ~ (s = "" \/ s = "-" \/ s = "N/A") ->
     splits (cleaned s) text suffix ->
     has_leading_number text = true ->
     exists num,
       parseFloat text = Some num /\
       parseRaiseAmount (Some s) = Some (scale num suffix)).
Proof.
  assert (Hsome : forall text suffix,
     ~ (s = "" \/ s = "-" \/ s = "N/A") ->
     splits (cleaned s) text suffix ->
     has_leading_number text = true ->
     exists num,
       parseFloat text = Some num /\
       parseRaiseAmount (Some s) = Some (scale num suffix)).
  { intros text suffix Hs Hsp Hlead.
    assert (Hsent : is_sentinel s = false).
    { destruct (is_sentinel s) eqn:E; [|reflexivity].
      apply is_sentinel_iff in E. contradiction. }
    pose proof Hsp as (_ & _ & Hall & _).
    destruct (parseFloat text) as [num|] eqn:Epf.
    2:{ apply parseFloat_None in Epf; [congruence|exact Hall]. }
    exists num. split; [reflexivity|].
    apply splits_match in Hsp as (sfx & Hm & <-).
    unfold parseRaiseAmount. rewrite Hsent.
    fold (cleaned s). unfold parse_cleaned. rewrite Hm, Epf.
    rewrite <- (multiplier_scale num sfx) by (eapply match_suffix_ok; eauto).
    now destruct (multiplier sfx). }
  split; [|exact Hsome].
  split.
  - intros Hnone.
    destruct (is_sentinel s) eqn:Hsent.
    { left. now apply is_sentinel_iff. }
    right.
    destruct (match_amount (cleaned s)) as [[text sfx]|] eqn:Hm.
    2:{ left. now apply match_None. }
    right. exists text, (suffix_text sfx).
    pose proof (match_splits _ _ _ Hm) as Hsp.
    split; [exact Hsp|].
    destruct (has_leading_number text) eqn:Hlead; [|reflexivity].
    exfalso.
    destruct (Hsome text (suffix_text sfx)) as (num & _ & Hr); auto.
    + intros H. apply is_sentinel_iff in H. congruence.
    + congruence.
  - intros [Hs|[Hn|(text & suffix & Hsp & Hlead)]].
    + apply is_sentinel_iff in Hs. unfold parseRaiseAmount. now rewrite Hs.
    + apply match_None in Hn. unfold parseRaiseAmount.
      destruct (is_sentinel s); [reflexivity|].
      fold (cleaned s). unfold parse_cleaned. now rewrite Hn.
    + pose proof Hsp as (_ & _ & Hall & _).
      apply splits_match in Hsp as (sfx & Hm & _).
      apply parseFloat_None in Hlead; [|exact Hall].
      unfold parseRaiseAmount.
      destruct (is_sentinel s); [reflexivity|].
      fold (cleaned s). unfold parse_cleaned. now rewrite Hm, Hlead.
Qed.

Lemma parseRaiseAmount_spec_witness :
  exists num,
    parseFloat "5.5" = Some num /\
    parseRaiseAmount (Some "$5.5M") = Some (scale num "M").
Proof.
  apply (proj2 (parseRaiseAmount_spec "$5.5M") "5.5" "M").
  - intros [H|[H|H]]; discriminate H.
  - unfold splits. simpl.
    split; [reflexivity|]. split; [discriminate|]. split; [reflexivity|].
    right; right; left; reflexivity.
  - reflexivity.
Defined.

End AmountFacts.

(** ** Properties of [extractUniqueProjects] *)

Module ExtractFacts.
Import Extract.

Lemma loop_app (rounds : list Round.t) (seen : gset string) (projects : list Project.t) :
  loop rounds seen projects = projects ++ loop rounds seen [].
Proof.
  revert seen projects.
  induction rounds as [|round rest IH]; intros seen projects; simpl.
  - now rewrite app_nil_r.
  - destruct (Round.projectKey round) as [k|]; [|apply IH].
    destruct (negb (String.eqb k "") && negb (bool_decide (k ∈ seen))).
    + rewrite (IH _ (projects ++ _)), (IH _ [_]), <- app_assoc. reflexivity.
    + apply IH.
Qed.

(** The two ways an iteration can go: the round opens a new project, or it
    is passed over. *)
Lemma loop_cons (round : Round.t) (rest : list Round.t) (seen : gset string) :
  (exists k, Round.projectKey round = Some k /\ k <> "" /\ (k ∉ seen) /\
     loop (round :: rest) seen [] =
       project_of k round :: loop rest ({[k]} ∪ seen) []) \/
  ((forall k, Round.projectKey round = Some k -> k = "" \/ k ∈ seen) /\
     loop (round :: rest) seen [] = loop rest seen []).
Proof.
  simpl. destruct (Round.projectKey round) as [k|]; [|right; split; [discriminate|reflexivity]].
  destruct (String.eqb_spec k ""); simpl.
  { right. split; [|reflexivity]. intros ? [= <-]. auto. }
  destruct (bool_decide_reflect (k ∈ seen)); simpl.
  { right. split; [|reflexivity]. intros ? [= <-]. auto. }
  left. exists k. rewrite loop_app. simpl. auto.
Qed.

Lemma not_seen_after (k k' : string) (seen : gset string) :
  k' ∉ {[k]} ∪ seen -> k' <> k /\ k' ∉ seen.
Proof.
  intros H. split.
  - intros ->. apply H. apply elem_of_union. left. now apply elem_of_singleton.
  - intros Hin. apply H. apply elem_of_union. now right.
Qed.

Lemma not_seen_before (k k' : string) (seen : gset string) :
  k' <> k -> k' ∉ seen -> k' ∉ {[k]} ∪ seen.
Proof.
  intros Hne Hns Hin. apply elem_of_union in Hin as [Hin|Hin]; [|contradiction].
  apply elem_of_singleton in Hin. contradiction.
Qed.

Lemma first_index_skip (k : string) (round : Round.t) (rest : list Round.t) :
  Round.projectKey round <> Some k ->
  first_index k (round :: rest) = S <$> first_index k rest.
Proof.
  intros H. simpl. now rewrite bool_decide_eq_false_2.
Qed.

Lemma first_index_here (k : string) (round : Round.t) (rest : list Round.t) :
  Round.projectKey round = Some k -> first_index k (round :: rest) = Some 0.
Proof.
  intros H. simpl. now rewrite bool_decide_eq_true_2.
Qed.

(** Every project of the result was opened by the first round carrying its
    key, a non-empty key that was not in [seen]. *)
Lemma loop_sound (rounds : list Round.t) :
  forall (seen : gset string) (p : Project.t),
    p ∈ loop rounds seen [] ->
    (Project.projectKey p ∉ seen) /\ Project.projectKey p <> "" /\
    exists i round,
      first_index (Project.projectKey p) rounds = Some i /\
      rounds !! i = Some round /\
      p = project_of (Project.projectKey p) round.
Proof.
  induction rounds as [|round rest IH]; intros seen p Hp.
  - simpl in Hp. now apply elem_of_nil in Hp.
  - destruct (loop_cons round rest seen) as [(k & Hk & Hne & Hns & E)|[Hskip E]];
      rewrite E in Hp.
    + apply elem_of_cons in Hp as [->|Hp].
      * change (Project.projectKey (project_of k round)) with k.
        split; [exact Hns|]. split; [exact Hne|].
        exists 0, round. rewrite first_index_here by exact Hk. auto.
      * destruct (IH _ _ Hp) as (Hns' & Hne' & i & r & Hi & Hr & Hpr).
        apply not_seen_after in Hns' as [Hpk Hns'].
        split; [exact Hns'|]. split; [exact Hne'|].
        exists (S i), r. rewrite first_index_skip by congruence.
        rewrite Hi. auto.
    + destruct (IH _ _ Hp) as (Hns' & Hne' & i & r & Hi & Hr & Hpr).
      split; [exact Hns'|]. split; [exact Hne'|].
      exists (S i), r. rewrite first_index_skip, Hi; [auto|].
      intros Hk. destruct (Hskip _ Hk); contradiction.
Qed.

Lemma loop_complete (rounds : list Round.t) :
  forall (seen : gset string) (k : string) (round : Round.t),
    round ∈ rounds -> Round.projectKey round = Some k -> k <> "" -> k ∉ seen ->
    k ∈ (Project.projectKey <$> loop rounds seen []).
Proof.
  induction rounds as [|r0 rest IH]; intros seen k round Hin Hk Hne Hns.
  - now apply elem_of_nil in Hin.
  - destruct (loop_cons r0 rest seen) as [(k0 & Hk0 & Hne0 & Hns0 & E)|[Hskip E]];
      rewrite E.
    + rewrite fmap_cons. simpl. apply elem_of_cons.
      destruct (decide (k = k0)) as [->|Hkk]; [left; reflexivity|right].
      apply elem_of_cons in Hin as [->|Hin]; [congruence|].
      apply (IH _ _ round); auto. now apply not_seen_before.
    + apply elem_of_cons in Hin as [->|Hin].
      * destruct (Hskip _ Hk); contradiction.
      * apply (IH _ _ round); auto.
Qed.

Lemma loop_NoDup (rounds : list Round.t) :
  forall seen : gset string, NoDup (Project.projectKey <$> loop rounds seen []).
Proof.
  induction rounds as [|round rest IH]; intros seen.
  - simpl. constructor.
  - destruct (loop_cons round rest seen) as [(k & Hk & Hne & Hns & E)|[Hskip E]];
      rewrite E; [|apply IH].
    rewrite fmap_cons. simpl. apply NoDup_cons. split; [|apply IH].
    intros Hin. apply list_elem_of_fmap in Hin as (p & Hp & Hin).
    apply loop_sound in Hin as (Hns' & _).
    apply not_seen_after in Hns' as [Hpk _]. congruence.
Qed.

Lemma loop_order (rounds : list Round.t) :
  forall (seen : gset string) (a b : nat) (pa pb : Project.t) (ia ib : nat),
    loop rounds seen [] !! a = Some pa ->
    loop rounds seen [] !! b = Some pb ->
    first_index (Project.projectKey pa) rounds = Some ia ->
    first_index (Project.projectKey pb) rounds = Some ib ->
    a < b -> ia < ib.
Proof.
  induction rounds as [|round rest IH]; intros seen a b pa pb ia ib Ha Hb Hia Hib Hab.
  - simpl in Ha. now rewrite lookup_nil in Ha.
  - destruct (loop_cons round rest seen) as [(k & Hk & Hne & Hns & E)|[Hskip E]];
      rewrite E in Ha, Hb.
    + destruct b as [|b]; [lia|]. simpl in Hb.
      pose proof (list_elem_of_lookup_2 _ _ _ Hb) as Hinb.
      apply loop_sound in Hinb as (Hnsb & _).
      apply not_seen_after in Hnsb as [Hpbk _].
      rewrite first_index_skip in Hib by congruence.
      destruct (first_index (Project.projectKey pb) rest) as [jb|] eqn:Ejb;
        [|discriminate]. injection Hib as <-.
      destruct a as [|a].
      * injection Ha as <-.
        change (Project.projectKey (project_of k round)) with k in Hia.
        rewrite first_index_here in Hia by exact Hk. injection Hia as <-. lia.
      * simpl in Ha.
        pose proof (list_elem_of_lookup_2 _ _ _ Ha) as Hina.
        apply loop_sound in Hina as (Hnsa & _).
        apply not_seen_after in Hnsa as [Hpak _].
        rewrite first_index_skip in Hia by congruence.
        destruct (first_index (Project.projectKey pa) rest) as [ja|] eqn:Eja;
          [|discriminate]. injection Hia as <-.
        assert (ja < jb); [|lia].
        eapply (IH _ a b pa pb); eauto. lia.
    + pose proof (list_elem_of_lookup_2 _ _ _ Ha) as Hina.
      pose proof (list_elem_of_lookup_2 _ _ _ Hb) as Hinb.
      apply loop_sound in Hina as (Hnsa & Hnea & _).
      apply loop_sound in Hinb as (Hnsb & Hneb & _).
      rewrite first_index_skip in Hia, Hib;
        try (intros Hk; destruct (Hskip _ Hk); contradiction).
      destruct (first_index (Project.projectKey pa) rest) as [ja|] eqn:Eja;
        [|discriminate]. injection Hia as <-.
      destruct (first_index (Project.projectKey pb) rest) as [jb|] eqn:Ejb;
        [|discriminate]. injection Hib as <-.
      assert (ja < jb); [|lia].
      eapply (IH _ a b pa pb); eauto.
Qed.

(** Rounds without a key, with an empty key and with repeated keys. *)
Example extractUniqueProjects_sample :
  let round (k : option string) (n : string) :=
    Round.mk (Row.mk (Some n) k None None None None [] None None) None None 0 in
  extractUniqueProjects
    [round (Some "a") "1"; round None "2"; round (Some "") "3";
     round (Some "b") "4"; round (Some "a") "5"; round (Some "b") "6"]
  = [Project.mk "a" (Some "1") None; Project.mk "b" (Some "4") None].
Proof. reflexivity. Qed.

(** C10.  The result of [extractUniqueProjects] has one entry per distinct
    truthy [projectKey] of the input and none for any other key; each entry
    is built from the first round carrying its key; the entries are listed
    in the order of those first occurrences. *)
Theorem extractUniqueProjects_first_occurrences (fundingRounds : list Round.t) :
  let projects := extractUniqueProjects fundingRounds in
  NoDup (Project.projectKey <$> projects) /\
  (forall k : string,
     k ∈ (Project.projectKey <$> projects) <->
     k <> "" /\ exists round, round ∈ fundingRounds /\ Round.projectKey round = Some k) /\
  (forall p : Project.t,
     p ∈ projects ->
     exists i round,
       first_index (Project.projectKey p) fundingRounds = Some i /\
       fundingRounds !! i = Some round /\
       p = Project.mk (Project.projectKey p)
                      (Round.projectName round) (Round.projectUrl round)) /\
  (forall (a b : nat) (pa pb : Project.t) (ia ib : nat),
     projects !! a = Some pa -> projects !! b = Some pb ->
     first_index (Project.projectKey pa) fundingRounds = Some ia ->
     first_index (Project.projectKey pb) fundingRounds = Some ib ->
     a < b -> ia < ib).
Proof.
  unfold extractUniqueProjects. cbv zeta.
  split; [apply loop_NoDup|]. split; [|split].
  - intros k. split.
    + intros Hin. apply list_elem_of_fmap in Hin as (p & -> & Hin).
      apply loop_sound in Hin as (_ & Hne & i & round & Hi & Hr & Hp).
      split; [exact Hne|]. exists round. split.
      * eapply list_elem_of_lookup_2; eauto.
      * clear Hp. revert i Hi Hr.
        generalize (Project.projectKey p) as k. intros k.
        induction fundingRounds as [|r0 rest IH]; intros i Hi Hr; [discriminate|].
        simpl in Hi. destruct (bool_decide_reflect (Round.projectKey r0 = Some k)).
        -- injection Hi as <-. simpl in Hr. congruence.
        -- destruct (first_index k rest) as [j|] eqn:Ej; [|discriminate].
           injection Hi as <-. simpl in Hr. eapply IH; eauto.
    + intros (Hne & round & Hin & Hk).
      eapply loop_complete; eauto. apply not_elem_of_empty.
  - intros p Hp. apply loop_sound in Hp as (_ & _ & i & round & Hi & Hr & Hpr).
    exists i, round. auto.
  - intros a b pa pb ia ib. apply loop_order.
Qed.

End ExtractFacts.


(** ** Traces *)

Lemma retry_steps_app (l1 l2 : list Event) :
  retry_steps (l1 ++ l2) = retry_steps l1 ++ retry_steps l2.
Proof. apply omap_app. Qed.

Lemma unit_steps_app (l1 l2 : list Event) :
  unit_steps (l1 ++ l2) = unit_steps l1 ++ unit_steps l2.
Proof. apply omap_app. Qed.

Lemma attempts_apart_S (ms : Z) (n : nat) :
  0 < n -> attempts_apart ms (S n) = SAttempt :: SDelay ms :: attempts_apart ms n.
Proof. destruct n; [lia|reflexivity]. Qed.

Lemma units_apart_S (ms : Z) (n : nat) :
  0 < n -> units_apart ms (S n) = SUnit :: SThrottle ms :: units_apart ms n.
Proof. destruct n; [lia|reflexivity]. Qed.

Lemma attempts_apart_delays (ms : Z) (n : nat) :
  length (List.filter is_delay (attempts_apart ms n)) = n - 1.
Proof.
  induction n as [|n IH]; [reflexivity|].
  destruct n as [|n]; [reflexivity|].
  rewrite attempts_apart_S by lia.
  change (S (length (List.filter is_delay (attempts_apart ms (S n)))) = S (S n) - 1).
  rewrite IH. lia.
Qed.

Lemma units_apart_throttles (ms : Z) (n : nat) :
  length (List.filter is_throttle (units_apart ms n)) = n - 1.
Proof.
  induction n as [|n IH]; [reflexivity|].
  destruct n as [|n]; [reflexivity|].
  rewrite units_apart_S by lia.
  change (S (length (List.filter is_throttle (units_apart ms (S n)))) = S (S n) - 1).
  rewrite IH. lia.
Qed.

Lemma continues_refl (w : World) : continues w w [].
Proof. unfold continues. now rewrite app_nil_r. Qed.

Lemma continues_emit (w : World) (e : Event) : continues w (emit e w) [e].
Proof. reflexivity. Qed.

Lemma continues_trans (w1 w2 w3 : World) (l1 l2 : list Event) :
  continues w1 w2 l1 -> continues w2 w3 l2 -> continues w1 w3 (l1 ++ l2).
Proof. unfold continues. intros H1 H2. now rewrite H2, H1, app_assoc. Qed.

(** ** The fund scraper *)

Module FundScraperFacts.
Import FundScraper.

Section Facts.
Variable fetch : nat -> string -> Outcome Links.t.
Variable enableScreenshots : bool.
Variable maxRetries : nat.

Local Abbreviation saveScreenshot := (saveScreenshot enableScreenshots).
Local Abbreviation on_error := (on_error enableScreenshots maxRetries).
Local Abbreviation attempts := (attempts fetch enableScreenshots maxRetries).
Local Abbreviation scrapeFund := (scrapeFund fetch enableScreenshots maxRetries).

Lemma fund_saveScreenshot_steps (key status : string) (attempt : nat) (w : World) :
  exists events,
    continues w (saveScreenshot key status attempt w) events /\
    retry_steps events = [] /\ unit_steps events = [] /\
    calls (saveScreenshot key status attempt w) = calls w /\
    files (saveScreenshot key status attempt w) = files w.
Proof.
  unfold FundScraper.saveScreenshot. destruct enableScreenshots.
  - eexists. split; [apply continues_emit|]. auto.
  - exists []. split; [apply continues_refl|]. auto.
Qed.

Lemma fund_on_error_steps (key : string) (attempt : nat) (message : string)
    (pageOpen : bool) (w : World) :
  exists events,
    continues w (on_error key attempt message pageOpen w) events /\
    retry_steps events =
      (if Nat.ltb attempt maxRetries then [SDelay RETRY_DELAY_MS] else []) /\
    unit_steps events = [] /\
    calls (on_error key attempt message pageOpen w) = calls w /\
    files (on_error key attempt message pageOpen w) = files w.
Proof.
  unfold FundScraper.on_error.
  set (w1 := if pageOpen then _ else w).
  assert (H1 : exists e1, continues w w1 e1 /\ retry_steps e1 = [] /\
                          unit_steps e1 = [] /\
                          calls w1 = calls w /\ files w1 = files w).
  { subst w1. destruct pageOpen; [apply fund_saveScreenshot_steps|].
    exists []. split; [apply continues_refl|]. auto. }
  destruct H1 as (e1 & C1 & R1 & U1 & K1 & F1).
  set (w2 := if connection_lost message then _ else w1).
  assert (H2 : exists e2, continues w1 w2 e2 /\ retry_steps e2 = [] /\
                          unit_steps e2 = [] /\
                          calls w2 = calls w1 /\ files w2 = files w1).
  { subst w2. destruct (connection_lost message).
    - eexists. split; [apply continues_emit|]. auto.
    - exists []. split; [apply continues_refl|]. auto. }
  destruct H2 as (e2 & C2 & R2 & U2 & K2 & F2).
  destruct (Nat.ltb attempt maxRetries).
  - exists ((e1 ++ e2) ++ [EvRetryDelay RETRY_DELAY_MS]).
    split; [|split; [|split; [|split]]].
    + eapply continues_trans; [eapply continues_trans; eauto|apply continues_emit].
    + rewrite !retry_steps_app, R1, R2. reflexivity.
    + rewrite !unit_steps_app, U1, U2. reflexivity.
    + simpl. congruence.
    + simpl. congruence.
  - exists (e1 ++ e2). split; [|split; [|split; [|split]]].
    + eapply continues_trans; eauto.
    + rewrite retry_steps_app, R1, R2. reflexivity.
    + rewrite unit_steps_app, U1, U2. reflexivity.
    + congruence.
    + congruence.
Qed.

(** Whatever the browser answers, a call of the wrapper returns, leaves
    the files alone and takes no step of an entry point. *)
Lemma fund_attempts_frame (key : string) (todo : list nat) :
  forall (lastError : option string) (w : World),
    exists events,
      continues w (attempts todo key lastError w).2 events /\
      unit_steps events = [] /\
      files (attempts todo key lastError w).2 = files w.
Proof.
  induction todo as [|attempt later IH]; intros lastError w.
  - exists []. split; [apply continues_refl|]. auto.
  - cbn [FundScraper.attempts].
    set (w1 := emit (EvAttempt (TFund key) attempt) (next_call w)).
    assert (C1 : continues w w1 [EvAttempt (TFund key) attempt]) by reflexivity.
    destruct (fetch (calls w) key) as [message pageOpen|links].
    + destruct (fund_on_error_steps key attempt message pageOpen w1)
        as (e2 & C2 & _ & U2 & _ & F2).
      destruct (IH (Some message) (on_error key attempt message pageOpen w1))
        as (e3 & C3 & U3 & F3).
      exists (([EvAttempt (TFund key) attempt] ++ e2) ++ e3).
      split; [|split].
      * eapply continues_trans; [eapply continues_trans|]; eauto.
      * rewrite !unit_steps_app, U2, U3. reflexivity.
      * rewrite F3, F2. reflexivity.
    + destruct (negb (hasAnyLinks links) && Nat.ltb attempt maxRetries).
      * destruct (fund_saveScreenshot_steps key "no-links" attempt w1)
          as (e2 & C2 & _ & U2 & _ & F2).
        set (w2 := saveScreenshot key "no-links" attempt w1) in *.
        destruct (fund_on_error_steps key attempt
                    "No social links found - retrying" false w2)
          as (e3 & C3 & _ & U3 & _ & F3).
        destruct (IH (Some "No social links found - retrying")
                     (on_error key attempt
                        "No social links found - retrying" false w2))
          as (e4 & C4 & U4 & F4).
        exists ((([EvAttempt (TFund key) attempt] ++ e2) ++ e3) ++ e4).
        split; [|split].
        -- eapply continues_trans; [eapply continues_trans;
             [eapply continues_trans|]|]; eauto.
        -- rewrite !unit_steps_app, U2, U3, U4. reflexivity.
        -- rewrite F4, F3, F2. reflexivity.
      * destruct (negb (hasAnyLinks links)).
        -- destruct (fund_saveScreenshot_steps key "error-no-links" attempt w1)
             as (e2 & C2 & _ & U2 & _ & F2).
           exists ([EvAttempt (TFund key) attempt] ++ e2). split; [|split].
           ++ eapply continues_trans; eauto.
           ++ rewrite unit_steps_app, U2. reflexivity.
           ++ simpl. rewrite F2. reflexivity.
        -- destruct (fund_saveScreenshot_steps key "success" attempt w1)
             as (e2 & C2 & _ & U2 & _ & F2).
           exists ([EvAttempt (TFund key) attempt] ++ e2). split; [|split].
           ++ eapply continues_trans; eauto.
           ++ rewrite unit_steps_app, U2. reflexivity.
           ++ simpl. rewrite F2. reflexivity.
Qed.

(** One failed attempt followed by the rest of the loop. *)
Lemma fund_retry_steps_glue (a n N : nat) (e1 e2 e3 : list Event) :
  a + S n = S maxRetries ->
  retry_steps e1 = [SAttempt] ->
  retry_steps e2 =
    (if Nat.ltb a maxRetries then [SDelay RETRY_DELAY_MS] else []) ->
  retry_steps e3 = attempts_apart RETRY_DELAY_MS (min (S N) n) ->
  retry_steps ((e1 ++ e2) ++ e3) =
    attempts_apart RETRY_DELAY_MS (min (S (S N)) (S n)).
Proof.
  intros Ha R1 R2 R3. rewrite !retry_steps_app, R1, R2, R3.
  rewrite <- Nat.succ_min_distr.
  destruct n as [|n].
  - assert (a = maxRetries) as -> by lia.
    rewrite Nat.ltb_irrefl, Nat.min_0_r. reflexivity.
  - assert (Hlt : Nat.ltb a maxRetries = true) by (apply Nat.ltb_lt; lia).
    rewrite Hlt. rewrite attempts_apart_S by lia. reflexivity.
Qed.

(** The wrapper from attempt [a] on, when the next [N] attempts fail and
    the one after them succeeds. *)
Lemma fund_attempts_run (key : string) (n : nat) :
  forall (a : nat) (lastError : option string) (w : World) (N : nat),
    a + n = S maxRetries ->
    (forall i, i < N -> fails (fetch (calls w + i) key)) ->
    succeeds (fetch (calls w + N) key) ->
    exists events,
      continues w (attempts (seq a n) key lastError w).2 events /\
      (ScrapeResult.error (attempts (seq a n) key lastError w).1 = None
       <-> N < n) /\
      calls (attempts (seq a n) key lastError w).2 = calls w + min (S N) n /\
      retry_steps events = attempts_apart RETRY_DELAY_MS (min (S N) n).
Proof.
  induction n as [|n IH]; intros a lastError w N Ha Hfail Hsucc.
  - exists []. split; [apply continues_refl|].
    split; [simpl; split; [discriminate|lia]|].
    rewrite Nat.min_0_r. simpl. split; [lia|reflexivity].
  - cbn [seq FundScraper.attempts].
    set (w1 := emit (EvAttempt (TFund key) a) (next_call w)).
    assert (C1 : continues w w1 [EvAttempt (TFund key) a]) by reflexivity.
    assert (R1 : retry_steps [EvAttempt (TFund key) a] = [SAttempt]) by reflexivity.
    assert (Hretry : forall message pageOpen w2 e2,
      0 < N ->
      continues w1 w2 e2 -> retry_steps e2 = [] -> calls w2 = calls w1 ->
      exists events,
        continues w
          (attempts (seq (S a) n) key (Some message)
             (on_error key a message pageOpen w2)).2 events /\
        (ScrapeResult.error
           (attempts (seq (S a) n) key (Some message)
              (on_error key a message pageOpen w2)).1 = None <-> N < S n) /\
        calls (attempts (seq (S a) n) key (Some message)
                 (on_error key a message pageOpen w2)).2
          = calls w + min (S N) (S n) /\
        retry_steps events = attempts_apart RETRY_DELAY_MS (min (S N) (S n))).
    { intros message pageOpen w2 e2 HN C2 R2 K2.
      destruct N as [|N]; [lia|].
      destruct (fund_on_error_steps key a message pageOpen w2)
        as (e3 & C3 & R3 & _ & K3 & _).
      set (w3 := on_error key a message pageOpen w2) in *.
      assert (Kw3 : calls w3 = S (calls w)) by (rewrite K3, K2; reflexivity).
      destruct (IH (S a) (Some message) w3 N) as (e4 & C4 & E4 & K4 & R4).
      { lia. }
      { intros i Hi. rewrite Kw3.
        replace (S (calls w) + i) with (calls w + S i) by lia.
        apply Hfail. lia. }
      { rewrite Kw3. replace (S (calls w) + N) with (calls w + S N) by lia.
        exact Hsucc. }
      exists ((([EvAttempt (TFund key) a] ++ e2) ++ e3) ++ e4).
      split; [|split; [|split]].
      - eapply continues_trans; [eapply continues_trans;
          [eapply continues_trans|]|]; eauto.
      - rewrite E4. lia.
      - rewrite K4, Kw3, <- Nat.succ_min_distr. lia.
      - apply (fund_retry_steps_glue a); auto.
        rewrite retry_steps_app, R1, R2. reflexivity. }
    destruct N as [|N].
    + rewrite Nat.add_0_r in Hsucc.
      destruct (fetch (calls w) key) as [message pageOpen|links];
        [contradiction|].
      simpl in Hsucc. rewrite Hsucc. simpl.
      destruct (fund_saveScreenshot_steps key "success" a w1)
        as (e2 & C2 & R2 & _ & K2 & _).
      exists ([EvAttempt (TFund key) a] ++ e2).
      split; [eapply continues_trans; eauto|].
      split; [split; [lia|reflexivity]|].
      split; [rewrite K2; simpl; lia|].
      rewrite retry_steps_app, R1, R2. reflexivity.
    + pose proof (Hfail 0 ltac:(lia)) as H0. rewrite Nat.add_0_r in H0.
      destruct (fetch (calls w) key) as [message pageOpen|links].
      * apply (Hretry message pageOpen w1 []); [lia|apply continues_refl|
          reflexivity|reflexivity].
      * simpl in H0. rewrite H0. cbn [negb andb].
        destruct (Nat.ltb a maxRetries) eqn:Hlt.
        -- destruct (fund_saveScreenshot_steps key "no-links" a w1)
             as (e2 & C2 & R2 & _ & K2 & _).
           apply (Hretry _ false _ e2); auto. lia.
        -- apply Nat.ltb_ge in Hlt. assert (n = 0) as -> by lia.
           destruct (fund_saveScreenshot_steps key "error-no-links" a w1)
             as (e2 & C2 & R2 & _ & K2 & _).
           exists ([EvAttempt (TFund key) a] ++ e2).
           split; [eapply continues_trans; eauto|].
           split; [simpl; split; [discriminate|lia]|].
           split; [simpl; rewrite K2; simpl; lia|].
           rewrite retry_steps_app, R1, R2. reflexivity.
Qed.

Lemma fund_attempts_all_fail (key : string) (n : nat) :
  forall (a : nat) (lastError : option string) (w : World),
    a + n = S maxRetries ->
    (forall i, i < n -> fails (fetch (calls w + i) key)) ->
    exists events,
      continues w (attempts (seq a n) key lastError w).2 events /\
      (attempts (seq a n) key lastError w).1 =
        after_failures lastError
          (match n with
           | 0 => None
           | S k => Some (fetch (calls w + k) key)
           end) /\
      calls (attempts (seq a n) key lastError w).2 = calls w + n /\
      retry_steps events = attempts_apart RETRY_DELAY_MS n.
Proof.
  induction n as [|n IH]; intros a lastError w Ha Hfail.
  - exists []. split; [apply continues_refl|].
    split; [reflexivity|]. split; [simpl; lia|reflexivity].
  - cbn [seq FundScraper.attempts].
    set (w1 := emit (EvAttempt (TFund key) a) (next_call w)).
    assert (C1 : continues w w1 [EvAttempt (TFund key) a]) by reflexivity.
    assert (R1 : retry_steps [EvAttempt (TFund key) a] = [SAttempt]) by reflexivity.
    pose proof (Hfail 0 ltac:(lia)) as H0. rewrite Nat.add_0_r in H0.
    assert (Hretry : forall message pageOpen w2 e2,
      continues w1 w2 e2 -> retry_steps e2 = [] -> calls w2 = calls w1 ->
      (n = 0 -> exhausted (Some message) =
                after_failures lastError (Some (fetch (calls w + 0) key))) ->
      exists events,
        continues w
          (attempts (seq (S a) n) key (Some message)
             (on_error key a message pageOpen w2)).2 events /\
        (attempts (seq (S a) n) key (Some message)
           (on_error key a message pageOpen w2)).1 =
          after_failures lastError (Some (fetch (calls w + n) key)) /\
        calls (attempts (seq (S a) n) key (Some message)
                 (on_error key a message pageOpen w2)).2 = calls w + S n /\
        retry_steps events = attempts_apart RETRY_DELAY_MS (S n)).
    { intros message pageOpen w2 e2 C2 R2 K2 Hlast.
      destruct (fund_on_error_steps key a message pageOpen w2)
        as (e3 & C3 & R3 & _ & K3 & _).
      set (w3 := on_error key a message pageOpen w2) in *.
      assert (Kw3 : calls w3 = S (calls w)) by (rewrite K3, K2; reflexivity).
      destruct (IH (S a) (Some message) w3) as (e4 & C4 & E4 & K4 & R4).
      { lia. }
      { intros i Hi. rewrite Kw3.
        replace (S (calls w) + i) with (calls w + S i) by lia.
        apply Hfail. lia. }
      exists ((([EvAttempt (TFund key) a] ++ e2) ++ e3) ++ e4).
      split; [|split; [|split]].
      - eapply continues_trans; [eapply continues_trans;
          [eapply continues_trans|]|]; eauto.
      - rewrite E4. destruct n as [|k].
        + simpl. apply Hlast. reflexivity.
        + rewrite Kw3. replace (S (calls w) + k) with (calls w + S k) by lia.
          reflexivity.
      - rewrite K4, Kw3. lia.
      - rewrite !retry_steps_app, R1, R2, R3, R4.
        destruct n as [|k].
        + assert (a = maxRetries) as -> by lia.
          rewrite Nat.ltb_irrefl. reflexivity.
        + assert (Hlt : Nat.ltb a maxRetries = true) by (apply Nat.ltb_lt; lia).
          rewrite Hlt. reflexivity. }
    destruct (fetch (calls w) key) as [message pageOpen|links] eqn:Hf.
    + apply (Hretry message pageOpen w1 []); [apply continues_refl|
        reflexivity|reflexivity|].
      intros _. rewrite Nat.add_0_r, Hf. reflexivity.
    + simpl in H0. rewrite H0. cbn [negb andb].
      destruct (Nat.ltb a maxRetries) eqn:Hlt.
      * destruct (fund_saveScreenshot_steps key "no-links" a w1)
          as (e2 & C2 & R2 & _ & K2 & _).
        apply (Hretry _ false _ e2); auto.
        intros ->. apply Nat.ltb_lt in Hlt. lia.
      * apply Nat.ltb_ge in Hlt. assert (n = 0) as -> by lia.
        destruct (fund_saveScreenshot_steps key "error-no-links" a w1)
          as (e2 & C2 & R2 & _ & K2 & _).
        exists ([EvAttempt (TFund key) a] ++ e2).
        split; [eapply continues_trans; eauto|].
        split; [simpl; rewrite Nat.add_0_r, Hf; reflexivity|].
        split; [simpl; rewrite K2; simpl; lia|].
        rewrite retry_steps_app, R1, R2. reflexivity.
Qed.

End Facts.
End FundScraperFacts.

(** ** The funding-rounds scraper *)

Module RoundsScraperFacts.
Import RoundsScraper.

Section Facts.
Variable fetch : nat -> nat -> Outcome (list Row.t).
Variable parseDateToISO : option string -> option string.
Variable now : nat -> Z.
Variable maxRetries : nat.

Local Abbreviation on_error := (on_error maxRetries).
Local Abbreviation attempts := (attempts fetch parseDateToISO now maxRetries).

Lemma page_saveScreenshot_steps (pageNumber : nat) (w : World) :
  continues w (saveScreenshot pageNumber w) [EvPageScreenshot (TPage pageNumber)] /\
  calls (saveScreenshot pageNumber w) = calls w /\
  files (saveScreenshot pageNumber w) = files w.
Proof. repeat split. Qed.

Lemma page_on_error_steps (pageNumber attempt : nat) (message : string)
    (pageOpen : bool) (w : World) :
  exists events,
    continues w (on_error pageNumber attempt message pageOpen w) events /\
    retry_steps events =
      (if Nat.ltb attempt maxRetries then [SDelay RETRY_DELAY_MS] else []) /\
    unit_steps events = [] /\
    calls (on_error pageNumber attempt message pageOpen w) = calls w /\
    files (on_error pageNumber attempt message pageOpen w) = files w.
Proof.
  unfold RoundsScraper.on_error, saveScreenshot.
  destruct pageOpen, (connection_lost message), (Nat.ltb attempt maxRetries);
    eexists; (split; [unfold continues; cbn [trace emit]; 
      rewrite <- ?app_assoc; try reflexivity; now rewrite app_nil_r|]); auto.
Qed.

Lemma page_attempts_frame (pageNumber : nat) (todo : list nat) :
  forall (lastError : option string) (w : World),
    exists events,
      continues w (attempts todo pageNumber lastError w).2 events /\
      unit_steps events = [] /\
      files (attempts todo pageNumber lastError w).2 = files w.
Proof.
  induction todo as [|attempt later IH]; intros lastError w.
  - exists []. split; [apply continues_refl|]. auto.
  - cbn [RoundsScraper.attempts].
    set (w1 := emit (EvAttempt (TPage pageNumber) attempt) (next_call w)).
    assert (C1 : continues w w1 [EvAttempt (TPage pageNumber) attempt])
      by reflexivity.
    assert (Hretry : forall message pageOpen,
      exists events,
        continues w (attempts later pageNumber (Some message)
                       (on_error pageNumber attempt message pageOpen w1)).2
                  events /\
        unit_steps events = [] /\
        files (attempts later pageNumber (Some message)
                 (on_error pageNumber attempt message pageOpen w1)).2 = files w).
    { intros message pageOpen.
      destruct (page_on_error_steps pageNumber attempt message pageOpen w1)
        as (e2 & C2 & _ & U2 & _ & F2).
      destruct (IH (Some message) (on_error pageNumber attempt message pageOpen w1))
        as (e3 & C3 & U3 & F3).
      exists (([EvAttempt (TPage pageNumber) attempt] ++ e2) ++ e3).
      split; [|split].
      - eapply continues_trans; [eapply continues_trans|]; eauto.
      - rewrite !unit_steps_app, U2, U3. reflexivity.
      - rewrite F3, F2. reflexivity. }
    destruct (fetch (calls w) pageNumber) as [message pageOpen|rawData].
    + apply Hretry.
    + destruct (Nat.eqb _ 0 && Nat.ltb attempt maxRetries).
      * apply Hretry.
      * exists ([EvAttempt (TPage pageNumber) attempt]
                  ++ [EvPageScreenshot (TPage pageNumber)]).
        split; [|split]; [|reflexivity|reflexivity].
        eapply continues_trans; [exact C1|]. apply page_saveScreenshot_steps.
Qed.

Lemma page_retry_steps_glue (a n k : nat) (e1 e2 e3 : list Event) :
  a + S n = S maxRetries ->
  retry_steps e1 = [SAttempt] ->
  retry_steps e2 =
    (if Nat.ltb a maxRetries then [SDelay RETRY_DELAY_MS] else []) ->
  retry_steps e3 = attempts_apart RETRY_DELAY_MS k ->
  (n = 0 -> k = 0) -> (0 < n -> 0 < k) ->
  retry_steps ((e1 ++ e2) ++ e3) = attempts_apart RETRY_DELAY_MS (S k).
Proof.
  intros Ha R1 R2 R3 H0 Hpos. rewrite !retry_steps_app, R1, R2, R3.
  destruct n as [|n].
  - assert (a = maxRetries) as -> by lia.
    rewrite Nat.ltb_irrefl, H0 by reflexivity. reflexivity.
  - assert (Hlt : Nat.ltb a maxRetries = true) by (apply Nat.ltb_lt; lia).
    rewrite Hlt. rewrite attempts_apart_S by (apply Hpos; lia). reflexivity.
Qed.

(** The wrapper from attempt [a] on, when the next [N] attempts raise and
    the one after them extracts rows. *)
Lemma page_attempts_run (pageNumber : nat) (n : nat) :
  forall (a : nat) (lastError : option string) (w : World) (N : nat),
    a + n = S maxRetries ->
    (forall i, i < N -> raises (fetch (calls w + i) pageNumber)) ->
    extracts_rows (fetch (calls w + N) pageNumber) ->
    exists events,
      continues w (attempts (seq a n) pageNumber lastError w).2 events /\
      (PageResult.error (attempts (seq a n) pageNumber lastError w).1 = None
       <-> N < n) /\
      calls (attempts (seq a n) pageNumber lastError w).2
        = calls w + min (S N) n /\
      retry_steps events = attempts_apart RETRY_DELAY_MS (min (S N) n).
Proof.
  induction n as [|n IH]; intros a lastError w N Ha Hfail Hsucc.
  - exists []. split; [apply continues_refl|].
    split; [simpl; split; [discriminate|lia]|].
    rewrite Nat.min_0_r. simpl. split; [lia|reflexivity].
  - cbn [seq RoundsScraper.attempts].
    set (w1 := emit (EvAttempt (TPage pageNumber) a) (next_call w)).
    assert (C1 : continues w w1 [EvAttempt (TPage pageNumber) a]) by reflexivity.
    destruct N as [|N].
    + rewrite Nat.add_0_r in Hsucc.
      destruct (fetch (calls w) pageNumber) as [message pageOpen|rawData];
        [contradiction|].
      simpl in Hsucc. destruct rawData as [|row rawData]; [congruence|].
      cbn [fmap list_fmap length Nat.eqb andb].
      exists ([EvAttempt (TPage pageNumber) a]
                ++ [EvPageScreenshot (TPage pageNumber)]).
      split; [eapply continues_trans; [exact C1|apply page_saveScreenshot_steps]|].
      split; [split; [lia|reflexivity]|].
      split; [simpl; lia|reflexivity].
    + pose proof (Hfail 0 ltac:(lia)) as H0. rewrite Nat.add_0_r in H0.
      destruct (fetch (calls w) pageNumber) as [message pageOpen|rawData];
        [|contradiction].
      destruct (page_on_error_steps pageNumber a message pageOpen w1)
        as (e3 & C3 & R3 & _ & K3 & _).
      set (w3 := on_error pageNumber a message pageOpen w1) in *.
      assert (Kw3 : calls w3 = S (calls w)) by (rewrite K3; reflexivity).
      destruct (IH (S a) (Some message) w3 N) as (e4 & C4 & E4 & K4 & R4).
      { lia. }
      { intros i Hi. rewrite Kw3.
        replace (S (calls w) + i) with (calls w + S i) by lia.
        apply Hfail. lia. }
      { rewrite Kw3. replace (S (calls w) + N) with (calls w + S N) by lia.
        exact Hsucc. }
      exists (([EvAttempt (TPage pageNumber) a] ++ e3) ++ e4).
      split; [|split; [|split]].
      * eapply continues_trans; [eapply continues_trans|]; eauto.
      * rewrite E4. lia.
      * rewrite K4, Kw3, <- Nat.succ_min_distr. lia.
      * rewrite <- Nat.succ_min_distr.
        apply (page_retry_steps_glue a n); auto; lia.
Qed.

(** The wrapper from attempt [a] on, when the next [N] attempts raise or
    come back empty, the one after them extracts rows, and more than [N]
    attempts are left. *)
Lemma page_attempts_recover (pageNumber : nat) (n : nat) :
  forall (a : nat) (lastError : option string) (w : World) (N : nat),
    a + n = S maxRetries ->
    N < n ->
    (forall i, i < N -> raises_or_empty (fetch (calls w + i) pageNumber)) ->
    extracts_rows (fetch (calls w + N) pageNumber) ->
    exists events,
      continues w (attempts (seq a n) pageNumber lastError w).2 events /\
      PageResult.error (attempts (seq a n) pageNumber lastError w).1 = None /\
      PageResult.data (attempts (seq a n) pageNumber lastError w).1 <> [] /\
      calls (attempts (seq a n) pageNumber lastError w).2 = calls w + S N /\
      retry_steps events = attempts_apart RETRY_DELAY_MS (S N).
Proof.
  induction n as [|n IH]; intros a lastError w N Ha HN Hfail Hsucc; [lia|].
  cbn [seq RoundsScraper.attempts].
  set (w1 := emit (EvAttempt (TPage pageNumber) a) (next_call w)).
  assert (C1 : continues w w1 [EvAttempt (TPage pageNumber) a]) by reflexivity.
  destruct N as [|N].
  - rewrite Nat.add_0_r in Hsucc.
    destruct (fetch (calls w) pageNumber) as [message pageOpen|rawData];
      [contradiction|].
    simpl in Hsucc. destruct rawData as [|row rawData]; [congruence|].
    cbn [fmap list_fmap length Nat.eqb andb].
    exists ([EvAttempt (TPage pageNumber) a]
              ++ [EvPageScreenshot (TPage pageNumber)]).
    split; [eapply continues_trans; [exact C1|apply page_saveScreenshot_steps]|].
    split; [reflexivity|]. split; [discriminate|].
    split; [simpl; lia|reflexivity].
  - pose proof (Hfail 0 ltac:(lia)) as H0. rewrite Nat.add_0_r in H0.
    assert (Hretry : forall message pageOpen,
      exists events,
        continues w
          (attempts (seq (S a) n) pageNumber (Some message)
             (on_error pageNumber a message pageOpen w1)).2 events /\
        PageResult.error
          (attempts (seq (S a) n) pageNumber (Some message)
             (on_error pageNumber a message pageOpen w1)).1 = None /\
        PageResult.data
          (attempts (seq (S a) n) pageNumber (Some message)
             (on_error pageNumber a message pageOpen w1)).1 <> [] /\
        calls (attempts (seq (S a) n) pageNumber (Some message)
                 (on_error pageNumber a message pageOpen w1)).2
          = calls w + S (S N) /\
        retry_steps events = attempts_apart RETRY_DELAY_MS (S (S N))).
    { intros message pageOpen.
      destruct (page_on_error_steps pageNumber a message pageOpen w1)
        as (e3 & C3 & R3 & _ & K3 & _).
      set (w3 := on_error pageNumber a message pageOpen w1) in *.
      assert (Kw3 : calls w3 = S (calls w)) by (rewrite K3; reflexivity).
      destruct (IH (S a) (Some message) w3 N) as (e4 & C4 & E4 & D4 & K4 & R4).
      { lia. }
      { lia. }
      { intros i Hi. rewrite Kw3.
        replace (S (calls w) + i) with (calls w + S i) by lia.
        apply Hfail. lia. }
      { rewrite Kw3. replace (S (calls w) + N) with (calls w + S N) by lia.
        exact Hsucc. }
      exists (([EvAttempt (TPage pageNumber) a] ++ e3) ++ e4).
      split; [|split; [|split; [|split]]].
      - eapply continues_trans; [eapply continues_trans|]; eauto.
      - exact E4.
      - exact D4.
      - rewrite K4, Kw3. lia.
      - apply (page_retry_steps_glue a n); auto; lia. }
    destruct (fetch (calls w) pageNumber) as [message pageOpen|rawData].
    + apply Hretry.
    + simpl in H0. subst rawData. cbn [fmap list_fmap length Nat.eqb andb].
      assert (Hlt : Nat.ltb a maxRetries = true) by (apply Nat.ltb_lt; lia).
      rewrite Hlt. apply Hretry.
Qed.

Lemma page_attempts_all_fail (pageNumber : nat) (n : nat) :
  forall (a : nat) (lastError : option string) (w : World),
    a + n = S maxRetries ->
    (forall i, i < n -> raises_or_empty (fetch (calls w + i) pageNumber)) ->
    exists events,
      continues w (attempts (seq a n) pageNumber lastError w).2 events /\
      (attempts (seq a n) pageNumber lastError w).1 =
        after_failures lastError
          (match n with
           | 0 => None
           | S k => Some (fetch (calls w + k) pageNumber)
           end) /\
      calls (attempts (seq a n) pageNumber lastError w).2 = calls w + n /\
      retry_steps events = attempts_apart RETRY_DELAY_MS n.
Proof.
  induction n as [|n IH]; intros a lastError w Ha Hfail.
  - exists []. split; [apply continues_refl|].
    split; [reflexivity|]. split; [simpl; lia|reflexivity].
  - cbn [seq RoundsScraper.attempts].
    set (w1 := emit (EvAttempt (TPage pageNumber) a) (next_call w)).
    assert (C1 : continues w w1 [EvAttempt (TPage pageNumber) a]) by reflexivity.
    pose proof (Hfail 0 ltac:(lia)) as H0. rewrite Nat.add_0_r in H0.
    assert (Hretry : forall message pageOpen,
      (n = 0 -> PageResult.mk [] (Some (or_default (Some message) "Unknown error"))
                = after_failures lastError (Some (fetch (calls w + 0) pageNumber))) ->
      exists events,
        continues w
          (attempts (seq (S a) n) pageNumber (Some message)
             (on_error pageNumber a message pageOpen w1)).2 events /\
        (attempts (seq (S a) n) pageNumber (Some message)
           (on_error pageNumber a message pageOpen w1)).1 =
          after_failures lastError (Some (fetch (calls w + n) pageNumber)) /\
        calls (attempts (seq (S a) n) pageNumber (Some message)
                 (on_error pageNumber a message pageOpen w1)).2 = calls w + S n /\
        retry_steps events = attempts_apart RETRY_DELAY_MS (S n)).
    { intros message pageOpen Hlast.
      destruct (page_on_error_steps pageNumber a message pageOpen w1)
        as (e3 & C3 & R3 & _ & K3 & _).
      set (w3 := on_error pageNumber a message pageOpen w1) in *.
      assert (Kw3 : calls w3 = S (calls w)) by (rewrite K3; reflexivity).
      destruct (IH (S a) (Some message) w3) as (e4 & C4 & E4 & K4 & R4).
      { lia. }
      { intros i Hi. rewrite Kw3.
        replace (S (calls w) + i) with (calls w + S i) by lia.
        apply Hfail. lia. }
      exists (([EvAttempt (TPage pageNumber) a] ++ e3) ++ e4).
      split; [|split; [|split]].
      - eapply continues_trans; [eapply continues_trans|]; eauto.
      - rewrite E4. destruct n as [|k].
        + simpl. apply Hlast. reflexivity.
        + rewrite Kw3. replace (S (calls w) + k) with (calls w + S k) by lia.
          reflexivity.
      - rewrite K4, Kw3. lia.
      - apply (page_retry_steps_glue a n); auto; lia. }
    destruct (fetch (calls w) pageNumber) as [message pageOpen|rawData] eqn:Hf.
    + apply Hretry. intros _. rewrite Nat.add_0_r, Hf. reflexivity.
    + simpl in H0. subst rawData. cbn [fmap list_fmap length Nat.eqb andb].
      destruct (Nat.ltb a maxRetries) eqn:Hlt.
      * apply Hretry. intros ->. apply Nat.ltb_lt in Hlt. lia.
      * apply Nat.ltb_ge in Hlt. assert (n = 0) as -> by lia.
        exists ([EvAttempt (TPage pageNumber) a]
                  ++ [EvPageScreenshot (TPage pageNumber)]).
        split; [eapply continues_trans; [exact C1|apply page_saveScreenshot_steps]|].
        split; [simpl; rewrite Nat.add_0_r, Hf; reflexivity|].
        split; [simpl; lia|reflexivity].
Qed.

End Facts.
End RoundsScraperFacts.

(** ** The project-details scraper *)

Module ProjectScraperFacts.
Import ProjectScraper.

Section Facts.
Variable fetch : nat -> string -> Outcome RawDetails.t.
Variable now : nat -> Z.
Variable maxRetries : nat.

Local Abbreviation on_error := (on_error maxRetries).
Local Abbreviation attempts := (attempts fetch now maxRetries).

Lemma project_on_error_steps (projectKey : string) (attempt : nat) (message : string)
    (pageOpen : bool) (w : World) :
  exists events,
    continues w (on_error projectKey attempt message pageOpen w) events /\
    unit_steps events = [] /\
    files (on_error projectKey attempt message pageOpen w) = files w.
Proof.
  unfold ProjectScraper.on_error, saveScreenshot.
  destruct pageOpen, (connection_lost message), (Nat.ltb attempt maxRetries);
    eexists; (split; [unfold continues; cbn [trace emit];
      rewrite <- ?app_assoc; try reflexivity; now rewrite app_nil_r|]); auto.
Qed.

Lemma project_attempts_frame (projectKey : string) (todo : list nat) :
  forall (lastError : option string) (w : World),
    exists events,
      continues w (attempts todo projectKey lastError w).2 events /\
      unit_steps events = [] /\
      files (attempts todo projectKey lastError w).2 = files w.
Proof.
  induction todo as [|attempt later IH]; intros lastError w.
  - exists []. split; [apply continues_refl|]. auto.
  - cbn [ProjectScraper.attempts].
    set (w1 := emit (EvAttempt (TProject projectKey) attempt) (next_call w)).
    assert (C1 : continues w w1 [EvAttempt (TProject projectKey) attempt])
      by reflexivity.
    destruct (fetch (calls w) projectKey) as [message pageOpen|rawDetails].
    + destruct (project_on_error_steps projectKey attempt message pageOpen w1)
        as (e2 & C2 & U2 & F2).
      destruct (IH (Some message) (on_error projectKey attempt message pageOpen w1))
        as (e3 & C3 & U3 & F3).
      exists (([EvAttempt (TProject projectKey) attempt] ++ e2) ++ e3).
      split; [|split].
      * eapply continues_trans; [eapply continues_trans|]; eauto.
      * rewrite !unit_steps_app, U2, U3. reflexivity.
      * rewrite F3, F2. reflexivity.
    + exists ([EvAttempt (TProject projectKey) attempt]
                ++ [EvPageScreenshot (TProject projectKey)]).
      split; [|split]; [|reflexivity|reflexivity].
      eapply continues_trans; [exact C1|]. reflexivity.
Qed.

End Facts.
End ProjectScraperFacts.

(** ** The retry wrappers: the claims *)

Module RetryClaims.

(** C3, counterexample.  The table of funding rounds stays empty on the
    first three calls and shows a row on the fourth: the fetch fails on its
    first [N = 3] calls and succeeds on call [N + 1], and the wrapper runs
    with the [M = 3] attempts of the program.  [N < M] does not hold, and
    yet the wrapper returns a success: after its three calls it returns
    [error = null], with an empty [data]. *)
Lemma page_scraper_success_after_empty_attempts :
  let fetch := Sample.empty_three_times in
  let M := RoundsScraper.MAX_RETRIES in
  let run :=
    RoundsScraper.scrapePage fetch Sample.parseDateToISO Sample.now M 1
      Sample.start in
  (forall i, i < 3 ->
     RoundsScraper.raises_or_empty (fetch (calls Sample.start + i) 1)) /\
  RoundsScraper.extracts_rows (fetch (calls Sample.start + 3) 1) /\
  ~ 3 < M /\
  calls run.2 = calls Sample.start + min (3 + 1) M /\
  PageResult.error run.1 = None /\
  PageResult.data run.1 = [].
Proof.
  cbv zeta. split.
  { intros i Hi. destruct i as [|[|[|i]]]; [reflexivity..|lia]. }
  split; [discriminate|].
  split; [unfold RoundsScraper.MAX_RETRIES; lia|]. repeat split.
Qed.

(** C3, as amended.  Let the fetch fail on its next [N] calls and succeed
    on the call after them, and let the wrapper run with [M] attempts.  A
    call fails when it raises or extracts nothing (no link for the fund
    scraper, no row for the page scraper).  Then the fetch is called
    exactly [min (N+1) M] times, and the steps of the wrapper are that
    many attempts with one wait of [RETRY_DELAY_MS] between consecutive
    attempts, so one wait less than attempts and none after the last
    attempt.  The fund scraper returns a success (a result whose [error]
    is [null]) if and only if [N < M].  The page scraper returns rows if
    and only if [N < M]; its [error] is [null] when [N < M], and also when
    the attempts run out and the last of them, call [M], extracted
    nothing. *)
Theorem retry_bound (M N : nat) :
  (forall (fetch : nat -> string -> Outcome Links.t) (enableScreenshots : bool)
          (key : string) (index total : nat) (w : World),
     (forall i, i < N -> FundScraper.fails (fetch (calls w + i) key)) ->
     FundScraper.succeeds (fetch (calls w + N) key) ->
     let run := FundScraper.scrapeFund fetch enableScreenshots M key index total w in
     (ScrapeResult.error run.1 = None <-> N < M) /\
     calls run.2 = calls w + min (N + 1) M /\
     exists events,
       continues w run.2 events /\
       retry_steps events =
         attempts_apart FundScraper.RETRY_DELAY_MS (min (N + 1) M) /\
       length (List.filter is_delay (retry_steps events)) = min (N + 1) M - 1) /\
  (forall (fetch : nat -> nat -> Outcome (list Row.t))
          (parseDateToISO : option string -> option string) (now : nat -> Z)
          (pageNumber : nat) (w : World),
     (forall i, i < N ->
        RoundsScraper.raises_or_empty (fetch (calls w + i) pageNumber)) ->
     RoundsScraper.extracts_rows (fetch (calls w + N) pageNumber) ->
     let run := RoundsScraper.scrapePage fetch parseDateToISO now M pageNumber w in
     (PageResult.data run.1 <> [] <-> N < M) /\
     (PageResult.error run.1 = None <->
      N < M \/
      (M <= N /\ 0 < M /\ fetch (calls w + (M - 1)) pageNumber = Extracted [])) /\
     calls run.2 = calls w + min (N + 1) M /\
     exists events,
       continues w run.2 events /\
       retry_steps events =
         attempts_apart RoundsScraper.RETRY_DELAY_MS (min (N + 1) M) /\
       length (List.filter is_delay (retry_steps events)) = min (N + 1) M - 1).
Proof.
  replace (N + 1) with (S N) by lia. split.
  - intros fetch shots key index total w Hfail Hsucc. cbv zeta.
    unfold FundScraper.scrapeFund.
    destruct (FundScraperFacts.fund_attempts_run fetch shots M key M 1 None w N
                ltac:(lia) Hfail Hsucc)
      as (events & C & E & K & R).
    split; [exact E|]. split; [exact K|]. exists events.
    split; [exact C|]. split; [exact R|].
    rewrite R. apply attempts_apart_delays.
  - intros fetch parseDateToISO now pageNumber w Hfail Hsucc. cbv zeta.
    unfold RoundsScraper.scrapePage.
    destruct (Nat.lt_ge_cases N M) as [Hlt|Hge].
    + destruct (RoundsScraperFacts.page_attempts_recover fetch parseDateToISO now
                  M pageNumber M 1 None w N ltac:(lia) Hlt Hfail Hsucc)
        as (events & C & E & D & K & R).
      replace (min (S N) M) with (S N) by lia.
      split; [tauto|]. split; [tauto|]. split; [exact K|]. exists events.
      split; [exact C|]. split; [exact R|].
      rewrite R. apply attempts_apart_delays.
    + destruct (RoundsScraperFacts.page_attempts_all_fail fetch parseDateToISO now
                  M pageNumber M 1 None w ltac:(lia))
        as (events & C & E & K & R).
      { intros i Hi. apply Hfail. lia. }
      replace (min (S N) M) with M by lia.
      split; [|split; [|split; [exact K|]]].
      * rewrite E. split; [|lia]. intros Hdata. exfalso. apply Hdata.
        destruct M as [|k]; [reflexivity|].
        unfold RoundsScraper.after_failures.
        now destruct (fetch (calls w + k) pageNumber).
      * rewrite E. destruct M as [|k].
        -- simpl. split; [discriminate|]. intros [H|(_ & H & _)]; lia.
        -- replace (S k - 1) with k by lia.
           pose proof (Hfail k ltac:(lia)) as Hk.
           unfold RoundsScraper.after_failures.
           destruct (fetch (calls w + k) pageNumber) as [message pageOpen|rawData].
           ++ simpl. split; [discriminate|].
              intros [H|(_ & _ & H)]; [lia|discriminate].
           ++ simpl in Hk. subst rawData. simpl. split; [|reflexivity].
              intros _. right. split; [lia|]. split; [lia|reflexivity].
      * exists events. split; [exact C|]. split; [exact R|].
        rewrite R. apply attempts_apart_delays.
Qed.

(** Three empty tables, five attempts: rows after four calls and three
    waits. *)
Lemma retry_bound_witness :
  let run :=
    RoundsScraper.scrapePage Sample.empty_three_times Sample.parseDateToISO
      Sample.now 5 1 Sample.start in
  (PageResult.data run.1 <> [] <-> 3 < 5) /\
  (PageResult.error run.1 = None <->
   3 < 5 \/
   (5 <= 3 /\ 0 < 5 /\
    Sample.empty_three_times (calls Sample.start + (5 - 1)) 1 = Extracted [])) /\
  calls run.2 = calls Sample.start + min (3 + 1) 5 /\
  exists events,
    continues Sample.start run.2 events /\
    retry_steps events =
      attempts_apart RoundsScraper.RETRY_DELAY_MS (min (3 + 1) 5) /\
    length (List.filter is_delay (retry_steps events)) = min (3 + 1) 5 - 1.
Proof.
  apply (proj2 (retry_bound 5 3) Sample.empty_three_times Sample.parseDateToISO
           Sample.now 1 Sample.start).
  - intros i Hi. destruct i as [|[|[|i]]]; [reflexivity..|lia].
  - discriminate.
Defined.

(** C4, counterexample.  The page scraper runs its three attempts on a
    table that stays empty.  The last attempt is returned, not thrown, but
    nothing is reported through the [error] field: it is [null], and the
    entry point counts the page as a success with no rounds. *)
Lemma page_scraper_empty_page_has_no_error :
  let run :=
    RoundsScraper.scrapePage Sample.empty_page Sample.parseDateToISO Sample.now
      RoundsScraper.MAX_RETRIES 1 Sample.start in
  calls run.2 = 3 /\
  PageResult.data run.1 = [] /\
  PageResult.error run.1 = None.
Proof. repeat split. Qed.

(** C4, as amended.  A fetch that extracts nothing counts as a failure
    while attempts remain: the wrapper waits and tries again, up to its
    last attempt.  When the last attempt still extracts nothing, it is
    returned and not thrown.  The fund scraper returns the links it read
    (all [null]) with [error] set to "No social links found"; the page
    scraper returns [data = []] with [error = null].  [S m] is the number
    of attempts. *)
Theorem empty_extraction_policy (m : nat) :
  (forall (fetch : nat -> string -> Outcome Links.t) (enableScreenshots : bool)
          (key : string) (index total : nat) (w : World) (links : Links.t),
     (forall i, i < m -> FundScraper.fails (fetch (calls w + i) key)) ->
     fetch (calls w + m) key = Extracted links ->
     FundScraper.hasAnyLinks links = false ->
     let run :=
       FundScraper.scrapeFund fetch enableScreenshots (S m) key index total w in
     run.1 = ScrapeResult.mk links (Some "No social links found") /\
     calls run.2 = calls w + S m /\
     exists events,
       continues w run.2 events /\
       retry_steps events = attempts_apart FundScraper.RETRY_DELAY_MS (S m)) /\
  (forall (fetch : nat -> nat -> Outcome (list Row.t))
          (parseDateToISO : option string -> option string) (now : nat -> Z)
          (pageNumber : nat) (w : World),
     (forall i, i < m -> RoundsScraper.raises_or_empty (fetch (calls w + i) pageNumber)) ->
     fetch (calls w + m) pageNumber = Extracted [] ->
     let run := RoundsScraper.scrapePage fetch parseDateToISO now (S m) pageNumber w in
     run.1 = PageResult.mk [] None /\
     calls run.2 = calls w + S m /\
     exists events,
       continues w run.2 events /\
       retry_steps events = attempts_apart RoundsScraper.RETRY_DELAY_MS (S m)).
Proof.
  split.
  - intros fetch shots key index total w links Hfail Hlast Hnone. cbv zeta.
    unfold FundScraper.scrapeFund.
    destruct (FundScraperFacts.fund_attempts_all_fail fetch shots (S m) key
                (S m) 1 None w ltac:(lia))
      as (events & C & E & K & R).
    { intros i Hi. destruct (decide (i = m)) as [->|Hne].
      - rewrite Hlast. exact Hnone.
      - apply Hfail. lia. }
    rewrite Hlast in E. split; [exact E|]. split; [exact K|]. eauto.
  - intros fetch parseDateToISO now pageNumber w Hfail Hlast. cbv zeta.
    unfold RoundsScraper.scrapePage.
    destruct (RoundsScraperFacts.page_attempts_all_fail fetch parseDateToISO now
                (S m) pageNumber (S m) 1 None w ltac:(lia))
      as (events & C & E & K & R).
    { intros i Hi. destruct (decide (i = m)) as [->|Hne].
      - rewrite Hlast. reflexivity.
      - apply Hfail. lia. }
    rewrite Hlast in E. split; [exact E|]. split; [exact K|]. eauto.
Qed.

(** Three attempts of the fund scraper on a page without links. *)
Lemma empty_extraction_policy_witness :
  let run :=
    FundScraper.scrapeFund Sample.no_links false 3 "a" 1 1 Sample.start in
  run.1 = ScrapeResult.mk Links.none (Some "No social links found") /\
  calls run.2 = calls Sample.start + 3 /\
  exists events,
    continues Sample.start run.2 events /\
    retry_steps events = attempts_apart FundScraper.RETRY_DELAY_MS 3.
Proof.
  apply (proj1 (empty_extraction_policy 2) Sample.no_links false "a" 1 1
           Sample.start Links.none).
  - intros i Hi. reflexivity.
  - reflexivity.
  - reflexivity.
Defined.

(** C6, counterexample.  All three attempts raise an error whose message
    is the empty string.  The record does not carry that message: the
    fallback of [scrapeFund] puts "Unknown error" in its place. *)
Lemma exhausted_retries_empty_message :
  let run :=
    FundScraper.scrapeFund Sample.silent_error false FundScraper.MAX_RETRIES
      "a" 1 1 Sample.start in
  let record := FundMain.build_result Sample.alpha run.1 0 in
  Sample.silent_error 2 "a" = Raised "" false /\
  FundRecord.error record = Some "Unknown error" /\
  FundRecord.error record <> Some "".
Proof. split; [reflexivity|]. split; [reflexivity|discriminate]. Qed.

(** C6, as amended.  When all [S m] attempts on a fund raise, [scrapeFund]
    returns (it has no way to throw), and the record [main] builds from
    what it returns has the identity fields of the fund, no link at all
    and no [other_socials], and as [error] the message of the last
    failure, or "Unknown error" when that message is empty. *)
Theorem exhausted_retries_record (m : nat)
    (fetch : nat -> string -> Outcome Links.t) (enableScreenshots : bool)
    (fund : Fund.t) (index total : nat) (w : World) (scrapedAt : Z)
    (last : string) (pageOpen : bool) :
  (forall i, i < m ->
     exists message open, fetch (calls w + i) (Fund.key fund) = Raised message open) ->
  fetch (calls w + m) (Fund.key fund) = Raised last pageOpen ->
  let run :=
    FundScraper.scrapeFund fetch enableScreenshots (S m) (Fund.key fund)
      index total w in
  let record := FundMain.build_result fund run.1 scrapedAt in
  calls run.2 = calls w + S m /\
  (FundRecord.id record = Fund.id fund /\
   FundRecord.key record = Fund.key fund /\
   FundRecord.name record = Fund.name fund /\
   FundRecord.tier record = Fund.tier fund /\
   FundRecord.type record = Fund.type fund /\
   FundRecord.url record = Some ("https://cryptorank.io/funds/" +:+ Fund.key fund)) /\
  (FundRecord.top record = Links.none /\ FundRecord.other_socials record = None) /\
  FundRecord.error record =
    Some (if String.eqb last "" then "Unknown error" else last).
Proof.
  intros Hfail Hlast. cbv zeta. unfold FundScraper.scrapeFund.
  destruct (FundScraperFacts.fund_attempts_all_fail fetch enableScreenshots
              (S m) (Fund.key fund) (S m) 1 None w ltac:(lia))
    as (events & C & E & K & R).
  { intros i Hi. destruct (decide (i = m)) as [->|Hne].
    - rewrite Hlast. exact I.
    - destruct (Hfail i ltac:(lia)) as (message & open & ->). exact I. }
  rewrite Hlast in E. rewrite E. split; [exact K|].
  split; [repeat split|]. split; [split; reflexivity|].
  unfold FundMain.build_result, FundScraper.after_failures, FundScraper.exhausted.
  cbn [ScrapeResult.error FundRecord.error or_default].
  destruct (String.eqb_spec last "") as [->|Hne]; [reflexivity|].
  apply or_null_truthy. now apply truthy_Some.
Qed.

(** Three timeouts in a row. *)
Lemma exhausted_retries_record_witness :
  let run :=
    FundScraper.scrapeFund Sample.always_timeout false 3 (Fund.key Sample.alpha)
      1 1 Sample.start in
  let record := FundMain.build_result Sample.alpha run.1 0 in
  calls run.2 = calls Sample.start + 3 /\
  (FundRecord.id record = Fund.id Sample.alpha /\
   FundRecord.key record = Fund.key Sample.alpha /\
   FundRecord.name record = Fund.name Sample.alpha /\
   FundRecord.tier record = Fund.tier Sample.alpha /\
   FundRecord.type record = Fund.type Sample.alpha /\
   FundRecord.url record =
     Some ("https://cryptorank.io/funds/" +:+ Fund.key Sample.alpha)) /\
  (FundRecord.top record = Links.none /\ FundRecord.other_socials record = None) /\
  FundRecord.error record =
    Some (if String.eqb "timeout" "" then "Unknown error" else "timeout").
Proof.
  apply (exhausted_retries_record 2 Sample.always_timeout false Sample.alpha
           1 1 Sample.start 0 "timeout" true).
  - intros i Hi. exists "timeout", true. reflexivity.
  - reflexivity.
Defined.

End RetryClaims.

(** ** Insertion-ordered maps *)

Module JsMapFacts.
Import JsMap.

Section Facts.
Context {V : Type}.
Implicit Types (m : JsMap.t V) (k : string) (v : V).

Lemma get_set m k k' v :
  get k' (set k v m) = if String.eqb k k' then Some v else get k' m.
Proof.
  induction m as [|[k0 v0] m IH]; simpl.
  - reflexivity.
  - destruct (String.eqb_spec k0 k) as [->|Hne]; simpl.
    + destruct (String.eqb_spec k k'); reflexivity.
    + destruct (String.eqb_spec k0 k') as [->|Hne'].
      * destruct (String.eqb_spec k k'); [congruence|reflexivity].
      * exact IH.
Qed.

Lemma elem_of_keys_set m k k' v :
  k' ∈ keys (set k v m) <-> k' = k \/ k' ∈ keys m.
Proof.
  unfold keys. induction m as [|[k0 v0] m IH]; simpl.
  - rewrite list_elem_of_singleton, elem_of_nil. tauto.
  - destruct (String.eqb_spec k0 k) as [->|Hne]; simpl.
    + rewrite !elem_of_cons. tauto.
    + rewrite !elem_of_cons, IH. tauto.
Qed.

Lemma set_fresh m k v : k ∉ keys m -> set k v m = m ++ [(k, v)].
Proof.
  unfold keys. induction m as [|[k0 v0] m IH]; simpl; intros Hk.
  - reflexivity.
  - apply not_elem_of_cons in Hk as [Hne Hk].
    destruct (String.eqb_spec k0 k); [congruence|]. now rewrite IH.
Qed.

Lemma NoDup_keys_set m k v : NoDup (keys m) -> NoDup (keys (set k v m)).
Proof.
  unfold keys. induction m as [|[k0 v0] m IH]; simpl; intros Hm.
  - apply NoDup_singleton.
  - apply NoDup_cons in Hm as [Hk0 Hm].
    destruct (String.eqb_spec k0 k) as [->|Hne]; simpl.
    + apply NoDup_cons. auto.
    + apply NoDup_cons. split; [|auto].
      intros Hin. apply (elem_of_keys_set m k k0 v) in Hin as [?|?]; auto.
Qed.

Lemma get_Some_elem_of m k v : get k m = Some v -> (k, v) ∈ m.
Proof.
  induction m as [|[k0 v0] m IH]; simpl; [discriminate|].
  destruct (String.eqb_spec k0 k) as [->|Hne].
  - intros [= ->]. apply elem_of_cons. now left.
  - intros H. apply elem_of_cons. right. auto.
Qed.

Lemma elem_of_get m k v : NoDup (keys m) -> (k, v) ∈ m -> get k m = Some v.
Proof.
  unfold keys. induction m as [|[k0 v0] m IH]; simpl; intros Hm Hin.
  - now apply elem_of_nil in Hin.
  - apply NoDup_cons in Hm as [Hk0 Hm].
    apply elem_of_cons in Hin as [[= -> ->]|Hin].
    + now rewrite String.eqb_refl.
    + destruct (String.eqb_spec k0 k) as [->|Hne]; [|auto].
      exfalso. apply Hk0. apply list_elem_of_fmap. exists (k, v). auto.
Qed.

Lemma has_keys m k : has k m = true <-> k ∈ keys m.
Proof.
  unfold has, keys. induction m as [|[k0 v0] m IH]; simpl.
  - rewrite elem_of_nil. split; [discriminate|tauto].
  - rewrite elem_of_cons.
    destruct (String.eqb_spec k0 k) as [->|Hne]; [tauto|].
    rewrite IH. split; [tauto|]. intros [?|?]; [congruence|assumption].
Qed.

Lemma has_false m k : has k m = false <-> get k m = None.
Proof. unfold has. destruct (get k m); split; congruence. Qed.

Lemma get_None_keys m k : get k m = None <-> k ∉ keys m.
Proof.
  rewrite <- has_false, <- has_keys. destruct (has k m); split; congruence.
Qed.

(** Setting the entries of a list without repeated keys into a map that
    has none of them appends them in order. *)
Lemma foldl_set_fresh (l : JsMap.t V) :
  forall m, NoDup (keys l) -> (forall k, k ∈ keys l -> k ∉ keys m) ->
    foldl (fun acc entry => set (fst entry) (snd entry) acc) m l = m ++ l.
Proof.
  unfold keys. induction l as [|[k v] l IH]; intros m Hl Hm; simpl.
  - now rewrite app_nil_r.
  - apply NoDup_cons in Hl as [Hk Hl].
    rewrite set_fresh by (apply Hm; apply elem_of_cons; now left).
    rewrite IH; [now rewrite <- app_assoc|exact Hl|].
    intros k' Hk' Hin. rewrite fmap_app in Hin.
    apply elem_of_app in Hin as [Hin|Hin].
    + apply (Hm k'); [apply elem_of_cons; now right|exact Hin].
    + apply list_elem_of_singleton in Hin. simpl in Hin. subst k'. contradiction.
Qed.

End Facts.
End JsMapFacts.

(** ** Cache and merge of the fund entry point *)

Module MergeFacts.
Import FundMain.

Lemma elem_of_List_filter {A : Type} (f : A -> bool) (l : list A) (x : A) :
  x ∈ List.filter f l <-> x ∈ l /\ f x = true.
Proof. rewrite !list_elem_of_In. apply filter_In. Qed.

Lemma NoDup_fmap_List_filter {A B : Type} (g : A -> B) (f : A -> bool) (l : list A) :
  NoDup (g <$> l) -> NoDup (g <$> List.filter f l).
Proof.
  induction l as [|x l IH]; simpl; [auto|].
  intros H. apply NoDup_cons in H as [Hx Hl].
  destruct (f x); [|auto]. simpl. apply NoDup_cons. split; [|auto].
  intros Hin. apply Hx. apply list_elem_of_fmap in Hin as (y & -> & Hy).
  apply list_elem_of_fmap. exists y. split; [reflexivity|].
  now apply elem_of_List_filter in Hy as [Hy _].
Qed.

Lemma with_url_key (k : string) (d : FundRecord.t) :
  FundRecord.key (with_url k d) = FundRecord.key d.
Proof. unfold with_url. now destruct (truthy (FundRecord.url d)). Qed.

Lemma with_url_tier (k : string) (d : FundRecord.t) :
  FundRecord.tier (with_url k d) = FundRecord.tier d.
Proof. unfold with_url. now destruct (truthy (FundRecord.url d)). Qed.

Lemma with_url_idem (k : string) (d : FundRecord.t) :
  with_url k (with_url k d) = with_url k d.
Proof.
  unfold with_url. destruct (truthy (FundRecord.url d)) eqn:E.
  - now rewrite E.
  - reflexivity.
Qed.

Lemma touch_cache_keys (cache : JsMap.t FundRecord.t) :
  JsMap.keys (touch_cache cache) = JsMap.keys cache.
Proof.
  unfold JsMap.keys, touch_cache. rewrite <- list_fmap_compose.
  apply list_fmap_ext. now intros _ [k d] _.
Qed.

Lemma touch_cache_idem (cache : JsMap.t FundRecord.t) :
  touch_cache (touch_cache cache) = touch_cache cache.
Proof.
  unfold touch_cache. rewrite <- list_fmap_compose.
  apply list_fmap_ext. intros _ [k d] _. simpl. now rewrite with_url_idem.
Qed.

Lemma touch_cache_get (cache : JsMap.t FundRecord.t) (k : string) :
  JsMap.get k (touch_cache cache) = with_url k <$> JsMap.get k cache.
Proof.
  induction cache as [|[k0 d0] cache IH]; simpl; [reflexivity|].
  destruct (String.eqb_spec k0 k) as [->|Hne]; [reflexivity|exact IH].
Qed.

Lemma touch_cache_keyed (cache : JsMap.t FundRecord.t) :
  keyed cache -> keyed (touch_cache cache).
Proof.
  intros [Hnd Hk]. split; [now rewrite touch_cache_keys|].
  unfold touch_cache. apply Forall_fmap.
  eapply Forall_impl; [exact Hk|]. intros [k d] H. simpl in *.
  now rewrite with_url_key.
Qed.

Lemma keyed_set (m : JsMap.t FundRecord.t) (r : FundRecord.t) :
  keyed m -> keyed (JsMap.set (FundRecord.key r) r m).
Proof.
  intros [Hnd Hk]. split; [now apply JsMapFacts.NoDup_keys_set|].
  clear Hnd. induction m as [|[k0 d0] m IH]; simpl.
  - repeat constructor.
  - apply Forall_cons in Hk as [H0 Hk].
    destruct (String.eqb_spec k0 (FundRecord.key r)) as [->|Hne].
    + constructor; [reflexivity|exact Hk].
    + constructor; [exact H0|auto].
Qed.

Lemma keyed_empty : keyed JsMap.empty.
Proof. split; constructor. Qed.

(** The records of a keyed map carry the keys of the map, in order. *)
Lemma keyed_values (m : JsMap.t FundRecord.t) :
  keyed m -> FundRecord.key <$> JsMap.values m = JsMap.keys m.
Proof.
  intros [_ Hk]. unfold JsMap.values, JsMap.keys.
  induction m as [|[k d] m IH]; [reflexivity|].
  apply Forall_cons in Hk as [H0 Hk]. simpl in H0.
  rewrite !fmap_cons. simpl. rewrite H0. f_equal. now apply IH.
Qed.

Lemma keyed_get (m : JsMap.t FundRecord.t) (k : string) (r : FundRecord.t) :
  keyed m -> JsMap.get k m = Some r -> FundRecord.key r = k.
Proof.
  intros [_ Hk] Hget. apply JsMapFacts.get_Some_elem_of in Hget.
  rewrite Forall_forall in Hk. apply (Hk (k, r)). exact Hget.
Qed.

Lemma elem_of_values (m : JsMap.t FundRecord.t) (r : FundRecord.t) :
  keyed m ->
  r ∈ JsMap.values m <-> JsMap.get (FundRecord.key r) m = Some r.
Proof.
  intros Hm. split.
  - intros Hin. apply list_elem_of_fmap in Hin as ([k d] & -> & Hin). simpl.
    pose proof Hm as [Hnd Hk]. rewrite Forall_forall in Hk.
    pose proof (Hk _ Hin) as E. simpl in E. rewrite E.
    now apply JsMapFacts.elem_of_get.
  - intros Hget. apply JsMapFacts.get_Some_elem_of in Hget.
    apply list_elem_of_fmap. exists (FundRecord.key r, r). auto.
Qed.

(** *** [loadCache] *)

Lemma cache_step_keyed (cache : JsMap.t FundRecord.t) (fund : FundRecord.t) :
  keyed cache -> keyed (cache_step cache fund).
Proof.
  intros H. unfold cache_step.
  destruct (negb (truthy (FundRecord.error fund)) && hasAnyLink fund); [|exact H].
  now apply keyed_set.
Qed.

Lemma foldl_cache_step_keyed (data : list FundRecord.t) :
  forall cache, keyed cache -> keyed (foldl cache_step cache data).
Proof.
  induction data as [|fund data IH]; intros cache H; simpl; [exact H|].
  apply IH. now apply cache_step_keyed.
Qed.

Lemma loadCache_keyed (stored : Stored FundResultSet.t) : keyed (loadCache stored).
Proof.
  destruct stored; simpl; try apply keyed_empty.
  apply foldl_cache_step_keyed, keyed_empty.
Qed.

(** A missing or unreadable file gives the empty map. *)
Lemma loadCache_no_document (stored : Stored FundResultSet.t) :
  (forall doc, stored <> Holding doc) -> loadCache stored = JsMap.empty.
Proof. destruct stored; intros H; try reflexivity. now destruct (H doc). Qed.

Lemma foldl_cache_step_get (data : list FundRecord.t) (k : string) :
  forall cache,
    JsMap.get k (foldl cache_step cache data) =
      match last_for k (List.filter cacheable data) with
      | Some fund => Some fund
      | None => JsMap.get k cache
      end.
Proof.
  induction data as [|fund data IH]; intros cache; simpl; [reflexivity|].
  rewrite IH. unfold cache_step. fold (cacheable fund).
  destruct (cacheable fund); simpl; [|reflexivity].
  destruct (last_for k (List.filter cacheable data)); [reflexivity|].
  rewrite JsMapFacts.get_set.
  now destruct (String.eqb (FundRecord.key fund) k).
Qed.

(** *** [merge] *)

Lemma last_for_Some (K : string) (results : list FundRecord.t) (r : FundRecord.t) :
  last_for K results = Some r -> r ∈ results /\ FundRecord.key r = K.
Proof.
  induction results as [|r0 results IH]; simpl; [discriminate|].
  destruct (last_for K results) as [later|].
  - intros [= <-]. destruct (IH eq_refl) as [Hin Hk].
    split; [apply elem_of_cons; now right|exact Hk].
  - destruct (String.eqb_spec (FundRecord.key r0) K) as [HK|_]; [|discriminate].
    intros [= <-]. split; [apply elem_of_cons; now left|exact HK].
Qed.

Lemma last_for_None (K : string) (results : list FundRecord.t) :
  last_for K results = None <-> K ∉ (FundRecord.key <$> results).
Proof.
  induction results as [|r0 results IH]; cbn [last_for].
  - rewrite fmap_nil, elem_of_nil. tauto.
  - rewrite fmap_cons, not_elem_of_cons, <- IH.
    destruct (last_for K results).
    + split; [discriminate|]. intros [_ H]. discriminate.
    + destruct (String.eqb_spec (FundRecord.key r0) K) as [HK|HK].
      * split; [discriminate|]. intros [H _]. congruence.
      * split; [|reflexivity]. intros _. split; [congruence|reflexivity].
Qed.

(** In a batch with one record for the key, that record is the last. *)
Lemma last_for_only (K : string) (results : list FundRecord.t) (r : FundRecord.t) :
  r ∈ results -> FundRecord.key r = K ->
  (forall r', r' ∈ results -> FundRecord.key r' = K -> r' = r) ->
  last_for K results = Some r.
Proof.
  intros Hin HK Honly.
  destruct (last_for K results) as [later|] eqn:Hlast.
  - destruct (last_for_Some _ _ _ Hlast) as [Hl Hk].
    now rewrite (Honly later Hl Hk).
  - apply last_for_None in Hlast. exfalso. apply Hlast.
    rewrite <- HK. now apply list_elem_of_fmap_2.
Qed.

Lemma foldl_results_get (results : list FundRecord.t) (k : string) :
  forall m : JsMap.t FundRecord.t,
    JsMap.get k (foldl (fun acc r => JsMap.set (FundRecord.key r) r acc) m results) =
      match last_for k results with
      | Some r => Some r
      | None => JsMap.get k m
      end.
Proof.
  induction results as [|r0 results IH]; intros m; simpl; [reflexivity|].
  rewrite IH. destruct (last_for k results); [reflexivity|].
  rewrite JsMapFacts.get_set.
  now destruct (String.eqb (FundRecord.key r0) k).
Qed.

Lemma foldl_results_keyed (results : list FundRecord.t) :
  forall m : JsMap.t FundRecord.t,
    keyed m ->
    keyed (foldl (fun acc r => JsMap.set (FundRecord.key r) r acc) m results).
Proof.
  induction results as [|r0 results IH]; intros m H; simpl; [exact H|].
  apply IH. now apply keyed_set.
Qed.

(** The first loop of a merge copies the cache as it is (its records
    given a [url]). *)
Lemma merge_cached (cache : JsMap.t FundRecord.t) :
  keyed cache ->
  foldl (fun m entry => JsMap.set (fst entry) (snd entry) m)
        JsMap.empty (touch_cache cache) = touch_cache cache.
Proof.
  intros [Hnd _].
  rewrite JsMapFacts.foldl_set_fresh; [reflexivity| |].
  - now rewrite touch_cache_keys.
  - intros k _ Hin. now apply elem_of_nil in Hin.
Qed.

Lemma merge_keyed (cache : JsMap.t FundRecord.t) (newResults : list FundRecord.t) :
  keyed cache -> keyed (merge cache newResults).
Proof.
  intros H. unfold merge. rewrite merge_cached by exact H.
  apply foldl_results_keyed. now apply touch_cache_keyed.
Qed.

(** What a merge holds under a key: the last new result for the key, or
    else the cached record. *)
Lemma merge_get (cache : JsMap.t FundRecord.t) (newResults : list FundRecord.t)
    (k : string) :
  keyed cache ->
  JsMap.get k (merge cache newResults) =
    match last_for k newResults with
    | Some r => Some r
    | None => with_url k <$> JsMap.get k cache
    end.
Proof.
  intros H. unfold merge. rewrite merge_cached by exact H.
  rewrite foldl_results_get. now rewrite touch_cache_get.
Qed.

Lemma merge_touch (cache : JsMap.t FundRecord.t) (newResults : list FundRecord.t) :
  merge (touch_cache cache) newResults = merge cache newResults.
Proof. unfold merge. now rewrite touch_cache_idem. Qed.

Section Sorted.
Variable localeCompare : string -> string -> Z.

Lemma insert_perm (x : FundRecord.t) (l : list FundRecord.t) :
  insert localeCompare x l ≡ₚ x :: l.
Proof.
  induction l as [|y l IH]; simpl; [reflexivity|].
  destruct (Z.leb (compare localeCompare x y) 0); [reflexivity|].
  rewrite IH. apply Permutation_swap.
Qed.

Lemma sort_perm (l : list FundRecord.t) : sort localeCompare l ≡ₚ l.
Proof.
  unfold sort. induction l as [|x l IH]; simpl; [reflexivity|].
  now rewrite insert_perm, IH.
Qed.

Lemma merged_NoDup (includeTier2 : bool) (cache : JsMap.t FundRecord.t)
    (newResults : list FundRecord.t) :
  keyed cache ->
  NoDup (FundRecord.key <$> merged localeCompare includeTier2 cache newResults).
Proof.
  intros H. unfold merged, allResults. rewrite sort_perm.
  apply NoDup_fmap_List_filter.
  pose proof (merge_keyed cache newResults H) as Hm.
  rewrite (keyed_values _ Hm). apply Hm.
Qed.

Lemma elem_of_merged (includeTier2 : bool) (cache : JsMap.t FundRecord.t)
    (newResults : list FundRecord.t) (r : FundRecord.t) :
  keyed cache ->
  r ∈ merged localeCompare includeTier2 cache newResults <->
  Api.includes_tier (targetTiers includeTier2) (FundRecord.tier r) = true /\
  JsMap.get (FundRecord.key r) (merge cache newResults) = Some r.
Proof.
  intros H. unfold merged, allResults. rewrite sort_perm.
  rewrite elem_of_List_filter.
  rewrite (elem_of_values _ _ (merge_keyed cache newResults H)). tauto.
Qed.

(** What a merge holds for a key of the batch: the last new record for it
    and no other record, that one being kept when its tier is a target
    tier. *)
Lemma merged_new_record (includeTier2 : bool) (cache : JsMap.t FundRecord.t)
    (newResults : list FundRecord.t) (K : string) (R2 : FundRecord.t) :
  keyed cache ->
  last_for K newResults = Some R2 ->
  let data := merged localeCompare includeTier2 cache newResults in
  (forall r, r ∈ data -> FundRecord.key r = K -> r = R2) /\
  (R2 ∈ data <->
   Api.includes_tier (targetTiers includeTier2) (FundRecord.tier R2) = true).
Proof.
  intros Hc Hlast. cbv zeta. split.
  - intros r Hin HK. apply (elem_of_merged _ _ _ _ Hc) in Hin as [_ Hget].
    rewrite (merge_get _ _ _ Hc), HK, Hlast in Hget. congruence.
  - rewrite (elem_of_merged _ _ _ _ Hc), (merge_get _ _ _ Hc).
    destruct (last_for_Some _ _ _ Hlast) as [_ ->]. rewrite Hlast. tauto.
Qed.

End Sorted.

End MergeFacts.

(** ** The fund entry point *)

Module FundMainFacts.
Import FundMain MergeFacts.

Section Facts.
Variable localeCompare : string -> string -> Z.
Variable response : option (list Fund.t).
Variable connectOk : bool.
Variable fetch : nat -> string -> Outcome Links.t.
Variable now : nat -> Z.
Variable writeOk : nat -> bool.
Variable maxRetries : nat.
Variable includeTier2 enableScreenshots : bool.

Local Abbreviation writeFile := (writeFile writeOk includeTier2).
Local Abbreviation savePartialResults :=
  (savePartialResults localeCompare now writeOk includeTier2).
Local Abbreviation scrape_from :=
  (scrape_from localeCompare fetch now writeOk maxRetries includeTier2
     enableScreenshots).
Local Abbreviation main :=
  (main localeCompare response connectOk fetch now writeOk maxRetries
     includeTier2 enableScreenshots).

Lemma read_write_output (doc : FundResultSet.t) (f : Files.t) :
  read_output includeTier2 (write_output includeTier2 doc f) = Holding doc.
Proof. unfold read_output, write_output. now destruct includeTier2. Qed.

Lemma writeFile_steps (output : FundResultSet.t) (w : World) :
  continues w (writeFile output w).2
    [EvWrite (outputFile includeTier2) (writeFile output w).1] /\
  ((writeFile output w).1 = true ->
   read_output includeTier2 (files (writeFile output w).2) = Holding output).
Proof.
  unfold FundMain.writeFile. destruct (writeOk (length (trace w))); simpl.
  - split; [reflexivity|]. intros _. apply read_write_output.
  - split; [reflexivity|discriminate].
Qed.

Lemma savePartialResults_steps (cache : JsMap.t FundRecord.t)
    (newResults : list FundRecord.t) (startTime : Z) (w : World) :
  (savePartialResults cache newResults startTime w).1.2 = touch_cache cache /\
  exists ok,
    continues w (savePartialResults cache newResults startTime w).2
      [EvWrite (outputFile includeTier2) ok].
Proof.
  unfold FundMain.savePartialResults.
  set (output := FundResultSet.mk _ _).
  pose proof (writeFile_steps output w) as [C _].
  destruct (writeFile output w) as [ok w']. simpl in *. eauto.
Qed.

(** The loop of step 4: the records it adds, the cache it leaves, the
    steps it takes. *)
Lemma scrape_from_run (todo : list Fund.t) :
  forall (i total : nat) (startTime : Z) (p : Progress) (w : World),
    let run := scrape_from todo i total startTime p w in
    (exists built,
       p_newResults run.1 = p_newResults p ++ built /\
       Forall2 built_from built todo) /\
    p_cache run.1 =
      (match todo with [] => p_cache p | _ => touch_cache (p_cache p) end) /\
    exists events,
      continues w run.2 events /\
      (i + length todo = total ->
       unit_steps events = units_apart DELAY_BETWEEN_REQUESTS_MS (length todo)).
Proof.
  induction todo as [|fund later IH]; intros i total startTime p w; cbv zeta.
  - simpl. split; [exists []; split; [now rewrite app_nil_r|constructor]|].
    split; [reflexivity|]. exists []. split; [apply continues_refl|reflexivity].
  - cbn [FundMain.scrape_from].
    set (w1 := emit (EvUnit (TFund (Fund.key fund))) w).
    destruct (FundScraperFacts.fund_attempts_frame fetch enableScreenshots
                maxRetries (Fund.key fund) (seq 1 maxRetries) None w1)
      as (e2 & C2 & U2 & _).
    unfold FundScraper.scrapeFund.
    destruct (FundScraper.attempts fetch enableScreenshots maxRetries
                (seq 1 maxRetries) (Fund.key fund) None w1)
      as [scrapeResult w2]. simpl in C2.
    set (result := build_result fund scrapeResult (clock now w2)).
    destruct (savePartialResults_steps (p_cache p) (p_newResults p ++ [result])
                startTime w2) as (Hc & ok & C3).
    destruct (savePartialResults (p_cache p) (p_newResults p ++ [result])
                startTime w2) as [[ok' cache'] w3]. simpl in Hc, C3. subst cache'.
    set (w4 := if Z.ltb (Z.of_nat i) (Z.of_nat total - 1) then _ else w3).
    set (p' := mkProgress _ _ _ _).
    destruct (IH (S i) total startTime p' w4) as ((built & Hb & Hf) & Hcache & e5 & C5 & U5).
    split; [|split].
    + exists (result :: built). split.
      * rewrite Hb. subst p'. simpl. now rewrite <- app_assoc.
      * constructor; [split; reflexivity|exact Hf].
    + rewrite Hcache. subst p'. simpl.
      destruct later; [reflexivity|apply touch_cache_idem].
    + assert (C4 : continues w3 w4
                (if Z.ltb (Z.of_nat i) (Z.of_nat total - 1)
                 then [EvThrottle DELAY_BETWEEN_REQUESTS_MS] else [])).
      { subst w4. destruct (Z.ltb _ _); [reflexivity|apply continues_refl]. }
      eexists. split.
      * eapply continues_trans; [|exact C5].
        eapply continues_trans; [|exact C4].
        eapply continues_trans; [|exact C3].
        eapply continues_trans; [|exact C2].
        apply continues_emit.
      * intros Htotal. simpl in Htotal.
        rewrite !unit_steps_app, U2, U5 by lia.
        cbn [unit_steps omap unit_step app].
        destruct later as [|next later'].
        -- assert (Hlast : Z.ltb (Z.of_nat i) (Z.of_nat total - 1) = false)
             by (apply Z.ltb_ge; simpl in Htotal; lia).
           rewrite Hlast. reflexivity.
        -- assert (Hmore : Z.ltb (Z.of_nat i) (Z.of_nat total - 1) = true)
             by (apply Z.ltb_lt; simpl in Htotal; lia).
           rewrite Hmore. reflexivity.
Qed.

Lemma submitted_tiers (funds : list Fund.t) (f : Fund.t) :
  submitted response includeTier2 = Some funds -> f ∈ funds ->
  Api.includes_tier (targetTiers includeTier2) (Fund.tier f) = true.
Proof.
  unfold submitted, Api.fetchTier1And2Funds, Api.fetchTier1Funds,
    Api.fetchFundsByTiers, targetTiers.
  destruct response as [all|]; [|destruct includeTier2; discriminate].
  destruct includeTier2; intros [= <-] Hin;
    now apply elem_of_List_filter in Hin as [_ Hin].
Qed.

(** C5.  Let the cache built from the stored file hold a record [R1]
    under the key [K], and let the batch of new results be one that
    [main] can build: each of its records carries the key and the tier of
    a fund that the upstream source listed for the run.  Let [R2] be the
    record of the batch for [K]; [main] builds one record for each fund
    it scrapes, and should the batch hold several records for [K], [R2]
    is the one built last ([last_for_only]).  Then the merged [data] has
    at most one record per key, it contains [R2], and every record of it
    with key [K] is [R2]: the new record has overwritten the cached
    one. *)
Theorem merge_new_overwrites_cached (stored : Stored FundResultSet.t)
    (funds : list Fund.t) (newResults : list FundRecord.t)
    (K : string) (R1 R2 : FundRecord.t) :
  submitted response includeTier2 = Some funds ->
  Forall (fun record => exists fund, fund ∈ funds /\ built_from record fund)
         newResults ->
  JsMap.get K (loadCache stored) = Some R1 ->
  last_for K newResults = Some R2 ->
  let data := merged localeCompare includeTier2 (loadCache stored) newResults in
  NoDup (FundRecord.key <$> data) /\
  R2 ∈ data /\
  (forall r, r ∈ data -> FundRecord.key r = K -> r = R2).
Proof.
  intros Hs Hbuilt _ Hlast. cbv zeta.
  pose proof (loadCache_keyed stored) as Hc.
  destruct (merged_new_record localeCompare includeTier2 _ _ _ _ Hc Hlast)
    as [Honly Hin].
  split; [now apply merged_NoDup|]. split; [|exact Honly].
  apply Hin. destruct (last_for_Some _ _ _ Hlast) as [Hnew _].
  rewrite Forall_forall in Hbuilt.
  destruct (Hbuilt R2 Hnew) as (fund & Hfund & _ & ->).
  now apply (submitted_tiers funds).
Qed.

(** A run with nothing to scrape stops before it touches anything. *)
Lemma main_from_cache (funds : list Fund.t) (w : World) :
  submitted response includeTier2 = Some funds ->
  (forall f, f ∈ funds ->
     JsMap.has (Fund.key f) (loadCache (read_output includeTier2 (files w))) = true) ->
  main w = (FromCache, w).
Proof.
  intros Hs Hall. unfold FundMain.main. rewrite Hs.
  assert (Hnil : fundsToScrape funds
                   (loadCache (read_output includeTier2 (files w))) = []).
  { unfold fundsToScrape. clear Hs.
    induction funds as [|f funds IH]; simpl; [reflexivity|].
    rewrite (Hall f) by (apply elem_of_cons; now left). simpl.
    apply IH. intros f' Hf'. apply Hall. apply elem_of_cons. now right. }
  rewrite Hnil. reflexivity.
Qed.

(** What a completed run leaves in the output file. *)
Lemma main_completed (w w' : World) :
  main w = (Completed, w') ->
  exists funds newResults output,
    submitted response includeTier2 = Some funds /\
    Forall2 built_from newResults
      (fundsToScrape funds (loadCache (read_output includeTier2 (files w)))) /\
    read_output includeTier2 (files w') = Holding output /\
    FundResultSet.data output =
      merged localeCompare includeTier2
        (loadCache (read_output includeTier2 (files w))) newResults.
Proof.
  unfold FundMain.main.
  destruct (submitted response includeTier2) as [funds|] eqn:Hs; [|discriminate].
  set (cache := loadCache (read_output includeTier2 (files w))).
  set (todo := fundsToScrape funds cache).
  destruct (Nat.eqb (length todo) 0) eqn:Hlen; [discriminate|].
  destruct connectOk; [|discriminate]. cbn [negb].
  set (w1 := emit (EvConnect true) w).
  pose proof (scrape_from_run todo 0 (length todo) (clock now w)
                (mkProgress cache [] 0 0) w1) as Hrun.
  cbv zeta in Hrun.
  destruct (scrape_from todo 0 (length todo) (clock now w)
              (mkProgress cache [] 0 0) w1) as [p w2].
  simpl in Hrun. destruct Hrun as ((built & Hb & Hf) & Hcache & _).
  set (output := FundResultSet.mk _ _).
  pose proof (writeFile_steps output (emit EvDisconnect w2)) as [_ Hw].
  destruct (writeFile output (emit EvDisconnect w2)) as [ok w4]. simpl in Hw.
  destruct ok; [|discriminate]. intros [= <-].
  exists funds, built, output. split; [reflexivity|]. split; [exact Hf|].
  split; [now apply Hw|].
  subst output. simpl. rewrite Hb, Hcache. unfold merged.
  destruct todo; [discriminate|]. now rewrite merge_touch.
Qed.

Lemma Forall2_built_keys (newResults : list FundRecord.t) (todo : list Fund.t) :
  Forall2 built_from newResults todo ->
  FundRecord.key <$> newResults = Fund.key <$> todo.
Proof.
  induction 1 as [|r f rs fs [Hk _] _ IH]; [reflexivity|].
  rewrite !fmap_cons. now rewrite Hk, IH.
Qed.

Lemma Forall2_built_elem (newResults : list FundRecord.t) (todo : list Fund.t)
    (r : FundRecord.t) :
  Forall2 built_from newResults todo -> r ∈ newResults ->
  exists f, f ∈ todo /\ built_from r f.
Proof.
  induction 1 as [|r0 f rs fs H0 _ IH]; intros Hin.
  - now apply elem_of_nil in Hin.
  - apply elem_of_cons in Hin as [->|Hin].
    + exists f. split; [apply elem_of_cons; now left|exact H0].
    + destruct (IH Hin) as (f' & Hf' & Hb).
      exists f'. split; [apply elem_of_cons; now right|exact Hb].
Qed.

Lemma elem_of_fundsToScrape (funds : list Fund.t) (cache : JsMap.t FundRecord.t)
    (k : string) :
  k ∈ (Fund.key <$> fundsToScrape funds cache) <->
  k ∈ (Fund.key <$> funds) /\ JsMap.has k cache = false.
Proof.
  unfold fundsToScrape. rewrite !list_elem_of_fmap. split.
  - intros (f & -> & Hin). apply elem_of_List_filter in Hin as [Hin Hc].
    split; [eauto|]. now apply negb_true_iff in Hc.
  - intros [(f & -> & Hin) Hc]. exists f. split; [reflexivity|].
    apply elem_of_List_filter. split; [exact Hin|]. now rewrite Hc.
Qed.

(** C1, as amended.  When a run scrapes at least one target and completes,
    the final persisted ResultSet holds at most one Record per key, and its
    keys are exactly: the submitted keys that were not served from the
    cache, and the cached keys whose Record has a target tier.  So every
    submitted key is present and the number of Records equals the number of
    unique submitted keys as soon as every cached Record belongs to a
    submitted key and has a target tier; a cached Record of a key that is
    no longer submitted stays in the file. *)
Theorem final_result_set_keys (w w' : World) :
  main w = (Completed, w') ->
  exists funds output,
    submitted response includeTier2 = Some funds /\
    read_output includeTier2 (files w') = Holding output /\
    let cache := loadCache (read_output includeTier2 (files w)) in
    let keys := FundRecord.key <$> FundResultSet.data output in
    NoDup keys /\
    (forall k,
       k ∈ keys <->
       (k ∈ (Fund.key <$> funds) /\ JsMap.has k cache = false) \/
       (exists r, JsMap.get k cache = Some r /\
          Api.includes_tier (targetTiers includeTier2) (FundRecord.tier r) = true)) /\
    ((forall k r, JsMap.get k cache = Some r ->
        k ∈ (Fund.key <$> funds) /\
        Api.includes_tier (targetTiers includeTier2) (FundRecord.tier r) = true) ->
     length (FundResultSet.data output) = length (remove_dups (Fund.key <$> funds))).
Proof.
  intros Hmain.
  destruct (main_completed w w' Hmain)
    as (funds & newResults & output & Hs & Hf & Hfile & Hdata).
  exists funds, output. split; [exact Hs|]. split; [exact Hfile|]. cbv zeta.
  set (cache := loadCache (read_output includeTier2 (files w))) in *.
  pose proof (loadCache_keyed (read_output includeTier2 (files w))) as Hc.
  fold cache in Hc. rewrite Hdata.
  pose proof (Forall2_built_keys _ _ Hf) as Hkeys.
  assert (Hnd : NoDup (FundRecord.key <$>
                  merged localeCompare includeTier2 cache newResults))
    by now apply merged_NoDup.
  assert (Hiff : forall k,
    k ∈ (FundRecord.key <$> merged localeCompare includeTier2 cache newResults) <->
    (k ∈ (Fund.key <$> funds) /\ JsMap.has k cache = false) \/
    (exists r, JsMap.get k cache = Some r /\
       Api.includes_tier (targetTiers includeTier2) (FundRecord.tier r) = true)).
  { intros k. split.
    - intros Hin. apply list_elem_of_fmap in Hin as (r & -> & Hin).
      apply (elem_of_merged _ _ _ _ _ Hc) in Hin as [Htier Hget].
      rewrite (merge_get _ _ _ Hc) in Hget.
      destruct (last_for (FundRecord.key r) newResults) as [r'|] eqn:Hlast.
      + left. apply elem_of_fundsToScrape. rewrite <- Hkeys.
        apply last_for_Some in Hlast as [Hin' Hk'].
        rewrite <- Hk'. now apply list_elem_of_fmap_2.
      + right. destruct (JsMap.get (FundRecord.key r) cache) as [d|];
          [|discriminate].
        simpl in Hget. injection Hget as Hr.
        exists d. split; [reflexivity|].
        rewrite <- Hr, with_url_tier in Htier. exact Htier.
    - intros [Hleft|(d & Hget & Htier)].
      + apply elem_of_fundsToScrape in Hleft. rewrite <- Hkeys in Hleft.
        destruct (last_for k newResults) as [r|] eqn:Hlast.
        2:{ apply last_for_None in Hlast. contradiction. }
        pose proof (last_for_Some _ _ _ Hlast) as [Hin Hk].
        destruct (Forall2_built_elem _ _ _ Hf Hin) as (f & Hfin & _ & Ht).
        apply list_elem_of_fmap. exists r. split; [now rewrite Hk|].
        apply (elem_of_merged _ _ _ _ _ Hc). split.
        * rewrite Ht. apply (submitted_tiers funds); [exact Hs|].
          unfold fundsToScrape in Hfin.
          now apply elem_of_List_filter in Hfin as [Hfin _].
        * rewrite (merge_get _ _ _ Hc), Hk, Hlast. reflexivity.
      + assert (Hnone : last_for k newResults = None).
        { apply last_for_None. rewrite Hkeys.
          intros Hin. apply elem_of_fundsToScrape in Hin as [_ Hhas].
          apply JsMapFacts.has_false in Hhas. congruence. }
        apply list_elem_of_fmap. exists (with_url k d).
        pose proof (keyed_get _ _ _ Hc Hget) as Hk.
        split; [now rewrite with_url_key|].
        apply (elem_of_merged _ _ _ _ _ Hc). split.
        * now rewrite with_url_tier.
        * rewrite with_url_key, Hk, (merge_get _ _ _ Hc), Hnone, Hget.
          reflexivity. }
  split; [exact Hnd|]. split; [exact Hiff|].
  intros Hcovered.
  rewrite <- (length_fmap FundRecord.key).
  apply Permutation_length, list.NoDup_Permutation;
    [exact Hnd|apply NoDup_remove_dups|].
  intros k. rewrite Hiff, elem_of_remove_dups. split.
  - intros [[Hin _]|(d & Hget & _)]; [exact Hin|].
    now destruct (Hcovered _ _ Hget).
  - intros Hin. destruct (JsMap.get k cache) as [d|] eqn:Hget.
    + right. exists d. split; [reflexivity|]. now destruct (Hcovered _ _ Hget).
    + left. split; [exact Hin|]. now apply JsMapFacts.has_false.
Qed.

(** A file whose records are all kept by [loadCache] and cover the
    submitted keys makes the run stop at once: no fetch, no write. *)
Lemma loadCache_get (stored : Stored FundResultSet.t) (k : string) :
  JsMap.get k (loadCache stored) =
    match stored with
    | Holding json => last_for k (List.filter cacheable (FundResultSet.data json))
    | _ => None
    end.
Proof.
  destruct stored; try reflexivity. simpl.
  rewrite foldl_cache_step_get.
  now destruct (last_for k (List.filter cacheable (FundResultSet.data doc))).
Qed.

Lemma run_over_cacheable_file (funds : list Fund.t) (prior : FundResultSet.t)
    (w : World) :
  submitted response includeTier2 = Some funds ->
  read_output includeTier2 (files w) = Holding prior ->
  (forall f, f ∈ funds ->
     exists r, r ∈ FundResultSet.data prior /\
               FundRecord.key r = Fund.key f /\ cacheable r = true) ->
  main w = (FromCache, w).
Proof.
  intros Hs Hfile Hall. apply (main_from_cache funds); [exact Hs|].
  intros f Hf. destruct (Hall f Hf) as (r & Hr & Hk & Hc).
  destruct (JsMap.has (Fund.key f) (loadCache (read_output includeTier2 (files w))))
    eqn:Hhas; [reflexivity|exfalso].
  apply JsMapFacts.has_false in Hhas.
  rewrite loadCache_get, Hfile in Hhas.
  apply last_for_None in Hhas. apply Hhas.
  rewrite <- Hk. apply list_elem_of_fmap_2.
  apply elem_of_List_filter. auto.
Qed.

(** The steps of a run of the fund entry point. *)
Lemma fund_main_steps (w : World) :
  exists events,
    continues w (main w).2 events /\
    unit_steps events =
      units_apart DELAY_BETWEEN_REQUESTS_MS
        (units response connectOk includeTier2 w).
Proof.
  unfold FundMain.main, units.
  destruct (submitted response includeTier2) as [funds|].
  2:{ exists []. split; [apply continues_refl|reflexivity]. }
  set (todo := fundsToScrape funds _).
  destruct (Nat.eqb (length todo) 0) eqn:Hlen.
  { apply Nat.eqb_eq in Hlen. rewrite Hlen.
    exists []. split; [apply continues_refl|]. now destruct connectOk. }
  destruct connectOk; cbn [negb].
  2:{ exists [EvConnect false]. split; [apply continues_emit|reflexivity]. }
  set (w1 := emit (EvConnect true) w).
  pose proof (scrape_from_run todo 0 (length todo) (clock now w)
                (mkProgress (loadCache (read_output includeTier2 (files w))) [] 0 0)
                w1) as Hrun.
  cbv zeta in Hrun.
  destruct (scrape_from todo 0 (length todo) (clock now w)
              (mkProgress (loadCache (read_output includeTier2 (files w))) [] 0 0)
              w1) as [p w2].
  simpl in Hrun. destruct Hrun as (_ & _ & e2 & C2 & U2).
  set (output := FundResultSet.mk _ _).
  pose proof (writeFile_steps output (emit EvDisconnect w2)) as [C4 _].
  destruct (writeFile output (emit EvDisconnect w2)) as [ok w4]. simpl in C4.
  exists ((([EvConnect true] ++ e2) ++ [EvDisconnect])
            ++ [EvWrite (outputFile includeTier2) ok]).
  split.
  - assert (C : continues w w4
                  ((([EvConnect true] ++ e2) ++ [EvDisconnect])
                     ++ [EvWrite (outputFile includeTier2) ok])).
    { eapply continues_trans; [|exact C4].
      eapply continues_trans; [|apply continues_emit].
      eapply continues_trans; [apply continues_emit|exact C2]. }
    now destruct ok.
  - rewrite !unit_steps_app, U2 by reflexivity. simpl. now rewrite !app_nil_r.
Qed.

End Facts.

(** C1, counterexample.  One target, "a", is submitted; the file of the
    previous run holds a good record of "b", which the upstream source no
    longer lists.  The run scrapes "a" and completes, and the final
    ResultSet holds two Records for one unique submitted key: "b" is still
    there. *)
Lemma stale_cached_record_is_kept :
  let w :=
    mkWorld 0 (Files.mk (Sample.holding [Sample.stored_beta]) Absent Absent Absent) [] in
  let run :=
    main Sample.localeCompare (Some [Sample.alpha]) true Sample.finds_website
      Sample.now Sample.writeOk 3 false false w in
  submitted (Some [Sample.alpha]) false = Some [Sample.alpha] /\
  run.1 = Completed /\
  exists output,
    read_output false (files run.2) = Holding output /\
    FundRecord.key <$> FundResultSet.data output = ["a"; "b"] /\
    length (FundResultSet.data output) = 2 /\
    length (remove_dups (Fund.key <$> [Sample.alpha])) = 1.
Proof.
  cbv zeta. split; [reflexivity|]. split; [reflexivity|].
  eexists. split; [reflexivity|]. repeat split.
Qed.

(** A stored record of "a" and the record that a later scrape of "a"
    built, the upstream source listing "a" and "b". *)
Lemma merge_new_overwrites_cached_witness :
  let data :=
    merged Sample.localeCompare false
      (loadCache (Sample.holding [Sample.stored_alpha])) [Sample.alpha_telegram] in
  NoDup (FundRecord.key <$> data) /\
  Sample.alpha_telegram ∈ data /\
  (forall r, r ∈ data -> FundRecord.key r = "a" -> r = Sample.alpha_telegram).
Proof.
  apply (merge_new_overwrites_cached Sample.localeCompare
           (Some [Sample.alpha; Sample.beta]) false
           (Sample.holding [Sample.stored_alpha]) [Sample.alpha; Sample.beta]
           [Sample.alpha_telegram] "a" Sample.stored_alpha Sample.alpha_telegram).
  - reflexivity.
  - constructor; [|constructor]. exists Sample.alpha.
    split; [constructor|split; reflexivity].
  - reflexivity.
  - reflexivity.
Defined.

(** A first run over two targets, one of which fails three times. *)
Lemma final_result_set_keys_witness :
  exists funds output,
    submitted (Some [Sample.alpha; Sample.beta]) false = Some funds /\
    read_output false
      (files (main Sample.localeCompare (Some [Sample.alpha; Sample.beta]) true
                Sample.fails_once Sample.now Sample.writeOk 3 false false
                Sample.start).2) = Holding output /\
    let cache := loadCache (read_output false (files Sample.start)) in
    let keys := FundRecord.key <$> FundResultSet.data output in
    NoDup keys /\
    (forall k,
       k ∈ keys <->
       (k ∈ (Fund.key <$> funds) /\ JsMap.has k cache = false) \/
       (exists r, JsMap.get k cache = Some r /\
          Api.includes_tier (targetTiers false) (FundRecord.tier r) = true)) /\
    ((forall k r, JsMap.get k cache = Some r ->
        k ∈ (Fund.key <$> funds) /\
        Api.includes_tier (targetTiers false) (FundRecord.tier r) = true) ->
     length (FundResultSet.data output) = length (remove_dups (Fund.key <$> funds))).
Proof.
  apply (final_result_set_keys Sample.localeCompare (Some [Sample.alpha; Sample.beta])
           true Sample.fails_once Sample.now Sample.writeOk 3 false false
           Sample.start).
  reflexivity.
Defined.

(** C7, at the failing input.  The file holds one record, the one [main]
    writes for a fund whose page shows a Telegram link and nothing else:
    its [error] is [null] and its [other_socials] is populated.
    [loadCache] returns the empty map: it looks for the links at the top
    level of the record, where [main] writes only [website] and
    [twitter]. *)
Lemma loadCache_misses_other_socials :
  FundRecord.error Sample.alpha_telegram = None /\
  FundRecord.other_socials Sample.alpha_telegram
    = Some [("telegram", "https://t.me/a")] /\
  loadCache (Sample.holding [Sample.alpha_telegram]) = JsMap.empty.
Proof. repeat split. Qed.

(** C2, at the failing input.  The upstream source lists one fund, whose
    page shows a Telegram link and nothing else.  The first run scrapes it
    and persists a ResultSet without any error.  The second run, on the
    same source and on that file, does not skip the fund: it connects and
    fetches the page again. *)
Lemma second_run_fetches_again :
  let run (w : World) :=
    main Sample.localeCompare (Some [Sample.alpha]) true Sample.finds_telegram
      Sample.now Sample.writeOk FundScraper.MAX_RETRIES false false w in
  let first := run Sample.start in
  let second := run first.2 in
  first.1 = Completed /\
  (exists prior,
     read_output false (files first.2) = Holding prior /\
     FundResultSet.data prior = [Sample.alpha_telegram] /\
     Forall (fun r => FundRecord.error r = None) (FundResultSet.data prior)) /\
  second.1 = Completed /\
  calls second.2 = calls first.2 + 1 /\
  drop (length (trace first.2)) (trace second.2) =
    [EvConnect true; EvUnit (TFund "a"); EvAttempt (TFund "a") 1;
     EvWrite "./output/tier1-vcs.json" true; EvDisconnect;
     EvWrite "./output/tier1-vcs.json" true].
Proof.
  cbv zeta. split; [reflexivity|]. split.
  - eexists. split; [reflexivity|]. split; [reflexivity|].
    repeat constructor.
  - repeat split.
Qed.

End FundMainFacts.

(** ** The funding-rounds and project-details entry points *)

Module RoundsMainFacts.
Import RoundsMain.

Section Facts.
Variable connectOk : bool.
Variable fetch : nat -> nat -> Outcome (list Row.t).
Variable parseDateToISO : option string -> option string.
Variable now : nat -> Z.
Variable writeOk : nat -> bool.
Variable maxRetries : nat.
Variable limit : nat.

Local Abbreviation saveResults := (saveResults now writeOk limit).
Local Abbreviation scrape_pages :=
  (scrape_pages fetch parseDateToISO now writeOk maxRetries limit).
Local Abbreviation main :=
  (main connectOk fetch parseDateToISO now writeOk maxRetries limit).

Lemma rounds_saveResults_steps (data : list Round.t) (pagesScraped : nat)
    (startTime : Z) (partial : bool) (w : World) :
  continues w (saveResults data pagesScraped startTime partial w).2
    [EvWrite OUTPUT_FILE (saveResults data pagesScraped startTime partial w).1].
Proof.
  unfold RoundsMain.saveResults. now destruct (writeOk (length (trace w))).
Qed.

(** The loop over the pages [a], [a+1], ..., [pages]. *)
Lemma scrape_pages_run (n : nat) :
  forall (a pages : nat) (startTime : Z) (p : Progress) (w : World),
    a + n = S pages ->
    exists events,
      continues w (scrape_pages (seq a n) pages startTime p w).2 events /\
      unit_steps events = units_apart DELAY_BETWEEN_PAGES_MS n.
Proof.
  induction n as [|n IH]; intros a pages startTime p w Ha.
  - exists []. split; [apply continues_refl|reflexivity].
  - cbn [seq RoundsMain.scrape_pages].
    set (w1 := emit (EvUnit (TPage a)) w).
    destruct (RoundsScraperFacts.page_attempts_frame fetch parseDateToISO now
                maxRetries a (seq 1 maxRetries) None w1) as (e2 & C2 & U2 & _).
    unfold RoundsScraper.scrapePage.
    destruct (RoundsScraper.attempts fetch parseDateToISO now maxRetries
                (seq 1 maxRetries) a None w1) as [result w2]. simpl in C2.
    set (p' := if truthy (PageResult.error result) then _ else _).
    pose proof (rounds_saveResults_steps (allData p') (pagesScraped p')
                  startTime true w2) as C3.
    destruct (saveResults (allData p') (pagesScraped p') startTime true w2)
      as [ok w3]. simpl in C3.
    set (w4 := if Nat.ltb a pages then _ else w3).
    assert (C4 : continues w3 w4
              (if Nat.ltb a pages then [EvThrottle DELAY_BETWEEN_PAGES_MS] else [])).
    { subst w4. destruct (Nat.ltb a pages); [reflexivity|apply continues_refl]. }
    destruct (IH (S a) pages startTime p' w4 ltac:(lia)) as (e5 & C5 & U5).
    eexists. split.
    + eapply continues_trans; [|exact C5].
      eapply continues_trans; [|exact C4].
      eapply continues_trans; [|exact C3].
      eapply continues_trans; [|exact C2].
      apply continues_emit.
    + rewrite !unit_steps_app, U2, U5.
      cbn [unit_steps omap unit_step app].
      destruct n as [|n].
      * assert (Hlast : Nat.ltb a pages = false) by (apply Nat.ltb_ge; lia).
        rewrite Hlast. reflexivity.
      * assert (Hmore : Nat.ltb a pages = true) by (apply Nat.ltb_lt; lia).
        rewrite Hmore. reflexivity.
Qed.

Lemma rounds_main_steps (w : World) :
  exists events,
    continues w (main w).2 events /\
    unit_steps events =
      units_apart DELAY_BETWEEN_PAGES_MS (units connectOk limit).
Proof.
  unfold RoundsMain.main, units. destruct connectOk; cbn [negb].
  2:{ exists [EvConnect false]. split; [apply continues_emit|reflexivity]. }
  set (w1 := emit (EvConnect true) w).
  destruct (scrape_pages_run (pagesNeeded limit) 1 (pagesNeeded limit)
              (clock now w) (mkProgress [] 0 0 0) w1 ltac:(lia))
    as (e2 & C2 & U2).
  destruct (scrape_pages (seq 1 (pagesNeeded limit)) (pagesNeeded limit)
              (clock now w) (mkProgress [] 0 0 0) w1) as [p w2]. simpl in C2.
  pose proof (rounds_saveResults_steps (allData p) (pagesScraped p) (clock now w)
                false (emit EvDisconnect w2)) as C4.
  destruct (saveResults (allData p) (pagesScraped p) (clock now w) false
              (emit EvDisconnect w2)) as [ok w4]. simpl in C4.
  exists ((([EvConnect true] ++ e2) ++ [EvDisconnect]) ++ [EvWrite OUTPUT_FILE ok]).
  split.
  - assert (C : continues w w4
                  ((([EvConnect true] ++ e2) ++ [EvDisconnect])
                     ++ [EvWrite OUTPUT_FILE ok])).
    { eapply continues_trans; [|exact C4].
      eapply continues_trans; [|apply continues_emit].
      eapply continues_trans; [apply continues_emit|exact C2]. }
    now destruct ok.
  - rewrite !unit_steps_app, U2. simpl. now rewrite !app_nil_r.
Qed.

End Facts.
End RoundsMainFacts.

Module ProjectMainFacts.
Import ProjectMain.

Section Facts.
Variable connectOk : bool.
Variable fetch : nat -> string -> Outcome RawDetails.t.
Variable now : nat -> Z.
Variable writeOk : nat -> bool.
Variable maxRetries : nat.
Variable limit : option nat.

Local Abbreviation saveResults := (saveResults now writeOk).
Local Abbreviation scrape_from := (scrape_from fetch now writeOk maxRetries).
Local Abbreviation main := (main connectOk fetch now writeOk maxRetries limit).

Lemma project_saveResults_steps (data : list Round.t)
    (projectDetails : JsMap.t ProjectResult.t) (totalProjects successful failed : nat)
    (startTime : Z) (partial : bool) (w : World) :
  continues w
    (saveResults data projectDetails totalProjects successful failed startTime
       partial w).2
    [EvWrite OUTPUT_FILE
       (saveResults data projectDetails totalProjects successful failed startTime
          partial w).1].
Proof.
  unfold ProjectMain.saveResults. now destruct (writeOk (length (trace w))).
Qed.

Lemma project_scrape_from_run (todo : list Project.t) :
  forall (i total : nat) (data : list Round.t) (startTime : Z) (p : Progress)
         (w : World),
    i + length todo = total ->
    exists events,
      continues w (scrape_from todo i total data startTime p w).2 events /\
      unit_steps events = units_apart DELAY_BETWEEN_PROJECTS_MS (length todo).
Proof.
  induction todo as [|project later IH]; intros i total data startTime p w Htotal.
  - exists []. split; [apply continues_refl|reflexivity].
  - cbn [ProjectMain.scrape_from].
    set (key := Project.projectKey project).
    set (w1 := emit (EvUnit (TProject key)) w).
    destruct (ProjectScraperFacts.project_attempts_frame fetch now maxRetries
                key (seq 1 maxRetries) None w1) as (e2 & C2 & U2 & _).
    unfold ProjectScraper.scrapeProject.
    destruct (ProjectScraper.attempts fetch now maxRetries (seq 1 maxRetries)
                key None w1) as [result w2]. simpl in C2.
    set (p' := mkProgress _ _ _).
    pose proof (project_saveResults_steps data (projectDetails p') total
                  (successCount p') (failCount p') startTime true w2) as C3.
    destruct (saveResults data (projectDetails p') total (successCount p')
                (failCount p') startTime true w2) as [ok w3]. simpl in C3.
    set (w4 := if Z.ltb (Z.of_nat i) (Z.of_nat total - 1) then _ else w3).
    assert (C4 : continues w3 w4
              (if Z.ltb (Z.of_nat i) (Z.of_nat total - 1)
               then [EvThrottle DELAY_BETWEEN_PROJECTS_MS] else [])).
    { subst w4. destruct (Z.ltb _ _); [reflexivity|apply continues_refl]. }
    simpl in Htotal.
    destruct (IH (S i) total data startTime p' w4 ltac:(lia)) as (e5 & C5 & U5).
    eexists. split.
    + eapply continues_trans; [|exact C5].
      eapply continues_trans; [|exact C4].
      eapply continues_trans; [|exact C3].
      eapply continues_trans; [|exact C2].
      apply continues_emit.
    + rewrite !unit_steps_app, U2, U5.
      cbn [unit_steps omap unit_step app].
      destruct later as [|next later'].
      * assert (Hlast : Z.ltb (Z.of_nat i) (Z.of_nat total - 1) = false)
          by (apply Z.ltb_ge; simpl in Htotal; lia).
        rewrite Hlast. reflexivity.
      * assert (Hmore : Z.ltb (Z.of_nat i) (Z.of_nat total - 1) = true)
          by (apply Z.ltb_lt; simpl in Htotal; lia).
        rewrite Hmore. reflexivity.
Qed.

Lemma project_main_steps (w : World) :
  exists events,
    continues w (main w).2 events /\
    unit_steps events =
      units_apart DELAY_BETWEEN_PROJECTS_MS (units connectOk limit w).
Proof.
  unfold ProjectMain.main, units.
  destruct (Files.rounds (files w)) as [| | |fundingData];
    try (exists []; split; [apply continues_refl|reflexivity]).
  set (data := RoundsResultSet.data fundingData).
  set (projects := apply_limit limit (Extract.extractUniqueProjects data)).
  destruct connectOk; cbn [negb].
  2:{ exists [EvConnect false]. split; [apply continues_emit|reflexivity]. }
  set (w1 := emit (EvConnect true) w).
  destruct (project_scrape_from_run projects 0 (length projects) data
              (clock now w) (mkProgress JsMap.empty 0 0) w1 eq_refl)
    as (e2 & C2 & U2).
  destruct (scrape_from projects 0 (length projects) data (clock now w)
              (mkProgress JsMap.empty 0 0) w1) as [p w2]. simpl in C2.
  pose proof (project_saveResults_steps data (projectDetails p) (length projects)
                (successCount p) (failCount p) (clock now w) false
                (emit EvDisconnect w2)) as C4.
  destruct (saveResults data (projectDetails p) (length projects)
              (successCount p) (failCount p) (clock now w) false
              (emit EvDisconnect w2)) as [ok w4]. simpl in C4.
  exists ((([EvConnect true] ++ e2) ++ [EvDisconnect]) ++ [EvWrite OUTPUT_FILE ok]).
  split.
  - assert (C : continues w w4
                  ((([EvConnect true] ++ e2) ++ [EvDisconnect])
                     ++ [EvWrite OUTPUT_FILE ok])).
    { eapply continues_trans; [|exact C4].
      eapply continues_trans; [|apply continues_emit].
      eapply continues_trans; [apply continues_emit|exact C2]. }
    now destruct ok.
  - rewrite !unit_steps_app, U2. simpl. now rewrite !app_nil_r.
Qed.

End Facts.
End ProjectMainFacts.

(** ** The throttle *)

Module ThrottleClaims.

(** C8.  In every run of each of the three entry points, the steps taken
    are the [K] units of work of the run with exactly one throttle wait
    between consecutive units: a wait follows every unit but the last,
    none comes before the first unit, and [K - 1] waits are made in all
    (none when there is no unit).  [K] is the number of funds left to
    scrape, of pages, or of projects; it is 0 when the run stops before
    its loop. *)
Theorem throttle_between_units :
  (forall (localeCompare : string -> string -> Z) (response : option (list Fund.t))
          (connectOk : bool) (fetch : nat -> string -> Outcome Links.t)
          (now : nat -> Z) (writeOk : nat -> bool) (maxRetries : nat)
          (includeTier2 enableScreenshots : bool) (w : World),
     let K := FundMain.units response connectOk includeTier2 w in
     exists events,
       continues w
         (FundMain.main localeCompare response connectOk fetch now writeOk
            maxRetries includeTier2 enableScreenshots w).2 events /\
       unit_steps events = units_apart FundMain.DELAY_BETWEEN_REQUESTS_MS K /\
       length (List.filter is_throttle (unit_steps events)) = K - 1) /\
  (forall (connectOk : bool) (fetch : nat -> nat -> Outcome (list Row.t))
          (parseDateToISO : option string -> option string) (now : nat -> Z)
          (writeOk : nat -> bool) (maxRetries limit : nat) (w : World),
     let K := RoundsMain.units connectOk limit in
     exists events,
       continues w
         (RoundsMain.main connectOk fetch parseDateToISO now writeOk maxRetries
            limit w).2 events /\
       unit_steps events = units_apart RoundsMain.DELAY_BETWEEN_PAGES_MS K /\
       length (List.filter is_throttle (unit_steps events)) = K - 1) /\
  (forall (connectOk : bool) (fetch : nat -> string -> Outcome RawDetails.t)
          (now : nat -> Z) (writeOk : nat -> bool) (maxRetries : nat)
          (limit : option nat) (w : World),
     let K := ProjectMain.units connectOk limit w in
     exists events,
       continues w
         (ProjectMain.main connectOk fetch now writeOk maxRetries limit w).2
         events /\
       unit_steps events = units_apart ProjectMain.DELAY_BETWEEN_PROJECTS_MS K /\
       length (List.filter is_throttle (unit_steps events)) = K - 1).
Proof.
  split; [|split].
  - intros localeCompare response connectOk fetch now writeOk maxRetries
      includeTier2 enableScreenshots w. cbv zeta.
    destruct (FundMainFacts.fund_main_steps localeCompare response connectOk fetch
                now writeOk maxRetries includeTier2 enableScreenshots w)
      as (events & C & U).
    exists events. split; [exact C|]. split; [exact U|].
    rewrite U. apply units_apart_throttles.
  - intros connectOk fetch parseDateToISO now writeOk maxRetries limit w. cbv zeta.
    destruct (RoundsMainFacts.rounds_main_steps connectOk fetch parseDateToISO now
                writeOk maxRetries limit w) as (events & C & U).
    exists events. split; [exact C|]. split; [exact U|].
    rewrite U. apply units_apart_throttles.
  - intros connectOk fetch now writeOk maxRetries limit w. cbv zeta.
    destruct (ProjectMainFacts.project_main_steps connectOk fetch now writeOk
                maxRetries limit w) as (events & C & U).
    exists events. split; [exact C|]. split; [exact U|].
    rewrite U. apply units_apart_throttles.
Qed.

(** Three pages: page, wait, page, wait, page. *)
Example throttle_three_pages :
  unit_steps
    (trace (RoundsMain.main true Sample.page_fails_once Sample.parseDateToISO
              Sample.now Sample.writeOk 3 60 Sample.start).2)
  = [SUnit; SThrottle 2000; SUnit; SThrottle 2000; SUnit].
Proof. reflexivity. Qed.

End ThrottleClaims.

(** ** The links of a fund page *)

Module SocialLinksFacts.
Import SocialLinks FundScraper.

Lemma elem_of_categories (c : option string) :
  c ∈ categories <->
  c = None \/ c = Some "twitter" \/ c = Some "telegram" \/ c = Some "discord" \/
  c = Some "medium" \/ c = Some "linkedin" \/ c = Some "github" \/
  c = Some "youtube" \/ c = Some "facebook" \/ c = Some "instagram" \/
  c = Some "reddit".
Proof.
  unfold categories. rewrite !elem_of_cons, elem_of_nil. tauto.
Qed.

Lemma categorizeLink_categories (href : string) : categorizeLink href ∈ categories.
Proof.
  apply elem_of_categories. unfold categorizeLink.
  repeat match goal with
         | |- context [if ?b then _ else _] => destruct b
         end; tauto.
Qed.

(** The chain of the loop writes the property [categorizeLink] names, and
    no other. *)
Lemma link_of_categorize (c : option string) (href : string) (result : Links.t) :
  c ∈ categories ->
  link_of c (categorize href result) =
    if bool_decide (categorizeLink href = c) then Some href else link_of c result.
Proof.
  intros Hc. apply elem_of_categories in Hc.
  unfold categorize, categorizeLink.
  repeat match goal with
         | |- context [if (includes ?a ?b || includes ?a ?d) then _ else _] =>
             destruct (includes a b || includes a d)
         | |- context [if includes ?a ?b then _ else _] => destruct (includes a b)
         end;
    repeat (destruct Hc as [->|Hc]); try subst c; reflexivity.
Qed.

Lemma hasAnyLinks_categorize (href : string) (result : Links.t) :
  hasAnyLinks (categorize href result) = true.
Proof.
  unfold categorize.
  repeat match goal with
         | |- context [if ?b then _ else _] => destruct b
         end; unfold hasAnyLinks; simpl; rewrite ?orb_true_r; reflexivity.
Qed.

Lemma extractSocialLinks_snoc (hrefs : list (option string)) (href : option string) :
  extractSocialLinks (hrefs ++ [href]) = visit (extractSocialLinks hrefs) href.
Proof. unfold extractSocialLinks. now rewrite foldl_app. Qed.

Lemma of_category_snoc (c : option string) (hrefs : list (option string))
    (href : option string) :
  of_category c (hrefs ++ [href]) =
    of_category c hrefs ++
    match href with
    | Some h => if usable href && bool_decide (categorizeLink h = c) then [h] else []
    | None => []
    end.
Proof.
  unfold of_category. rewrite omap_app. f_equal.
  destruct href as [h|]; [|reflexivity].
  destruct (usable (Some h) && bool_decide (categorizeLink h = c)) eqn:E;
    cbn [omap list_omap]; now rewrite E.
Qed.

Lemma visit_usable (result : Links.t) (href : option string) :
  visit result href =
    match href with
    | Some h => if usable href then categorize h result else result
    | None => result
    end.
Proof.
  destruct href as [h|]; [|reflexivity]. unfold visit, usable.
  destruct (truthy (Some h)); [|reflexivity]. simpl.
  now destruct (includes (toLowerCase h) "cryptorank").
Qed.

Lemma link_of_extract (hrefs : list (option string)) (category : option string) :
  category ∈ categories ->
  link_of category (extractSocialLinks hrefs) = last (of_category category hrefs).
Proof.
  intros Hc. induction hrefs as [|href hrefs IH] using rev_ind.
  - apply elem_of_categories in Hc.
    repeat (destruct Hc as [->|Hc]); try subst category; reflexivity.
  - rewrite extractSocialLinks_snoc, of_category_snoc, visit_usable.
    destruct href as [h|]; [|now rewrite app_nil_r].
    destruct (usable (Some h)); simpl; [|now rewrite app_nil_r].
    rewrite link_of_categorize by exact Hc.
    destruct (bool_decide (categorizeLink h = category)).
    + now rewrite last_snoc.
    + now rewrite app_nil_r.
Qed.

Lemma elem_of_of_category (c : option string) (hrefs : list (option string))
    (h : string) :
  h ∈ of_category c hrefs <->
  Some h ∈ hrefs /\ usable (Some h) = true /\ categorizeLink h = c.
Proof.
  unfold of_category. rewrite list_elem_of_omap. split.
  - intros ([h'|] & Hin & Hf); [|discriminate].
    destruct (usable (Some h')) eqn:Hu; [|discriminate].
    destruct (bool_decide_reflect (categorizeLink h' = c)) as [Hc|];
      [|discriminate].
    simpl in Hf. injection Hf as <-. auto.
  - intros (Hin & Hu & Hc). exists (Some h). split; [exact Hin|].
    rewrite Hu. now rewrite bool_decide_eq_true_2.
Qed.

(** A link that [extractSocialLinks] returns is one of the [href] values
    of the page, is not empty and does not name CryptoRank. *)
Lemma link_of_extract_usable (hrefs : list (option string)) (c : option string)
    (h : string) :
  c ∈ categories ->
  link_of c (extractSocialLinks hrefs) = Some h ->
  Some h ∈ hrefs /\ usable (Some h) = true /\ categorizeLink h = c.
Proof.
  intros Hc Hl. rewrite link_of_extract in Hl by exact Hc.
  apply last_Some_elem_of in Hl. now apply elem_of_of_category.
Qed.

Lemma usable_truthy (href : option string) : usable href = true -> truthy href = true.
Proof.
  destruct href as [h|]; [|discriminate]. unfold usable.
  now intros [H _]%andb_true_iff.
Qed.

(** X1.  For every page, each of the eleven properties of the object
    [extractSocialLinks] returns holds the last [href] of the page, in
    document order, that is usable (not empty, without "cryptorank" in any
    case) and that [categorizeLink] puts in the category of the property
    ([null] standing for the website), or [null] when the page has no such
    [href]; and [categorizeLink] always answers one of these eleven
    categories.  So the chain written out in the page and the helper
    [categorizeLink] classify alike, and a later link replaces an earlier
    one of its category. *)
Theorem extractSocialLinks_last_of_category (hrefs : list (option string)) :
  (forall category,
     category ∈ categories ->
     link_of category (extractSocialLinks hrefs) = last (of_category category hrefs)) /\
  (forall href, categorizeLink href ∈ categories) /\
  (forall category h,
     h ∈ of_category category hrefs <->
     Some h ∈ hrefs /\ usable (Some h) = true /\ categorizeLink h = category).
Proof.
  split; [|split].
  - intros category Hc. now apply link_of_extract.
  - apply categorizeLink_categories.
  - intros category h. apply elem_of_of_category.
Qed.

(** X2.  [hasAnyLinks] answers [true] on the result of
    [extractSocialLinks] exactly when the page has a usable [href]: a page
    without anchors, or whose anchors are all without [href], empty or
    CryptoRank's own, counts as a page without links. *)
Theorem extractSocialLinks_hasAnyLinks (hrefs : list (option string)) :
  hasAnyLinks (extractSocialLinks hrefs) = existsb usable hrefs.
Proof.
  induction hrefs as [|href hrefs IH] using rev_ind; [reflexivity|].
  rewrite extractSocialLinks_snoc, existsb_app, visit_usable, <- IH. simpl.
  rewrite orb_false_r.
  destruct href as [h|]; [|now rewrite orb_false_r].
  destruct (usable (Some h)).
  - now rewrite hasAnyLinks_categorize, orb_true_r.
  - now rewrite orb_false_r.
Qed.

Lemma or_default_truthy (v : option string) (d : string) :
  d <> "" -> truthy (Some (or_default v d)) = true.
Proof.
  intros Hd. apply truthy_Some. unfold or_default.
  destruct v as [s|]; [|exact Hd].
  destruct (String.eqb_spec s ""); [exact Hd|assumption].
Qed.

Section Result.
Variable fetch : nat -> string -> Outcome Links.t.
Variable enableScreenshots : bool.
Variable maxRetries : nat.

(** What the retry loop returns: links and no error, or an error and no
    link. *)
Lemma fund_attempts_result (key : string) (todo : list nat) :
  forall (lastError : option string) (w : World),
    let r := (attempts fetch enableScreenshots maxRetries todo key lastError w).1 in
    (ScrapeResult.error r = None /\ hasAnyLinks (ScrapeResult.links r) = true /\
     exists n, fetch n key = Extracted (ScrapeResult.links r)) \/
    (truthy (ScrapeResult.error r) = true /\
     hasAnyLinks (ScrapeResult.links r) = false).
Proof.
  induction todo as [|attempt later IH]; intros lastError w; cbv zeta.
  - right. simpl. split; [now apply or_default_truthy|reflexivity].
  - cbn [attempts].
    destruct (fetch (calls w) key) as [message pageOpen|links] eqn:Hf.
    + apply IH.
    + destruct (hasAnyLinks links) eqn:Hl; cbn [negb andb].
      * left. simpl. split; [reflexivity|]. split; [exact Hl|]. eauto.
      * destruct (Nat.ltb attempt maxRetries); [apply IH|].
        right. simpl. split; [reflexivity|exact Hl].
Qed.

(** X3.  Whatever the browser answers, [scrapeFund] returns either at
    least one link and no error, or no link at all and an error whose
    message is not empty ("No social links found", the message of the last
    exception, or "Unknown error"): it never reports an error next to
    links, nor an empty result without an error. *)
Theorem scrapeFund_error_iff_no_links (key : string) (index total : nat)
    (w : World) :
  let r := (scrapeFund fetch enableScreenshots maxRetries key index total w).1 in
  (hasAnyLinks (ScrapeResult.links r) = true /\ ScrapeResult.error r = None) \/
  (hasAnyLinks (ScrapeResult.links r) = false /\
   exists message, ScrapeResult.error r = Some message /\ message <> "").
Proof.
  cbv zeta. unfold scrapeFund.
  destruct (fund_attempts_result key (seq 1 maxRetries) None w)
    as [(He & Hl & _)|(He & Hl)]; [left; auto|right].
  split; [exact Hl|].
  destruct (ScrapeResult.error _) as [message|]; [|discriminate].
  exists message. split; [reflexivity|]. now apply truthy_Some.
Qed.

End Result.

Lemma hasAnyLinks_false (links : Links.t) :
  hasAnyLinks links = false -> links = Links.none.
Proof.
  destruct links as [[?|] [?|] [?|] [?|] [?|] [?|] [?|] [?|] [?|] [?|] [?|]];
    try discriminate. reflexivity.
Qed.

(** X4.  When the links of a page are read by [extractSocialLinks], the
    record [main] builds from the result of [scrapeFund] either has no
    error and at least one link that is a non-empty string (its [website],
    its [twitter], or the first entry of its [other_socials]), or has a
    truthy error and no link at all: [website] and [twitter] are [null]
    and [other_socials] is missing. *)
Theorem record_has_link_iff_no_error
    (anchors : nat -> string -> Outcome (list (option string)))
    (enableScreenshots : bool) (maxRetries : nat) (fund : Fund.t)
    (index total : nat) (scrapedAt : Z) (w : World) :
  let scrapeResult :=
    (scrapeFund (through_extraction anchors) enableScreenshots maxRetries
       (Fund.key fund) index total w).1 in
  let record := FundMain.build_result fund scrapeResult scrapedAt in
  (FundRecord.error record = None /\
   (truthy (Links.website (FundRecord.top record)) = true \/
    truthy (Links.twitter (FundRecord.top record)) = true \/
    exists name link rest,
      FundRecord.other_socials record = Some ((name, link) :: rest) /\ link <> ""))
  \/
  (truthy (FundRecord.error record) = true /\
   Links.website (FundRecord.top record) = None /\
   Links.twitter (FundRecord.top record) = None /\
   FundRecord.other_socials record = None).
Proof.
  cbv zeta. unfold scrapeFund.
  destruct (fund_attempts_result (through_extraction anchors) enableScreenshots
              maxRetries (Fund.key fund) (seq 1 maxRetries) None w)
    as [(He & Hl & n & Hn)|(He & Hl)].
  - left. unfold FundMain.build_result.
    destruct (attempts _ _ _ _ _ _ _).1 as [links error]. simpl in *. subst error.
    split; [reflexivity|].
    unfold through_extraction in Hn.
    destruct (anchors n (Fund.key fund)) as [|hrefs]; [discriminate|].
    injection Hn as Hn.
    assert (Hne : forall c h, c ∈ categories -> link_of c links = Some h ->
                              truthy (Some h) = true).
    { intros c h Hc Hh. rewrite <- Hn in Hh.
      apply link_of_extract_usable in Hh as (_ & Hu & _); [|exact Hc].
      now apply usable_truthy. }
    clear Hn.
    destruct links as [web tw tg dc md li gh yt fb ig rd]. simpl.
    destruct web as [h|].
    { left. rewrite or_null_truthy; apply (Hne None); try reflexivity;
        apply elem_of_categories; tauto. }
    destruct tw as [h|].
    { right; left. rewrite or_null_truthy; apply (Hne (Some "twitter"));
        try reflexivity; apply elem_of_categories; tauto. }
    right; right.
    assert (Hne' : forall c h, c ∈ categories -> 
              link_of c (Links.mk None None tg dc md li gh yt fb ig rd) = Some h ->
              h <> "") by (intros c h Hc Hh; apply truthy_Some; eauto).
    clear Hne.
    destruct tg as [h|].
    { eexists _, h, _. split; [reflexivity|].
      apply (Hne' (Some "telegram")); [apply elem_of_categories; tauto|reflexivity]. }
    destruct dc as [h|].
    { eexists _, h, _. split; [reflexivity|].
      apply (Hne' (Some "discord")); [apply elem_of_categories; tauto|reflexivity]. }
    destruct md as [h|].
    { eexists _, h, _. split; [reflexivity|].
      apply (Hne' (Some "medium")); [apply elem_of_categories; tauto|reflexivity]. }
    destruct li as [h|].
    { eexists _, h, _. split; [reflexivity|].
      apply (Hne' (Some "linkedin")); [apply elem_of_categories; tauto|reflexivity]. }
    destruct gh as [h|].
    { eexists _, h, _. split; [reflexivity|].
      apply (Hne' (Some "github")); [apply elem_of_categories; tauto|reflexivity]. }
    destruct yt as [h|].
    { eexists _, h, _. split; [reflexivity|].
      apply (Hne' (Some "youtube")); [apply elem_of_categories; tauto|reflexivity]. }
    destruct fb as [h|].
    { eexists _, h, _. split; [reflexivity|].
      apply (Hne' (Some "facebook")); [apply elem_of_categories; tauto|reflexivity]. }
    destruct ig as [h|].
    { eexists _, h, _. split; [reflexivity|].
      apply (Hne' (Some "instagram")); [apply elem_of_categories; tauto|reflexivity]. }
    destruct rd as [h|].
    { eexists _, h, _. split; [reflexivity|].
      apply (Hne' (Some "reddit")); [apply elem_of_categories; tauto|reflexivity]. }
    discriminate.
  - right. unfold FundMain.build_result.
    destruct (attempts _ _ _ _ _ _ _).1 as [links error]. simpl in *.
    apply hasAnyLinks_false in Hl. subst links. simpl.
    split; [now rewrite or_null_truthy|]. auto.
Qed.

End SocialLinksFacts.

(** ** Runs of the fund entry point *)

Module FundRunFacts.
Import FundMain MergeFacts FundMainFacts.

Lemma count_success_failed (records : list FundRecord.t) :
  count_success records + count_failed records = length records.
Proof.
  unfold count_success, count_failed.
  induction records as [|r records IH]; simpl; [reflexivity|].
  destruct (truthy (FundRecord.error r)); simpl; lia.
Qed.

Lemma truthy_or_null (v : option string) : truthy (or_null v) = truthy v.
Proof. unfold or_null. now destruct (truthy v) eqn:E. Qed.

Lemma with_url_truthy (k : string) (d : FundRecord.t) :
  truthy (FundRecord.url (with_url k d)) = true.
Proof.
  unfold with_url. destruct (truthy (FundRecord.url d)) eqn:E; [exact E|].
  reflexivity.
Qed.

Section Sorted.
Variable localeCompare : string -> string -> Z.
Hypothesis localeCompare_total :
  forall a b, (0 < localeCompare a b -> localeCompare b a <= 0)%Z.
Hypothesis localeCompare_trans :
  forall a b c,
    (localeCompare a b <= 0 -> localeCompare b c <= 0 -> localeCompare a c <= 0)%Z.

Local Abbreviation before := (fun a b => (compare localeCompare a b <= 0)%Z).

Lemma compare_total (a b : FundRecord.t) :
  (0 < compare localeCompare a b -> compare localeCompare b a <= 0)%Z.
Proof.
  unfold compare.
  destruct (Z.eqb_spec (FundRecord.tier a) (FundRecord.tier b)) as [E|E];
    destruct (Z.eqb_spec (FundRecord.tier b) (FundRecord.tier a)); simpl;
    try congruence; try lia.
  apply localeCompare_total.
Qed.

Lemma compare_trans (a b c : FundRecord.t) :
  (compare localeCompare a b <= 0 -> compare localeCompare b c <= 0 ->
   compare localeCompare a c <= 0)%Z.
Proof.
  unfold compare.
  destruct (Z.eqb_spec (FundRecord.tier a) (FundRecord.tier b));
    destruct (Z.eqb_spec (FundRecord.tier b) (FundRecord.tier c));
    destruct (Z.eqb_spec (FundRecord.tier a) (FundRecord.tier c)); simpl;
    try lia.
  apply localeCompare_trans.
Qed.

Lemma insert_sorted (x : FundRecord.t) (l : list FundRecord.t) :
  StronglySorted before l -> StronglySorted before (insert localeCompare x l).
Proof.
  induction 1 as [|y l Hl IH Hy]; simpl; [repeat constructor|].
  destruct (Z.leb_spec (compare localeCompare x y) 0) as [Hxy|Hxy].
  - constructor; [now constructor|].
    constructor; [exact Hxy|].
    eapply Forall_impl; [exact Hy|]. intros z Hz. simpl in *.
    now apply (compare_trans x y z).
  - constructor; [exact IH|].
    rewrite (insert_perm localeCompare x l).
    constructor; [now apply compare_total|exact Hy].
Qed.

Lemma sort_sorted (l : list FundRecord.t) :
  StronglySorted before (sort localeCompare l).
Proof.
  unfold sort. induction l as [|x l IH]; simpl; [constructor|].
  now apply insert_sorted.
Qed.

End Sorted.

Section Facts.
Variable localeCompare : string -> string -> Z.
Variable response : option (list Fund.t).
Variable connectOk : bool.
Variable fetch : nat -> string -> Outcome Links.t.
Variable now : nat -> Z.
Variable writeOk : nat -> bool.
Variable maxRetries : nat.
Variable includeTier2 enableScreenshots : bool.

Local Abbreviation writeFile := (writeFile writeOk includeTier2).
Local Abbreviation savePartialResults :=
  (savePartialResults localeCompare now writeOk includeTier2).
Local Abbreviation scrape_from :=
  (scrape_from localeCompare fetch now writeOk maxRetries includeTier2
     enableScreenshots).
Local Abbreviation main :=
  (main localeCompare response connectOk fetch now writeOk maxRetries
     includeTier2 enableScreenshots).

(** The loop counts every fund once, as a success or as a failure, and
    every record it adds is one that [build_result] makes. *)
Lemma scrape_from_counts (P : FundRecord.t -> Prop) (todo : list Fund.t) :
  (forall fund scrapeResult scrapedAt, P (build_result fund scrapeResult scrapedAt)) ->
  forall (i total : nat) (startTime : Z) (p : Progress) (w : World),
    let run := scrape_from todo i total startTime p w in
    p_successCount run.1 + p_failCount run.1 =
      p_successCount p + p_failCount p + length todo /\
    (Forall P (p_newResults p) -> Forall P (p_newResults run.1)).
Proof.
  intros HP. induction todo as [|fund later IH]; intros i total startTime p w;
    cbv zeta.
  - simpl. split; [lia|auto].
  - cbn [FundMain.scrape_from].
    destruct (FundScraper.scrapeFund _ _ _ _ _ _ _) as [scrapeResult w2].
    destruct (savePartialResults _ _ _ _) as [[ok cache'] w3].
    set (w4 := if Z.ltb _ _ then _ else w3).
    set (p' := mkProgress _ _ _ _).
    destruct (IH (S i) total startTime p' w4) as [Hcount Hall].
    split.
    + rewrite Hcount. subst p'. simpl.
      destruct (truthy (ScrapeResult.error scrapeResult)); lia.
    + intros Hp. apply Hall. subst p'. simpl.
      apply Forall_app. split; [exact Hp|]. constructor; [apply HP|constructor].
Qed.

(** The structure of a completed run. *)
Lemma main_completed_output (w w' : World) :
  main w = (Completed, w') ->
  exists funds p w2,
    let cache := loadCache (read_output includeTier2 (files w)) in
    let todo := fundsToScrape funds cache in
    let allResults := merged localeCompare includeTier2 cache (p_newResults p) in
    submitted response includeTier2 = Some funds /\
    todo <> [] /\
    scrape_from todo 0 (length todo) (clock now w) (mkProgress cache [] 0 0)
      (emit (EvConnect true) w) = (p, w2) /\
    read_output includeTier2 (files w') =
      Holding
        (FundResultSet.mk
           (FundMetadata.mk (clock now (emit EvDisconnect w2)) "cryptorank.io"
              (targetTiers includeTier2) (length allResults)
              (count_success allResults) (count_failed allResults)
              (Some (JsMap.size cache))
              (Some (p_successCount p + p_failCount p))
              (clock now (emit EvDisconnect w2) - clock now w)%Z false)
           allResults).
Proof.
  unfold FundMain.main.
  destruct (submitted response includeTier2) as [funds|] eqn:Hs; [|discriminate].
  set (cache := loadCache (read_output includeTier2 (files w))).
  set (todo := fundsToScrape funds cache).
  destruct (Nat.eqb (length todo) 0) eqn:Hlen; [discriminate|].
  destruct connectOk; [|discriminate]. cbn [negb].
  set (w1 := emit (EvConnect true) w).
  pose proof (scrape_from_run localeCompare fetch now writeOk maxRetries
                includeTier2 enableScreenshots todo 0 (length todo) (clock now w)
                (mkProgress cache [] 0 0) w1) as Hrun.
  cbv zeta in Hrun.
  destruct (scrape_from todo 0 (length todo) (clock now w)
              (mkProgress cache [] 0 0) w1) as [p w2] eqn:Hsf.
  simpl in Hrun. destruct Hrun as (_ & Hcache & _).
  set (output := FundResultSet.mk _ _).
  pose proof (writeFile_steps writeOk includeTier2 output (emit EvDisconnect w2))
    as [_ Hw].
  destruct (writeFile output (emit EvDisconnect w2)) as [ok w4]. simpl in Hw.
  destruct ok; [|discriminate]. intros [= <-].
  exists funds, p, w2. cbv zeta.
  split; [reflexivity|]. split; [intros E; change (todo = []) in E; rewrite E in Hlen; discriminate|].
  split; [exact Hsf|].
  rewrite (Hw eq_refl). subst output. unfold merged.
  rewrite Hcache. destruct todo; [discriminate|]. now rewrite merge_touch.
Qed.

(** X5.  [loadCache] keeps, of the records of the file, those without a
    truthy [error] that have a truthy link at the top level, each under its
    own key, and no key twice; of several such records with one key the
    last of the file is the one kept.  A file that is missing, unreadable
    or without a [data] array gives the empty map. *)
Theorem loadCache_entries (stored : Stored FundResultSet.t) :
  let cache := loadCache stored in
  NoDup (JsMap.keys cache) /\
  (forall k r,
     JsMap.get k cache = Some r ->
     FundRecord.key r = k /\ truthy (FundRecord.error r) = false /\
     hasAnyLink r = true /\
     exists json,
       stored = Holding json /\ r ∈ FundResultSet.data json /\
       last_for k (List.filter cacheable (FundResultSet.data json)) = Some r) /\
  (forall json r,
     stored = Holding json -> r ∈ FundResultSet.data json -> cacheable r = true ->
     JsMap.has (FundRecord.key r) cache = true) /\
  ((forall json, stored <> Holding json) -> cache = JsMap.empty).
Proof.
  cbv zeta. split; [apply loadCache_keyed|]. split; [|split].
  - intros k r Hget.
    pose proof (keyed_get _ _ _ (loadCache_keyed stored) Hget) as Hk.
    rewrite loadCache_get in Hget.
    destruct stored as [| | |json]; try discriminate.
    pose proof (last_for_Some _ _ _ Hget) as [Hin _].
    apply elem_of_List_filter in Hin as [Hin Hc].
    unfold cacheable in Hc. apply andb_true_iff in Hc as [He Hl].
    apply negb_true_iff in He. eauto 10.
  - intros json r -> Hin Hc.
    destruct (JsMap.has (FundRecord.key r) (loadCache (Holding json))) eqn:Hhas;
      [reflexivity|exfalso].
    apply JsMapFacts.has_false in Hhas. rewrite loadCache_get in Hhas.
    apply last_for_None in Hhas. apply Hhas.
    apply list_elem_of_fmap_2. now apply elem_of_List_filter.
  - intros Hno. destruct stored as [| | |json]; try reflexivity.
    now destruct (Hno json).
Qed.

Lemma fundsToScrape_nil (funds : list Fund.t) (cache : JsMap.t FundRecord.t) :
  fundsToScrape funds cache = [] <->
  forall f, f ∈ funds -> JsMap.has (Fund.key f) cache = true.
Proof.
  unfold fundsToScrape. induction funds as [|f funds IH]; simpl.
  - split; [intros _ f Hf; now apply elem_of_nil in Hf|reflexivity].
  - destruct (JsMap.has (Fund.key f) cache) eqn:Hhas; simpl.
    + rewrite IH. split.
      * intros H f' [->|Hf']%elem_of_cons; auto.
      * intros H f' Hf'. apply H. apply elem_of_cons. now right.
    + split; [discriminate|]. intros H.
      rewrite (H f) in Hhas by (apply elem_of_cons; now left). discriminate.
Qed.

(** X6.  A run of the fund entry point ends in "Done! (from cache)"
    exactly when the upstream source answers and, for each fund it lists
    in the wanted tiers, the output file holds a record with the key of
    the fund, without a truthy [error] and with a truthy link at the top
    level; such a run makes no connection, no fetch and no write: it
    leaves the world as it found it. *)
Theorem main_from_cache_iff (w w' : World) :
  main w = (FromCache, w') <->
  w' = w /\
  exists funds,
    submitted response includeTier2 = Some funds /\
    forall f, f ∈ funds ->
      exists prior r,
        read_output includeTier2 (files w) = Holding prior /\
        r ∈ FundResultSet.data prior /\
        FundRecord.key r = Fund.key f /\ cacheable r = true.
Proof.
  split.
  - unfold FundMain.main.
    destruct (submitted response includeTier2) as [funds|] eqn:Hs; [|discriminate].
    set (cache := loadCache (read_output includeTier2 (files w))).
    destruct (Nat.eqb_spec (length (fundsToScrape funds cache)) 0) as [Hlen|Hlen].
    + intros [= <-]. split; [reflexivity|]. exists funds. split; [reflexivity|].
      intros f Hf. apply length_zero_iff_nil in Hlen.
      pose proof (proj1 (fundsToScrape_nil funds cache) Hlen f Hf) as Hhas.
      unfold JsMap.has in Hhas.
      destruct (JsMap.get (Fund.key f) cache) as [r|] eqn:Hget; [|discriminate].
      pose proof (keyed_get _ _ _ (loadCache_keyed _) Hget) as Hk.
      subst cache. rewrite loadCache_get in Hget.
      destruct (read_output includeTier2 (files w)) as [| | |prior];
        try discriminate.
      apply last_for_Some in Hget as [Hin _].
      apply elem_of_List_filter in Hin as [Hin Hc]. eauto 10.
    + destruct connectOk; cbn [negb]; [|discriminate].
      destruct (scrape_from _ _ _ _ _ _) as [p w2].
      destruct (writeFile _ _) as [[] w4]; discriminate.
  - intros (-> & funds & Hs & Hall).
    apply (main_from_cache localeCompare response connectOk fetch now writeOk
             maxRetries includeTier2 enableScreenshots funds); [exact Hs|].
    intros f Hf. destruct (Hall f Hf) as (prior & r & Hfile & Hin & Hk & Hc).
    rewrite <- Hk.
    destruct (loadCache_entries (read_output includeTier2 (files w)))
      as (_ & _ & H & _).
    now apply (H prior).
Qed.

(** X7.  The document a completed run leaves in its output file is marked
    final ([partial: false]) and names the run's tiers; its [totalFunds]
    is the number of records in [data] and is the sum of
    [successfulScrapes] and [failedScrapes]; [fromCache] is the size of the
    cache the run loaded and [newlyScrapped] the number of funds that were
    not in it. *)
Theorem final_metadata_counts (w w' : World) :
  main w = (Completed, w') ->
  exists funds output,
    submitted response includeTier2 = Some funds /\
    read_output includeTier2 (files w') = Holding output /\
    let cache := loadCache (read_output includeTier2 (files w)) in
    let metadata := FundResultSet.metadata output in
    FundMetadata.partial metadata = false /\
    FundMetadata.tiers metadata = targetTiers includeTier2 /\
    FundMetadata.totalFunds metadata = length (FundResultSet.data output) /\
    FundMetadata.successfulScrapes metadata + FundMetadata.failedScrapes metadata
      = FundMetadata.totalFunds metadata /\
    FundMetadata.fromCache metadata = Some (JsMap.size cache) /\
    FundMetadata.newlyScrapped metadata
      = Some (length (fundsToScrape funds cache)) /\
    0 < length (fundsToScrape funds cache).
Proof.
  intros Hmain.
  destruct (main_completed_output w w' Hmain)
    as (funds & p & w2 & Hs & Hne & Hrun & Hfile).
  exists funds. eexists. split; [exact Hs|]. split; [exact Hfile|].
  cbv zeta. simpl.
  split; [reflexivity|]. split; [reflexivity|]. split; [reflexivity|].
  split; [apply count_success_failed|]. split; [reflexivity|].
  pose proof (scrape_from_counts (fun _ => True)
                (fundsToScrape funds
                   (loadCache (read_output includeTier2 (files w))))
                (fun _ _ _ => I) 0
                (length (fundsToScrape funds
                           (loadCache (read_output includeTier2 (files w)))))
                (clock now w)
                (mkProgress (loadCache (read_output includeTier2 (files w))) [] 0 0)
                (emit (EvConnect true) w)) as [Hcount _].
  rewrite Hrun in Hcount. simpl in Hcount. rewrite Hcount.
  split; [reflexivity|].
  destruct (fundsToScrape funds _); [congruence|simpl; lia].
Qed.

(** X8.  Every record of the document a completed run leaves in its output
    file has a truthy [url] and a tier among the run's tiers. *)
Theorem final_records_have_url_and_tier (w w' : World) :
  main w = (Completed, w') ->
  exists output,
    read_output includeTier2 (files w') = Holding output /\
    Forall (fun r =>
              truthy (FundRecord.url r) = true /\
              Api.includes_tier (targetTiers includeTier2) (FundRecord.tier r) = true)
           (FundResultSet.data output).
Proof.
  intros Hmain.
  destruct (main_completed_output w w' Hmain)
    as (funds & p & w2 & Hs & Hne & Hrun & Hfile).
  eexists. split; [exact Hfile|]. simpl.
  set (cache := loadCache (read_output includeTier2 (files w))) in *.
  assert (Hc : keyed cache) by apply loadCache_keyed.
  pose proof (scrape_from_counts
                (fun r => truthy (FundRecord.url r) = true)
                (fundsToScrape funds cache)
                (fun _ _ _ => eq_refl) 0
                (length (fundsToScrape funds cache)) (clock now w)
                (mkProgress cache [] 0 0) (emit (EvConnect true) w)) as [_ Hnew].
  rewrite Hrun in Hnew. simpl in Hnew. specialize (Hnew ltac:(constructor)).
  apply Forall_forall. intros r Hr.
  apply (elem_of_merged _ _ _ _ _ Hc) in Hr as [Htier Hget].
  split; [|exact Htier].
  rewrite (merge_get _ _ _ Hc) in Hget.
  destruct (last_for (FundRecord.key r) (p_newResults p)) as [r'|] eqn:Hlast.
  - injection Hget as <-. apply last_for_Some in Hlast as [Hin _].
    now apply (proj1 (Forall_forall _ _) Hnew).
  - destruct (JsMap.get (FundRecord.key r) cache) as [d|]; [|discriminate].
    simpl in Hget. injection Hget as <-. apply with_url_truthy.
Qed.

(** X9.  When [localeCompare] orders names consistently, the records of
    the document a completed run leaves in its output file are in
    ascending order of the comparator given to [sort]: by tier, and by
    name within a tier. *)
Theorem final_data_sorted (w w' : World) :
  (forall a b, 0 < localeCompare a b -> localeCompare b a <= 0)%Z ->
  (forall a b c,
     localeCompare a b <= 0 -> localeCompare b c <= 0 -> localeCompare a c <= 0)%Z ->
  main w = (Completed, w') ->
  exists output,
    read_output includeTier2 (files w') = Holding output /\
    StronglySorted (fun a b => (compare localeCompare a b <= 0)%Z)
                   (FundResultSet.data output).
Proof.
  intros Htotal Htrans Hmain.
  destruct (main_completed_output w w' Hmain)
    as (funds & p & w2 & Hs & Hne & Hrun & Hfile).
  eexists. split; [exact Hfile|]. simpl.
  unfold merged, allResults. now apply sort_sorted.
Qed.

(** The save that ends the loop: when it succeeds, the file holds every
    result of the loop, in a document marked partial. *)
Lemma scrape_from_last_save (todo : list Fund.t) :
  forall (i total : nat) (startTime : Z) (p : Progress) (w : World),
    todo <> [] -> i + length todo = total ->
    let run := scrape_from todo i total startTime p w in
    let allResults :=
      merged localeCompare includeTier2 (p_cache p) (p_newResults run.1) in
    exists events ok,
      trace run.2 = trace w ++ events ++ [EvWrite (outputFile includeTier2) ok] /\
      (ok = true ->
       exists generatedAt durationMs,
         read_output includeTier2 (files run.2) =
           Holding
             (FundResultSet.mk
                (FundMetadata.mk generatedAt "cryptorank.io"
                   (targetTiers includeTier2) (length allResults)
                   (count_success allResults) (count_failed allResults)
                   None None durationMs true)
                allResults)).
Proof.
  induction todo as [|fund later IH]; intros i total startTime p w Hne Htotal;
    [congruence|]. cbv zeta.
  cbn [FundMain.scrape_from].
  set (w1 := emit (EvUnit (TFund (Fund.key fund))) w).
  destruct (FundScraperFacts.fund_attempts_frame fetch enableScreenshots
              maxRetries (Fund.key fund) (seq 1 maxRetries) None w1)
    as (e2 & C2 & _ & _).
  unfold FundScraper.scrapeFund.
  destruct (FundScraper.attempts fetch enableScreenshots maxRetries
              (seq 1 maxRetries) (Fund.key fund) None w1)
    as [scrapeResult w2]. cbn [snd] in C2.
  set (result := build_result fund scrapeResult (clock now w2)).
  unfold FundMain.savePartialResults.
  set (output := FundResultSet.mk _ _).
  pose proof (writeFile_steps writeOk includeTier2 output w2) as [C3 F3].
  destruct (writeFile output w2) as [ok3 w3]. cbn [fst snd] in C3, F3.
  set (w4 := if Z.ltb (Z.of_nat i) (Z.of_nat total - 1) then _ else w3).
  set (p' := mkProgress _ _ _ _).
  destruct later as [|next later'].
  - cbn [FundMain.scrape_from fst snd].
    assert (Hlast : Z.ltb (Z.of_nat i) (Z.of_nat total - 1) = false)
      by (apply Z.ltb_ge; simpl in Htotal; lia).
    subst w4. rewrite Hlast.
    exists ([EvUnit (TFund (Fund.key fund))] ++ e2), ok3. split.
    + unfold continues in C2, C3. rewrite C3, C2. subst w1. cbn [emit trace].
      now rewrite <- !app_assoc.
    + intros ->. subst p'. cbn [p_newResults].
      eexists _, _. rewrite (F3 eq_refl). subst output. reflexivity.
  - destruct (IH (S i) total startTime p' w4 ltac:(discriminate)
                ltac:(simpl in *; lia)) as (events & ok & Ht & Hfile).
    cbv zeta in Ht, Hfile.
    assert (C4 : exists e4, trace w4 = trace w3 ++ e4).
    { subst w4. destruct (Z.ltb _ _); [now exists [EvThrottle DELAY_BETWEEN_REQUESTS_MS]|].
      exists []. now rewrite app_nil_r. }
    destruct C4 as (e4 & C4).
    exists (([EvUnit (TFund (Fund.key fund))] ++ e2)
              ++ [EvWrite (outputFile includeTier2) ok3] ++ e4 ++ events), ok.
    split.
    + rewrite Ht, C4. unfold continues in C2, C3. rewrite C3, C2.
      subst w1. cbn [emit trace]. now rewrite <- !app_assoc.
    + intros Hok. destruct (Hfile Hok) as (t & d & Hf).
      exists t, d. rewrite Hf. subst p'. cbn [p_cache].
      unfold merged. now rewrite !merge_touch.
Qed.

(** X27.  When the save made after the last fund of a run succeeded, the
    output file holds every result of the run whether or not the final
    write succeeds: the records are the cached records merged with one
    record for each fund that was scraped, and the document is marked
    partial exactly when the final write failed, in which case the run
    fails.  A write that throws is taken to leave the file as it was. *)
Theorem last_save_keeps_every_result (w : World) (events : list Event)
    (ok : bool) :
  trace (main w).2 =
    trace w ++ events ++
    [EvWrite (outputFile includeTier2) true; EvDisconnect;
     EvWrite (outputFile includeTier2) ok] ->
  exists funds newResults output,
    submitted response includeTier2 = Some funds /\
    Forall2 built_from newResults
      (fundsToScrape funds (loadCache (read_output includeTier2 (files w)))) /\
    read_output includeTier2 (files (main w).2) = Holding output /\
    FundResultSet.data output =
      merged localeCompare includeTier2
        (loadCache (read_output includeTier2 (files w))) newResults /\
    FundMetadata.partial (FundResultSet.metadata output) = negb ok /\
    (main w).1 = (if ok then Completed else Failed).
Proof.
  unfold FundMain.main.
  assert (Hshort : forall (l : list Event) a b c,
            l <> l ++ events ++ [a; b; c]).
  { intros l a b c E. apply (f_equal length) in E.
    rewrite !length_app in E. simpl in E. lia. }
  destruct (submitted response includeTier2) as [funds|] eqn:Hs;
    [|intros E; now apply Hshort in E].
  set (cache := loadCache (read_output includeTier2 (files w))).
  set (todo := fundsToScrape funds cache).
  destruct (Nat.eqb (length todo) 0) eqn:Hlen; [intros E; now apply Hshort in E|].
  destruct connectOk; cbn [negb].
  2:{ cbn [snd emit trace]. intros E. apply (f_equal length) in E.
      rewrite !length_app in E. simpl in E. lia. }
  set (w1 := emit (EvConnect true) w).
  assert (Hne : todo <> [])
    by (intros E; rewrite E in Hlen; discriminate).
  pose proof (scrape_from_run localeCompare fetch now writeOk maxRetries
                includeTier2 enableScreenshots todo 0 (length todo) (clock now w)
                (mkProgress cache [] 0 0) w1) as Hrun.
  pose proof (scrape_from_last_save todo 0 (length todo) (clock now w)
                (mkProgress cache [] 0 0) w1 Hne eq_refl) as Hsave.
  cbv zeta in Hrun, Hsave.
  destruct (scrape_from todo 0 (length todo) (clock now w)
              (mkProgress cache [] 0 0) w1) as [p w2].
  cbn [fst snd p_cache p_newResults] in Hrun, Hsave.
  destruct Hrun as ((built & Hb & Hf) & Hcache & _).
  destruct Hsave as (e2 & ok2 & Ht2 & Hfile2).
  set (output := FundResultSet.mk _ _).
  pose proof (writeFile_steps writeOk includeTier2 output (emit EvDisconnect w2))
    as [C4 F4].
  assert (K4 : (writeFile output (emit EvDisconnect w2)).1 = false ->
               files (writeFile output (emit EvDisconnect w2)).2 = files w2).
  { unfold FundMain.writeFile.
    destruct (writeOk (length (trace (emit EvDisconnect w2)))); [discriminate|].
    reflexivity. }
  destruct (writeFile output (emit EvDisconnect w2)) as [ok4 w4].
  cbn [fst snd] in C4, F4, K4.
  assert (Htrace : trace w4 =
            trace w ++ ([EvConnect true] ++ e2) ++
            [EvWrite (outputFile includeTier2) ok2; EvDisconnect;
             EvWrite (outputFile includeTier2) ok4]).
  { unfold continues in C4. rewrite C4. cbn [emit trace]. rewrite Ht2.
    subst w1. cbn [emit trace]. now rewrite <- !app_assoc. }
  assert (Hsame : snd (if ok4 then (Completed, w4) else (Failed, w4)) = w4)
    by now destruct ok4.
  rewrite Hsame, Htrace. intros E.
  apply app_inv_head in E.
  assert (E' : ([EvConnect true] ++ e2) ++
               [EvWrite (outputFile includeTier2) ok2; EvDisconnect;
                EvWrite (outputFile includeTier2) ok4] =
               events ++
               [EvWrite (outputFile includeTier2) true; EvDisconnect;
                EvWrite (outputFile includeTier2) ok]) by exact E.
  apply app_inj_2 in E' as [_ E']; [|reflexivity].
  injection E' as -> ->.
  exists funds, built. rewrite Hb in *. cbn [app] in *.
  destruct ok.
  - exists output. split; [reflexivity|]. split; [exact Hf|].
    split; [now apply F4|]. split; [|split; reflexivity].
    subst output. cbn [FundResultSet.data]. rewrite Hcache.
    unfold merged. destruct todo; [congruence|]. now rewrite merge_touch, Hb.
  - destruct (Hfile2 eq_refl) as (t & d & Hfile).
    eexists. split; [reflexivity|]. split; [exact Hf|].
    rewrite (K4 eq_refl). split; [exact Hfile|]. repeat split.
Qed.

End Facts.

Lemma final_metadata_counts_witness :
  exists funds output,
    submitted (Some [Sample.alpha; Sample.beta]) false = Some funds /\
    read_output false (files (SampleRuns.fund_run Sample.localeCompare).2)
      = Holding output /\
    let cache := loadCache (read_output false (files Sample.start)) in
    let metadata := FundResultSet.metadata output in
    FundMetadata.partial metadata = false /\
    FundMetadata.tiers metadata = targetTiers false /\
    FundMetadata.totalFunds metadata = length (FundResultSet.data output) /\
    FundMetadata.successfulScrapes metadata + FundMetadata.failedScrapes metadata
      = FundMetadata.totalFunds metadata /\
    FundMetadata.fromCache metadata = Some (JsMap.size cache) /\
    FundMetadata.newlyScrapped metadata
      = Some (length (fundsToScrape funds cache)) /\
    0 < length (fundsToScrape funds cache).
Proof.
  apply (final_metadata_counts Sample.localeCompare (Some [Sample.alpha; Sample.beta])
           true Sample.fails_once Sample.now Sample.writeOk 3 false false
           Sample.start).
  vm_compute. reflexivity.
Defined.

Lemma last_save_keeps_every_result_witness :
  exists funds newResults output,
    submitted (Some [Sample.alpha; Sample.beta]) false = Some funds /\
    Forall2 built_from newResults
      (fundsToScrape funds (loadCache (read_output false (files Sample.start)))) /\
    read_output false (files SampleRuns.interrupted_fund_run.2) = Holding output /\
    FundResultSet.data output =
      merged Sample.localeCompare false
        (loadCache (read_output false (files Sample.start))) newResults /\
    FundMetadata.partial (FundResultSet.metadata output) = negb false /\
    SampleRuns.interrupted_fund_run.1 = Failed.
Proof.
  apply (last_save_keeps_every_result Sample.localeCompare
           (Some [Sample.alpha; Sample.beta]) true Sample.fails_once Sample.now
           SampleRuns.final_write_fails 3 false false Sample.start
           [EvConnect true; EvUnit (TFund "a"); EvAttempt (TFund "a") 1;
            EvRetryDelay 2000; EvAttempt (TFund "a") 2;
            EvWrite (outputFile false) true; EvThrottle 1500;
            EvUnit (TFund "b"); EvAttempt (TFund "b") 1]
           false).
  vm_compute. reflexivity.
Defined.

Lemma final_records_have_url_and_tier_witness :
  exists output,
    read_output false (files (SampleRuns.fund_run Sample.localeCompare).2)
      = Holding output /\
    Forall (fun r =>
              truthy (FundRecord.url r) = true /\
              Api.includes_tier (targetTiers false) (FundRecord.tier r) = true)
           (FundResultSet.data output).
Proof.
  apply (final_records_have_url_and_tier Sample.localeCompare
           (Some [Sample.alpha; Sample.beta]) true Sample.fails_once Sample.now
           Sample.writeOk 3 false false Sample.start).
  vm_compute. reflexivity.
Defined.

Lemma final_data_sorted_witness :
  exists output,
    read_output false (files (SampleRuns.fund_run SampleRuns.by_length).2)
      = Holding output /\
    StronglySorted (fun a b => (compare SampleRuns.by_length a b <= 0)%Z)
                   (FundResultSet.data output).
Proof.
  apply (final_data_sorted SampleRuns.by_length (Some [Sample.alpha; Sample.beta])
           true Sample.fails_once Sample.now Sample.writeOk 3 false false
           Sample.start).
  - unfold SampleRuns.by_length. intros a b. lia.
  - unfold SampleRuns.by_length. intros a b c. lia.
  - vm_compute. reflexivity.
Defined.

(** X10.  A record that [main] builds is one that [loadCache] keeps, when
    it reads the file again, exactly when the scrape reported no error and
    found a website or a Twitter link: the links [main] puts under
    [other_socials] do not count. *)
Theorem cacheable_build_result (fund : Fund.t) (scrapeResult : ScrapeResult.t)
    (scrapedAt : Z) :
  cacheable (build_result fund scrapeResult scrapedAt) =
    negb (truthy (ScrapeResult.error scrapeResult)) &&
    (truthy (Links.website (ScrapeResult.links scrapeResult)) ||
     truthy (Links.twitter (ScrapeResult.links scrapeResult))).
Proof.
  unfold cacheable, hasAnyLink, build_result. simpl.
  rewrite !truthy_or_null. now rewrite !orb_false_r.
Qed.

End FundRunFacts.

(** ** Runs of the funding-rounds entry point *)

Module RoundsRunFacts.
Import RoundsMain.

Section Facts.
Variable connectOk : bool.
Variable fetch : nat -> nat -> Outcome (list Row.t).
Variable parseDateToISO : option string -> option string.
Variable now : nat -> Z.
Variable writeOk : nat -> bool.
Variable maxRetries : nat.
Variable limit : nat.

Local Abbreviation attempts := (RoundsScraper.attempts fetch parseDateToISO now maxRetries).
Local Abbreviation saveResults := (saveResults now writeOk limit).
Local Abbreviation scrape_pages :=
  (scrape_pages fetch parseDateToISO now writeOk maxRetries limit).
Local Abbreviation main :=
  (main connectOk fetch parseDateToISO now writeOk maxRetries limit).

(** A round comes from a row that the browser returned, and its two
    derived fields are computed from the texts of that row. *)
Local Abbreviation from_a_row := (fun round : Round.t =>
  (exists n pageNumber rawData,
     fetch n pageNumber = Extracted rawData /\ Round.row round ∈ rawData) /\
  Round.raiseAmountRaw round
    = Amount.parseRaiseAmount (Row.raiseAmount (Round.row round)) /\
  Round.dateISO round = parseDateToISO (Row.date (Round.row round))).

Lemma page_attempts_data (pageNumber : nat) (todo : list nat) :
  forall (lastError : option string) (w : World),
    let r := (attempts todo pageNumber lastError w).1 in
    (truthy (PageResult.error r) = true -> PageResult.data r = []) /\
    (PageResult.error r = None \/ truthy (PageResult.error r) = true) /\
    Forall from_a_row (PageResult.data r).
Proof.
  induction todo as [|attempt later IH]; intros lastError w; cbv zeta.
  - simpl. split; [reflexivity|]. split; [|constructor].
    right. unfold or_default. destruct lastError as [s|]; [|reflexivity].
    destruct (String.eqb_spec s ""); [reflexivity|]. now apply truthy_Some.
  - cbn [RoundsScraper.attempts].
    destruct (fetch (calls w) pageNumber) as [message pageOpen|rawData] eqn:Hf.
    + apply IH.
    + destruct (Nat.eqb _ 0 && Nat.ltb attempt maxRetries); [apply IH|].
      simpl. split; [discriminate|]. split; [now left|].
      apply Forall_fmap, Forall_forall. intros row Hrow. simpl.
      split; [eauto|]. split; reflexivity.
Qed.

(** The loop over the pages: what it gathers and what it counts. *)
Lemma scrape_pages_data (todo : list nat) :
  forall (pages : nat) (startTime : Z) (p : Progress) (w : World),
    let run := scrape_pages todo pages startTime p w in
    successCount run.1 + failCount run.1 =
      successCount p + failCount p + length todo /\
    (pagesScraped p = successCount p ->
     pagesScraped run.1 = successCount run.1) /\
    (Forall from_a_row (allData p) -> Forall from_a_row (allData run.1)).
Proof.
  induction todo as [|pageNumber later IH]; intros pages startTime p w; cbv zeta.
  - simpl. split; [lia|auto].
  - cbn [RoundsMain.scrape_pages].
    pose proof (page_attempts_data pageNumber (seq 1 maxRetries) None
                  (emit (EvUnit (TPage pageNumber)) w)) as (Hempty & _ & Hdata).
    unfold RoundsScraper.scrapePage.
    destruct (attempts (seq 1 maxRetries) pageNumber None _) as [result w2].
    simpl in Hempty, Hdata.
    set (p' := if truthy (PageResult.error result) then _ else _).
    destruct (saveResults (allData p') (pagesScraped p') startTime true w2)
      as [ok w3].
    set (w4 := if Nat.ltb pageNumber pages then _ else w3).
    destruct (IH pages startTime p' w4) as (Hcount & Hpages & Hall).
    split; [|split].
    + rewrite Hcount. subst p'. simpl.
      destruct (truthy (PageResult.error result)); simpl; lia.
    + intros Hp. apply Hpages. subst p'.
      destruct (truthy (PageResult.error result)); simpl; lia.
    + intros Hp. apply Hall. subst p'.
      destruct (truthy (PageResult.error result)); simpl; [exact Hp|].
      apply Forall_app. split; [exact Hp|exact Hdata].
Qed.

Lemma rounds_main_completed (w w' : World) :
  main w = (Completed, w') ->
  exists p w2,
    scrape_pages (seq 1 (pagesNeeded limit)) (pagesNeeded limit) (clock now w)
      (mkProgress [] 0 0 0) (emit (EvConnect true) w) = (p, w2) /\
    Files.rounds (files w') =
      Holding
        (RoundsResultSet.mk
           (RoundsMetadata.mk (clock now (emit EvDisconnect w2))
              "cryptorank.io/funding-rounds" (length (allData p)) limit
              (pagesScraped p) false
              (clock now (emit EvDisconnect w2) - clock now w)%Z)
           (json_round <$> allData p)).
Proof.
  unfold RoundsMain.main. destruct connectOk; cbn [negb]; [|discriminate].
  destruct (scrape_pages _ _ _ _ _) as [p w2] eqn:Hrun.
  unfold RoundsMain.saveResults.
  destruct (writeOk (length (trace (emit EvDisconnect w2)))); [|discriminate].
  intros [= <-]. exists p, w2. split; [reflexivity|reflexivity].
Qed.

(** X11.  The document a completed run of the funding-rounds entry point
    leaves in its output file is marked final, records the limit of the
    run, counts in [totalRounds] the rounds of [data] and in
    [pagesScraped] at most the pages the limit asks for; and every round
    of [data] is a row that the browser returned for some page, with
    [dateISO] computed by [parseDateToISO] from the [date] text of that
    very row, and with [raiseAmountRaw] the number [parseRaiseAmount]
    computes from its [raiseAmount] text as [JSON.stringify] writes it:
    [null] in place of a number that is not finite.  (So a page that
    fails adds nothing, and a run whose pages all fail still completes,
    with an empty [data].) *)
Theorem rounds_final_document (w w' : World) :
  main w = (Completed, w') ->
  exists output,
    Files.rounds (files w') = Holding output /\
    let metadata := RoundsResultSet.metadata output in
    RoundsMetadata.partial metadata = false /\
    RoundsMetadata.limit metadata = limit /\
    RoundsMetadata.totalRounds metadata = length (RoundsResultSet.data output) /\
    RoundsMetadata.pagesScraped metadata <= pagesNeeded limit /\
    Forall (fun round =>
              (exists n pageNumber rawData,
                 fetch n pageNumber = Extracted rawData /\
                 Round.row round ∈ rawData) /\
              Round.raiseAmountRaw round
                = json_number
                    (Amount.parseRaiseAmount (Row.raiseAmount (Round.row round))) /\
              Round.dateISO round = parseDateToISO (Row.date (Round.row round)))
           (RoundsResultSet.data output).
Proof.
  intros Hmain. destruct (rounds_main_completed w w' Hmain) as (p & w2 & Hrun & Hfile).
  eexists. split; [exact Hfile|]. cbv zeta.
  cbn [RoundsResultSet.metadata RoundsResultSet.data RoundsMetadata.partial
       RoundsMetadata.limit RoundsMetadata.totalRounds
       RoundsMetadata.pagesScraped].
  pose proof (scrape_pages_data (seq 1 (pagesNeeded limit)) (pagesNeeded limit)
                (clock now w) (mkProgress [] 0 0 0) (emit (EvConnect true) w))
    as (Hcount & Hpages & Hall).
  rewrite Hrun in Hcount, Hpages, Hall. simpl in Hcount, Hpages, Hall.
  rewrite length_seq in Hcount.
  split; [reflexivity|]. split; [reflexivity|].
  split; [now rewrite length_fmap|].
  split; [rewrite Hpages by reflexivity; lia|].
  apply Forall_fmap. eapply Forall_impl; [apply Hall; constructor|].
  intros round (Hrow & Hraw & Hdate). unfold compose.
  cbn [json_round Round.row Round.raiseAmountRaw Round.dateISO].
  split; [exact Hrow|]. split; [now rewrite Hraw|exact Hdate].
Qed.

End Facts.

Lemma rounds_final_document_witness :
  exists output,
    Files.rounds (files SampleRuns.rounds_run.2) = Holding output /\
    let metadata := RoundsResultSet.metadata output in
    RoundsMetadata.partial metadata = false /\
    RoundsMetadata.limit metadata = 40 /\
    RoundsMetadata.totalRounds metadata = length (RoundsResultSet.data output) /\
    RoundsMetadata.pagesScraped metadata <= pagesNeeded 40 /\
    Forall (fun round =>
              (exists n pageNumber rawData,
                 Sample.page_fails_once n pageNumber = Extracted rawData /\
                 Round.row round ∈ rawData) /\
              Round.raiseAmountRaw round
                = json_number
                    (Amount.parseRaiseAmount (Row.raiseAmount (Round.row round))) /\
              Round.dateISO round
                = Sample.parseDateToISO (Row.date (Round.row round)))
           (RoundsResultSet.data output).
Proof.
  apply (rounds_final_document true Sample.page_fails_once Sample.parseDateToISO
           Sample.now Sample.writeOk 3 40 Sample.start).
  vm_compute. reflexivity.
Defined.

End RoundsRunFacts.

(** ** Project details and runs of the project-details entry point *)

Module ProjectRunFacts.
Import ProjectMain ProjectScraper DetailsShape.

(** A property of the filtered object is the property of the full object,
    unless that one is [null] or an empty array. *)
Lemma get_omap_keep (name : string) (entries : list (string * option Field)) :
  NoDup (entries.*1) ->
  JsMap.get name (omap keep entries) =
    match JsMap.get name entries with
    | Some (Some (FList [])) => None
    | Some (Some value) => Some value
    | _ => None
    end.
Proof.
  induction entries as [|[k v] entries IH]; intros Hnd; [reflexivity|].
  rewrite fmap_cons in Hnd. apply NoDup_cons in Hnd as [Hk Hnd].
  specialize (IH Hnd). cbn [omap list_omap JsMap.get].
  assert (Hdrop : String.eqb k name = true ->
                  JsMap.get name (omap keep entries) = None).
  { intros ->%String.eqb_eq. apply JsMapFacts.get_None_keys.
    intros Hin. apply Hk. unfold JsMap.keys in Hin.
    apply list_elem_of_fmap in Hin as ([k' v'] & -> & Hin).
    apply list_elem_of_omap in Hin as ([k'' v''] & Hin & Hkeep).
    apply list_elem_of_fmap. exists (k'', v''). split; [|exact Hin]. simpl.
    destruct v'' as [[| |[|]|]|]; simpl in Hkeep; congruence. }
  destruct v as [[s|x|[|item items]|t]|]; cbn [keep JsMap.get];
    destruct (String.eqb k name) eqn:E; auto.
Qed.

Lemma keys_omap_keep (entries : list (string * option Field)) :
  NoDup (entries.*1) -> NoDup (JsMap.keys (omap keep entries)).
Proof.
  unfold JsMap.keys.
  induction entries as [|[k v] entries IH]; intros Hnd; [constructor|].
  rewrite fmap_cons in Hnd. apply NoDup_cons in Hnd as [Hk Hnd].
  specialize (IH Hnd). cbn [omap list_omap].
  assert (Hfresh : k ∉ (omap keep entries).*1).
  { intros Hin. apply Hk.
    apply list_elem_of_fmap in Hin as ([k' v'] & -> & Hin).
    apply list_elem_of_omap in Hin as ([k'' v''] & Hin & Hkeep).
    apply list_elem_of_fmap. exists (k'', v''). split; [|exact Hin]. simpl.
    destruct v'' as [[| |[|]|]|]; simpl in Hkeep; congruence. }
  destruct v as [[s|x|[|item items]|t]|]; cbn [keep]; auto;
    rewrite fmap_cons; apply NoDup_cons; auto.
Qed.

Lemma fullDetails_NoDup (raw : RawDetails.t) (scrapedAt : Z) :
  NoDup ((fullDetails raw scrapedAt).*1).
Proof.
  cbn [fullDetails fmap list_fmap fst].
  apply (bool_decide_unpack _). vm_compute. reflexivity.
Qed.

Lemma raw_of_text (entries : list (string * option Field)) (rawName name : string)
    (parse : option string -> option Amount.double) (v : option string) :
  NoDup (entries.*1) ->
  parse None = None ->
  JsMap.get rawName entries = Some (number (parse v)) ->
  JsMap.get name entries = Some (text v) ->
  prop rawName (omap keep entries)
    = FNumber <$> parse (as_text (prop name (omap keep entries))).
Proof.
  intros Hnd Hnone Hraw Htext. unfold prop.
  rewrite !get_omap_keep, Hraw, Htext by exact Hnd.
  destruct v as [s|]; simpl.
  - now destruct (parse (Some s)).
  - now rewrite Hnone.
Qed.

(** The object built from the texts [raw] at the time [scrapedAt]. *)
Lemma details_of_raw (raw : RawDetails.t) (scrapedAt : Z) :
  let details := omap keep (fullDetails raw scrapedAt) in
  NoDup (JsMap.keys details) /\
  prop "scrapedAt" details = Some (FTime scrapedAt) /\
  (forall name, prop name details <> Some (FList [])) /\
  Forall (fun '(rawName, name, parse) =>
            prop rawName details = FNumber <$> parse (as_text (prop name details)))
         raw_fields.
Proof.
  cbv zeta. pose proof (fullDetails_NoDup raw scrapedAt) as Hnd.
  split; [now apply keys_omap_keep|].
  split; [unfold prop; now rewrite get_omap_keep|]. split.
  - intros name. unfold prop. rewrite get_omap_keep by exact Hnd.
    destruct (JsMap.get name _) as [[[| |[|]|]|]|]; congruence.
  - unfold raw_fields. repeat apply Forall_cons_2; [..|apply Forall_nil_2];
      cbv beta iota;
      (eapply raw_of_text; [exact Hnd|reflexivity|reflexivity|reflexivity]).
Qed.

Section Facts.
Variable connectOk : bool.
Variable fetch : nat -> string -> Outcome RawDetails.t.
Variable now : nat -> Z.
Variable writeOk : nat -> bool.
Variable maxRetries : nat.
Variable limit : option nat.

Local Abbreviation attempts := (attempts fetch now maxRetries).
Local Abbreviation scrapeProject := (scrapeProject fetch now maxRetries).
Local Abbreviation saveResults := (saveResults now writeOk).
Local Abbreviation scrape_from := (scrape_from fetch now writeOk maxRetries).
Local Abbreviation main := (main connectOk fetch now writeOk maxRetries limit).

Lemma project_attempts_result (projectKey : string) (todo : list nat) :
  forall (lastError : option string) (w : World),
    let r := (attempts todo projectKey lastError w).1 in
    (exists n raw scrapedAt,
       fetch n projectKey = Extracted raw /\
       ProjectResult.details r = Some (omap keep (fullDetails raw scrapedAt)) /\
       ProjectResult.error r = None) \/
    (ProjectResult.details r = None /\ truthy (ProjectResult.error r) = true).
Proof.
  induction todo as [|attempt later IH]; intros lastError w; cbv zeta.
  - right. simpl. split; [reflexivity|].
    unfold or_default. destruct lastError as [s|]; [|reflexivity].
    destruct (String.eqb_spec s ""); [reflexivity|]. now apply truthy_Some.
  - cbn [ProjectScraper.attempts].
    destruct (fetch (calls w) projectKey) as [message pageOpen|raw] eqn:Hf.
    + apply IH.
    + left.
      exists (calls w), raw,
        (now (length (trace (emit (EvAttempt (TProject projectKey) attempt)
                               (next_call w))))).
      split; [exact Hf|]. split; reflexivity.
Qed.

(** X13.  [scrapeProject] returns either no [details] and an error whose
    message is not empty, or no error and a [details] object in which no
    property name occurs twice, [scrapedAt] is present, no property holds
    an empty array, and each of the seven numeric properties
    ([tokenPriceRaw], [marketCapRaw], [fdvRaw], [totalSupplyRaw],
    [circulatingSupplyRaw], [totalRaisedRaw], [valuationRaw]) is what its
    parser makes of the text property it belongs to: present with that
    number when the parser gives one, missing when the text is missing or
    the parser gives [null]. *)
Theorem scrapeProject_details (projectKey : string) (w : World) :
  let r := (scrapeProject projectKey w).1 in
  match ProjectResult.details r with
  | Some details =>
      ProjectResult.error r = None /\
      NoDup (JsMap.keys details) /\
      (exists scrapedAt, prop "scrapedAt" details = Some (FTime scrapedAt)) /\
      (forall name, prop name details <> Some (FList [])) /\
      Forall (fun '(rawName, name, parse) =>
                prop rawName details
                  = FNumber <$> parse (as_text (prop name details)))
             raw_fields
  | None =>
      exists message, ProjectResult.error r = Some message /\ message <> ""
  end.
Proof.
  cbv zeta. unfold ProjectScraper.scrapeProject.
  destruct (project_attempts_result projectKey (seq 1 maxRetries) None w)
    as [(n & raw & scrapedAt & _ & Hd & He)|(Hd & He)]; rewrite Hd.
  - split; [exact He|].
    destruct (details_of_raw raw scrapedAt) as (H1 & H2 & H3 & H4). eauto 10.
  - destruct (ProjectResult.error _) as [message|]; [|discriminate].
    exists message. split; [reflexivity|]. now apply truthy_Some.
Qed.

(** What the map of results holds for a project: an object of details
    and no error, or no details and an error. *)
Local Abbreviation settled := (fun r : ProjectResult.t =>
  (exists details, ProjectResult.details r = Some details /\
                   ProjectResult.error r = None) \/
  (ProjectResult.details r = None /\ truthy (ProjectResult.error r) = true)).

Lemma project_scrape_from_inv (todo : list Project.t) :
  forall (i total : nat) (data : list Round.t) (startTime : Z) (p : Progress)
         (w : World),
    let run := scrape_from todo i total data startTime p w in
    successCount run.1 + failCount run.1 =
      successCount p + failCount p + length todo /\
    (forall k, JsMap.has k (projectDetails run.1) = true <->
               JsMap.has k (projectDetails p) = true \/
               k ∈ (Project.projectKey <$> todo)) /\
    ((forall k r, JsMap.get k (projectDetails p) = Some r -> settled r) ->
     forall k r, JsMap.get k (projectDetails run.1) = Some r -> settled r).
Proof.
  induction todo as [|project later IH]; intros i total data startTime p w;
    cbv zeta.
  - simpl. split; [lia|]. split; [|auto].
    intros k. rewrite elem_of_nil. tauto.
  - cbn [ProjectMain.scrape_from].
    pose proof (project_attempts_result (Project.projectKey project)
                  (seq 1 maxRetries) None
                  (emit (EvUnit (TProject (Project.projectKey project))) w))
      as Hres.
    unfold ProjectScraper.scrapeProject.
    destruct (attempts (seq 1 maxRetries) (Project.projectKey project) None _)
      as [result w2]. cbv zeta in Hres. cbn [fst] in Hres.
    set (p' := mkProgress _ _ _).
    destruct (saveResults data (projectDetails p') total (successCount p')
                (failCount p') startTime true w2) as [ok w3].
    set (w4 := if Z.ltb _ _ then _ else w3).
    destruct (IH (S i) total data startTime p' w4) as (Hcount & Hhas & Hall).
    split; [|split].
    + rewrite Hcount. subst p'. simpl.
      destruct (truthy (ProjectResult.error result)); lia.
    + intros k. rewrite Hhas. subst p'. cbn [projectDetails].
      rewrite fmap_cons, elem_of_cons.
      rewrite !JsMapFacts.has_keys, JsMapFacts.elem_of_keys_set. tauto.
    + intros Hp. apply Hall. subst p'. cbn [projectDetails].
      intros k r. rewrite JsMapFacts.get_set.
      destruct (String.eqb (Project.projectKey project) k); [|apply Hp].
      intros [= <-].
      destruct Hres as [(n & raw & t & _ & Hd & He)|Hres]; [left; eauto|now right].
Qed.

(** The project-details entry point writes one file only. *)
Local Abbreviation untouched := (fun f f' : Files.t =>
  Files.tier1 f' = Files.tier1 f /\ Files.tier1_2 f' = Files.tier1_2 f /\
  Files.rounds f' = Files.rounds f).

Lemma project_saveResults_frame (data : list Round.t)
    (projectDetails : JsMap.t ProjectResult.t) (totalProjects successful failed : nat)
    (startTime : Z) (partial : bool) (w : World) :
  untouched (files w)
    (files (saveResults data projectDetails totalProjects successful failed
              startTime partial w).2).
Proof.
  unfold ProjectMain.saveResults.
  destruct (writeOk (length (trace w))); repeat split.
Qed.

Lemma project_scrape_from_frame (todo : list Project.t) :
  forall (i total : nat) (data : list Round.t) (startTime : Z) (p : Progress)
         (w : World),
    untouched (files w) (files (scrape_from todo i total data startTime p w).2).
Proof.
  induction todo as [|project later IH]; intros i total data startTime p w.
  - repeat split.
  - cbn [ProjectMain.scrape_from].
    destruct (ProjectScraperFacts.project_attempts_frame fetch now maxRetries
                (Project.projectKey project) (seq 1 maxRetries) None
                (emit (EvUnit (TProject (Project.projectKey project))) w))
      as (_ & _ & _ & F2).
    unfold ProjectScraper.scrapeProject.
    destruct (attempts (seq 1 maxRetries) (Project.projectKey project) None _)
      as [result w2]. cbn [snd] in F2.
    set (p' := mkProgress _ _ _).
    pose proof (project_saveResults_frame data (projectDetails p') total
                  (successCount p') (failCount p') startTime true w2) as F3.
    destruct (saveResults data (projectDetails p') total (successCount p')
                (failCount p') startTime true w2) as [ok w3]. cbn [snd] in F3.
    set (w4 := if Z.ltb _ _ then _ else w3).
    assert (F4 : files w4 = files w3) by (subst w4; now destruct (Z.ltb _ _)).
    destruct (IH (S i) total data startTime p' w4) as (H1 & H2 & H3).
    rewrite F4 in H1, H2, H3. rewrite F2 in F3. cbn [emit files] in F3.
    destruct F3 as (G1 & G2 & G3). repeat split; congruence.
Qed.

Lemma project_main_frame (w : World) : untouched (files w) (files (main w).2).
Proof.
  unfold ProjectMain.main.
  destruct (Files.rounds (files w)) as [| | |fundingData] eqn:Hin;
    try (cbn [snd]; repeat split; assumption).
  destruct connectOk; cbn [negb]; [|cbn [snd]; repeat split; assumption].
  set (data := RoundsResultSet.data fundingData).
  set (projects := apply_limit limit (Extract.extractUniqueProjects data)).
  pose proof (project_scrape_from_frame projects 0 (length projects) data
                (clock now w) (mkProgress JsMap.empty 0 0)
                (emit (EvConnect true) w)) as F2.
  destruct (scrape_from _ _ _ _ _ _ _) as [p w2]. cbn [snd emit files] in F2.
  pose proof (project_saveResults_frame data (projectDetails p) (length projects)
                (successCount p) (failCount p) (clock now w) false
                (emit EvDisconnect w2)) as F4.
  destruct (saveResults _ _ _ _ _ _ _ _) as [ok w4]. cbn [snd emit files] in F4.
  destruct F2 as (G1 & G2 & G3), F4 as (K1 & K2 & K3).
  destruct ok; cbn [snd]; repeat split; congruence.
Qed.

Lemma project_main_completed (w w' : World) :
  main w = (Completed, w') ->
  exists fundingData p w2,
    let data := RoundsResultSet.data fundingData in
    let projects := apply_limit limit (Extract.extractUniqueProjects data) in
    Files.rounds (files w) = Holding fundingData /\
    scrape_from projects 0 (length projects) data (clock now w)
      (mkProgress JsMap.empty 0 0) (emit (EvConnect true) w) = (p, w2) /\
    Files.detailed (files w') =
      Holding
        (DetailedResultSet.mk
           (DetailedMetadata.mk (clock now (emit EvDisconnect w2))
              "cryptorank.io/ico" (length projects) (successCount p) (failCount p)
              false (clock now (emit EvDisconnect w2) - clock now w)%Z)
           (enrich (projectDetails p) <$> data)).
Proof.
  unfold ProjectMain.main.
  destruct (Files.rounds (files w)) as [| | |fundingData]; try discriminate.
  destruct connectOk; cbn [negb]; [|discriminate].
  destruct (scrape_from _ _ _ _ _ _ _) as [p w2] eqn:Hrun.
  unfold ProjectMain.saveResults.
  destruct (writeOk (length (trace (emit EvDisconnect w2)))); [|discriminate].
  intros [= <-]. exists fundingData, p, w2. cbv zeta.
  split; [reflexivity|]. split; [exact Hrun|reflexivity].
Qed.

Lemma round_enrich (projectDetails : JsMap.t ProjectResult.t) (round : Round.t) :
  EnrichedRound.round (enrich projectDetails round) = round.
Proof. unfold enrich. now destruct (JsMap.get _ _). Qed.

Lemma rounds_of_enriched (projectDetails : JsMap.t ProjectResult.t)
    (data : list Round.t) :
  EnrichedRound.round <$> (enrich projectDetails <$> data) = data.
Proof.
  induction data as [|r l IH]; [reflexivity|].
  rewrite !fmap_cons, round_enrich. f_equal. exact IH.
Qed.

(** X14.  A completed run of the project-details entry point leaves its
    input file as it was, and its output file holds a final document with
    exactly the rounds of the input, in the same order, each with
    [details] and [detailsError] added; [totalProjects] is the number of
    projects of the run (the unique projects of the input, cut to the
    limit) and is the sum of [successful] and [failed]. *)
Theorem project_final_document (w w' : World) :
  main w = (Completed, w') ->
  exists fundingData output,
    Files.rounds (files w) = Holding fundingData /\
    Files.rounds (files w') = Holding fundingData /\
    Files.detailed (files w') = Holding output /\
    let projects :=
      apply_limit limit
        (Extract.extractUniqueProjects (RoundsResultSet.data fundingData)) in
    let metadata := DetailedResultSet.metadata output in
    EnrichedRound.round <$> DetailedResultSet.data output
      = RoundsResultSet.data fundingData /\
    DetailedMetadata.partial metadata = false /\
    DetailedMetadata.totalProjects metadata = length projects /\
    DetailedMetadata.successful metadata + DetailedMetadata.failed metadata
      = length projects.
Proof.
  intros Hmain.
  destruct (project_main_completed w w' Hmain)
    as (fundingData & p & w2 & Hin & Hrun & Hout).
  cbv zeta in Hrun, Hout.
  exists fundingData. eexists. split; [exact Hin|].
  split; [|split; [exact Hout|]].
  - destruct (project_main_frame w) as (_ & _ & H). rewrite Hmain in H.
    cbn [snd] in H. now rewrite H.
  - cbv zeta. simpl. split; [apply rounds_of_enriched|].
    split; [reflexivity|]. split; [reflexivity|].
    set (projects := apply_limit limit _) in *.
    pose proof (project_scrape_from_inv projects 0 (length projects)
                  (RoundsResultSet.data fundingData)
                  (clock now w) (mkProgress JsMap.empty 0 0)
                  (emit (EvConnect true) w)) as (Hcount & _).
    rewrite Hrun in Hcount. simpl in Hcount. exact Hcount.
Qed.

(** X15.  In the document a completed run of the project-details entry
    point writes, a round whose [projectKey] names a project of the run
    has either [details] and no [detailsError], or no [details] and a
    [detailsError] that is not empty; every other round (no key, an empty
    key, a project beyond the limit) has neither.  The name a key selects
    is the key itself, and "null" for a missing key. *)
Theorem project_details_or_error (w w' : World) :
  main w = (Completed, w') ->
  exists fundingData output,
    Files.rounds (files w) = Holding fundingData /\
    Files.detailed (files w') = Holding output /\
    let projects :=
      apply_limit limit
        (Extract.extractUniqueProjects (RoundsResultSet.data fundingData)) in
    Forall (fun e =>
              let name := property (Round.projectKey (EnrichedRound.round e)) in
              (name ∈ (Project.projectKey <$> projects) ->
               (exists details, EnrichedRound.details e = Some details /\
                                EnrichedRound.detailsError e = None) \/
               (EnrichedRound.details e = None /\
                exists message,
                  EnrichedRound.detailsError e = Some message /\ message <> "")) /\
              (name ∉ (Project.projectKey <$> projects) ->
               EnrichedRound.details e = None /\
               EnrichedRound.detailsError e = None))
           (DetailedResultSet.data output).
Proof.
  intros Hmain.
  destruct (project_main_completed w w' Hmain)
    as (fundingData & p & w2 & Hin & Hrun & Hout).
  cbv zeta in Hrun, Hout.
  exists fundingData. eexists. split; [exact Hin|]. split; [exact Hout|].
  cbv zeta. simpl.
  set (projects := apply_limit limit _) in *.
  pose proof (project_scrape_from_inv projects 0 (length projects)
                (RoundsResultSet.data fundingData)
                (clock now w) (mkProgress JsMap.empty 0 0)
                (emit (EvConnect true) w)) as (_ & Hhas & Hall).
  rewrite Hrun in Hhas, Hall. simpl in Hhas, Hall.
  assert (Hsettled : forall k r, JsMap.get k (projectDetails p) = Some r -> settled r)
    by (apply Hall; discriminate).
  apply Forall_fmap, Forall_forall. intros round _. simpl.
  rewrite round_enrich.
  set (name := property (Round.projectKey round)).
  unfold enrich. fold name.
  destruct (JsMap.get name (projectDetails p)) as [r|] eqn:Hget.
  - split.
    + intros _. cbn [EnrichedRound.details EnrichedRound.detailsError].
      destruct (Hsettled _ _ Hget) as [(details & Hd & He)|(Hd & He)].
      * left. exists details. rewrite He. auto.
      * right. split; [exact Hd|]. rewrite or_null_truthy by exact He.
        destruct (ProjectResult.error r) as [message|]; [|discriminate].
        exists message. split; [reflexivity|]. now apply truthy_Some.
    + intros Hnot. exfalso. apply Hnot.
      assert (Hk : JsMap.has name (projectDetails p) = true)
        by (unfold JsMap.has; now rewrite Hget).
      apply Hhas in Hk as [Hk|Hk]; [discriminate|exact Hk].
  - split; [|auto]. intros Hk.
    assert (Hh : JsMap.has name (projectDetails p) = true)
      by (apply Hhas; now right).
    unfold JsMap.has in Hh. rewrite Hget in Hh. discriminate.
Qed.

End Facts.

Lemma project_final_document_witness :
  exists fundingData output,
    Files.rounds (files SampleRuns.with_rounds) = Holding fundingData /\
    Files.rounds (files SampleRuns.project_run.2) = Holding fundingData /\
    Files.detailed (files SampleRuns.project_run.2) = Holding output /\
    let projects :=
      apply_limit None
        (Extract.extractUniqueProjects (RoundsResultSet.data fundingData)) in
    let metadata := DetailedResultSet.metadata output in
    EnrichedRound.round <$> DetailedResultSet.data output
      = RoundsResultSet.data fundingData /\
    DetailedMetadata.partial metadata = false /\
    DetailedMetadata.totalProjects metadata = length projects /\
    DetailedMetadata.successful metadata + DetailedMetadata.failed metadata
      = length projects.
Proof.
  apply (project_final_document true SampleRuns.reads_page Sample.now
           Sample.writeOk 3 None SampleRuns.with_rounds).
  vm_compute. reflexivity.
Defined.

Lemma project_details_or_error_witness :
  exists fundingData output,
    Files.rounds (files SampleRuns.with_rounds) = Holding fundingData /\
    Files.detailed (files SampleRuns.project_run.2) = Holding output /\
    let projects :=
      apply_limit None
        (Extract.extractUniqueProjects (RoundsResultSet.data fundingData)) in
    Forall (fun e =>
              let name := property (Round.projectKey (EnrichedRound.round e)) in
              (name ∈ (Project.projectKey <$> projects) ->
               (exists details, EnrichedRound.details e = Some details /\
                                EnrichedRound.detailsError e = None) \/
               (EnrichedRound.details e = None /\
                exists message,
                  EnrichedRound.detailsError e = Some message /\ message <> "")) /\
              (name ∉ (Project.projectKey <$> projects) ->
               EnrichedRound.details e = None /\
               EnrichedRound.detailsError e = None))
           (DetailedResultSet.data output).
Proof.
  apply (project_details_or_error true SampleRuns.reads_page Sample.now
           Sample.writeOk 3 None SampleRuns.with_rounds).
  vm_compute. reflexivity.
Defined.

End ProjectRunFacts.

(** ** More on the parsers of amounts *)

Module AmountMoreFacts.
Import Amount AmountShape AmountFacts.

(** *** The sentinels and the pattern *)

Lemma strip_sentinel (s : string) :
  is_sentinel s = true -> parse_cleaned (toUpperCase (strip s)) = None.
Proof.
  intros [->|[->| ->]]%is_sentinel_iff; reflexivity.
Qed.

Lemma strip_supply_sentinel (s : string) :
  is_sentinel s = true -> parse_cleaned (toUpperCase (strip_supply s)) = None.
Proof.
  intros [->|[->| ->]]%is_sentinel_iff; reflexivity.
Qed.

Lemma parseRaiseAmount_cleaned (s : string) :
  parseRaiseAmount (Some s) = parse_cleaned (cleaned s).
Proof.
  unfold parseRaiseAmount, cleaned.
  destruct (is_sentinel s) eqn:E; [|reflexivity].
  now rewrite strip_sentinel.
Qed.

Lemma parseSupply_cleaned (s : string) :
  parseSupply (Some s) = parse_cleaned (toUpperCase (strip_supply s)).
Proof.
  unfold parseSupply.
  destruct (is_sentinel s) eqn:E; [|reflexivity].
  now rewrite strip_supply_sentinel.
Qed.

(** X17.  [parseRaiseAmount] depends on its input only through the
    cleaned text (the input without "$", commas and white space, in upper
    case): two inputs with the same cleaned text give the same result.
    The three sentinels, which are tested before the cleaning, do not break
    this. *)
Theorem parseRaiseAmount_depends_on_cleaned_text (s s' : string) :
  cleaned s = cleaned s' ->
  parseRaiseAmount (Some s) = parseRaiseAmount (Some s').
Proof. intros H. now rewrite !parseRaiseAmount_cleaned, H. Qed.

Lemma parseRaiseAmount_depends_on_cleaned_text_witness :
  parseRaiseAmount (Some "$5.5M") = parseRaiseAmount (Some " 5.5 m").
Proof.
  apply (parseRaiseAmount_depends_on_cleaned_text "$5.5M" " 5.5 m"). reflexivity.
Defined.

(** *** The dollar sign *)

Local Abbreviation not_dollar := (fun c : ascii => negb (Ascii.eqb c "$")).

Lemma includes_dollar (s : string) :
  includes s "$" = negb (all_units not_dollar s).
Proof.
  induction s as [|c s IH]; [reflexivity|].
  cbn [includes String.prefix all_units]. rewrite IH.
  destruct (Ascii.eqb_spec c "$") as [->|Hne].
  - now destruct s.
  - destruct (ascii_dec "$" c) as [E|_]; [congruence|reflexivity].
Qed.

Lemma all_units_app (p : ascii -> bool) (a b : string) :
  all_units p (a +:+ b) = all_units p a && all_units p b.
Proof.
  induction a as [|c a IH]; simpl; [reflexivity|].
  now rewrite IH, andb_assoc.
Qed.

Lemma all_units_impl (p q : ascii -> bool) (s : string) :
  (forall c, p c = true -> q c = true) ->
  all_units p s = true -> all_units q s = true.
Proof.
  intros Hpq. induction s as [|c s IH]; simpl; [reflexivity|].
  intros [Hc Hs]%andb_prop. now rewrite (Hpq c Hc), IH.
Qed.

Lemma digit_or_dot_not_dollar (c : ascii) :
  is_digit_or_dot c = true -> not_dollar c = true.
Proof.
  cbv beta. destruct (Ascii.eqb_spec c "$") as [->|]; [discriminate|reflexivity].
Qed.

(** A text that the pattern accepts holds no dollar sign. *)
Lemma match_amount_no_dollar (c text : string) (sfx : option ascii) :
  match_amount c = Some (text, sfx) -> includes c "$" = false.
Proof.
  intros (-> & _ & Hall & Hs)%match_splits.
  rewrite includes_dollar, all_units_app.
  rewrite (all_units_impl _ _ _ digit_or_dot_not_dollar Hall).
  now destruct Hs as [->|[->|[->| ->]]].
Qed.

Lemma upper_char_dollar (c : ascii) :
  not_dollar (upper_char c) = not_dollar c.
Proof. destruct c as [[] [] [] [] [] [] [] []]; reflexivity. Qed.

Lemma toUpperCase_dollar (s : string) :
  all_units not_dollar (toUpperCase s) = all_units not_dollar s.
Proof.
  induction s as [|c s IH]; [reflexivity|].
  cbn [toUpperCase all_units]. now rewrite upper_char_dollar, IH.
Qed.

Lemma is_stripped_dollar (c : ascii) :
  is_stripped c = Ascii.eqb c "$" || is_stripped_supply c.
Proof. destruct c as [[] [] [] [] [] [] [] []]; reflexivity. Qed.

Lemma strip_supply_dollar (s : string) :
  all_units not_dollar (strip_supply s) = all_units not_dollar s.
Proof.
  induction s as [|c s IH]; [reflexivity|].
  cbn [strip_supply all_units].
  destruct (is_stripped_supply c) eqn:E; cbn [all_units]; rewrite IH;
    [|reflexivity].
  destruct (Ascii.eqb_spec c "$") as [->|]; [discriminate E|reflexivity].
Qed.

Lemma strip_without_dollar (s : string) :
  all_units not_dollar s = true -> strip s = strip_supply s.
Proof.
  induction s as [|c s IH]; [reflexivity|].
  cbn [all_units strip strip_supply]. intros [Hc Hs]%andb_prop.
  rewrite is_stripped_dollar, (IH Hs).
  apply negb_true_iff in Hc. now rewrite Hc.
Qed.

(** X18.  [parseSupply] returns [null] on every text that holds a dollar
    sign, and on every other text what [parseAmount] returns. *)
Theorem parseSupply_and_parseAmount (s : string) :
  parseSupply (Some s) =
    if includes s "$" then None else parseAmount (Some s).
Proof.
  unfold parseAmount. rewrite parseSupply_cleaned, parseRaiseAmount_cleaned.
  rewrite includes_dollar. unfold cleaned.
  destruct (all_units not_dollar s) eqn:E; cbn [negb].
  - now rewrite strip_without_dollar.
  - unfold parse_cleaned.
    destruct (match_amount _) as [[text sfx]|] eqn:Hm; [|reflexivity].
    apply match_amount_no_dollar in Hm.
    rewrite includes_dollar, toUpperCase_dollar, strip_supply_dollar, E in Hm.
    discriminate.
Qed.

(** *** The sign of the result *)

Lemma shr_1_nonneg (mrs : shr_record) :
  (0 <= shr_m mrs)%Z -> (0 <= shr_m (shr_1 mrs))%Z.
Proof.
  destruct mrs as [[|[p|p|]|p] r s]; simpl; lia.
Qed.

Lemma iter_shr_1_nonneg (p : positive) :
  forall mrs, (0 <= shr_m mrs)%Z -> (0 <= shr_m (iter_pos shr_1 p mrs))%Z.
Proof.
  induction p as [p IH|p IH|]; intros mrs H; simpl.
  - apply IH, IH. now apply shr_1_nonneg.
  - now apply IH, IH.
  - now apply shr_1_nonneg.
Qed.

Lemma shr_fexp_nonneg (m e : Z) (l : location) :
  (0 <= m)%Z -> (0 <= shr_m (shr_fexp prec emax m e l).1)%Z.
Proof.
  intros H. unfold shr_fexp, shr.
  assert (H0 : (0 <= shr_m (shr_record_of_loc m l))%Z)
    by (destruct l as [|[]]; exact H).
  destruct (_ - e)%Z; simpl; [exact H0| |exact H0].
  now apply iter_shr_1_nonneg.
Qed.

Lemma round_nearest_even_nonneg (m : Z) (l : location) :
  (0 <= m)%Z -> (0 <= round_nearest_even m l)%Z.
Proof.
  intros H. destruct l as [|[]]; simpl; try lia.
  destruct (Z.even m); lia.
Qed.

Lemma binary_round_aux_non_negative (m e : Z) (l : location) :
  (0 <= m)%Z -> non_negative (binary_round_aux prec emax false m e l) = true.
Proof.
  intros H. unfold binary_round_aux.
  pose proof (shr_fexp_nonneg m e l H) as H1.
  destruct (shr_fexp prec emax m e l) as [mrs' e']. simpl in H1.
  pose proof (shr_fexp_nonneg _ e' loc_Exact
                (round_nearest_even_nonneg _ (loc_of_shr_record mrs') H1)) as H2.
  destruct (shr_fexp prec emax _ e' loc_Exact) as [mrs'' e'']. simpl in H2.
  destruct (shr_m mrs'') as [|q|q]; [reflexivity| |lia].
  now destruct (Z.leb e'' (emax - prec)).
Qed.

Lemma decimal_to_double_non_negative (d : Z) (k : nat) :
  non_negative (decimal_to_double d k) = true.
Proof.
  unfold decimal_to_double. destruct d as [|p|p]; try reflexivity.
  unfold SFdiv, SFdiv_core_binary.
  set (m' := match _ with Z0 => Z.pos p | Z.pos _ => _ | Z.neg _ => 0%Z end).
  assert (Hm : (0 <= m')%Z).
  { subst m'. destruct (_ - _)%Z; try lia. apply Z.shiftl_nonneg. lia. }
  pose proof (Z.div_pos m' (Z.pos (Z.to_pos (10 ^ Z.of_nat k))) Hm ltac:(lia)) as Hq.
  unfold Z.div in Hq.
  destruct (Z.div_eucl m' _) as [q r]. simpl in Hq.
  now apply binary_round_aux_non_negative.
Qed.

Lemma parseFloat_non_negative (text : string) (num : double) :
  parseFloat text = Some num -> non_negative num = true.
Proof.
  unfold parseFloat. destruct (span is_digit text) as [int_part rest].
  set (frac_part := match rest with String "."%char after => _ | _ => _ end).
  destruct int_part, frac_part; try discriminate; intros [= <-];
    apply decimal_to_double_non_negative.
Qed.

Lemma mul_finite_non_negative (num : double) (m : positive) (e : Z) :
  non_negative num = true ->
  non_negative (mul num (S754_finite false m e)) = true.
Proof.
  intros Hn. destruct num as [sx|sx| |sx mx ex]; try discriminate;
    simpl in Hn; apply negb_true_iff in Hn; subst; try reflexivity.
  unfold mul, SFmul. cbn [xorb].
  apply binary_round_aux_non_negative. lia.
Qed.

Lemma multiplier_finite (sfx : option ascii) (factor : Z) :
  multiplier sfx = Some factor ->
  exists m e, double_of_Z factor = S754_finite false m e.
Proof.
  unfold multiplier. destruct sfx as [ch|]; [|discriminate].
  destruct ch as [[] [] [] [] [] [] [] []]; try discriminate;
    intros [= <-]; vm_compute; eauto.
Qed.

Lemma parse_cleaned_non_negative (c : string) (x : double) :
  parse_cleaned c = Some x -> non_negative x = true.
Proof.
  unfold parse_cleaned.
  destruct (match_amount c) as [[text sfx]|]; [|discriminate].
  destruct (parseFloat text) as [num|] eqn:Hnum; [|discriminate].
  apply parseFloat_non_negative in Hnum.
  destruct (multiplier sfx) as [factor|] eqn:Hf; intros [= <-]; [|exact Hnum].
  destruct (multiplier_finite _ _ Hf) as (m & e & ->).
  now apply mul_finite_non_negative.
Qed.

(** X19.  A number returned by [parseRaiseAmount], [parseAmount] or
    [parseSupply] is never [NaN] and never negative: it is [+0], a positive
    finite number or [+Infinity]. *)
Theorem parsed_amounts_are_non_negative (v : option string) (x : double) :
  parseRaiseAmount v = Some x \/ parseAmount v = Some x \/ parseSupply v = Some x ->
  non_negative x = true.
Proof.
  unfold parseAmount. destruct v as [s|]; [|intros [H|[H|H]]; discriminate].
  rewrite parseSupply_cleaned, parseRaiseAmount_cleaned.
  intros [H|[H|H]]; eapply parse_cleaned_non_negative; eassumption.
Qed.

Lemma parsed_amounts_are_non_negative_witness :
  non_negative (double_of_Z 5500000) = true.
Proof.
  apply (parsed_amounts_are_non_negative (Some "$5.5M")). left. reflexivity.
Defined.

End AmountMoreFacts.

(** ** Command-line arguments *)

Module ArgsFacts.
Import Args.

Lemma includes_arg_elem_of (args : list string) (flag : string) :
  includes_arg args flag = true <-> flag ∈ args.
Proof.
  unfold includes_arg. rewrite existsb_exists. split.
  - intros (a & Hin & ->%String.eqb_eq). now apply list_elem_of_In.
  - intros Hin. exists flag. split; [now apply list_elem_of_In|].
    apply String.eqb_refl.
Qed.

Lemma includes_arg_same (args args' : list string) (flag : string) :
  (forall a, a ∈ args <-> a ∈ args') ->
  includes_arg args flag = includes_arg args' flag.
Proof.
  intros H. apply eq_true_iff_eq. rewrite !includes_arg_elem_of. apply H.
Qed.

(** X20.  [parseArgs] of the fund entry point looks only at which
    arguments occur: Tier 2 is included exactly when "--tier2" or "-t2" is
    one of the arguments, screenshots are enabled exactly when
    "--screenshots" or "-s" is; so two argument lists with the same
    elements, in any order and with any repetition, give the same
    flags. *)
Theorem parseFlags_by_membership (args args' : list string) :
  (forall a, a ∈ args <-> a ∈ args') ->
  parseFlags args = parseFlags args' /\
  (includeTier2 (parseFlags args) = true <-> "--tier2" ∈ args \/ "-t2" ∈ args) /\
  (enableScreenshots (parseFlags args) = true <->
   "--screenshots" ∈ args \/ "-s" ∈ args).
Proof.
  intros H. split; [|split].
  - unfold parseFlags. now rewrite !(includes_arg_same args args' _ H).
  - cbn [parseFlags includeTier2]. now rewrite orb_true_iff, !includes_arg_elem_of.
  - cbn [parseFlags enableScreenshots].
    now rewrite orb_true_iff, !includes_arg_elem_of.
Qed.

Lemma parseFlags_by_membership_witness :
  parseFlags ["-s"; "--tier2"; "-s"; "x"] = parseFlags ["x"; "--tier2"; "-s"] /\
  (includeTier2 (parseFlags ["-s"; "--tier2"; "-s"; "x"]) = true <->
   "--tier2" ∈ ["-s"; "--tier2"; "-s"; "x"] \/ "-t2" ∈ ["-s"; "--tier2"; "-s"; "x"]) /\
  (enableScreenshots (parseFlags ["-s"; "--tier2"; "-s"; "x"]) = true <->
   "--screenshots" ∈ ["-s"; "--tier2"; "-s"; "x"] \/
   "-s" ∈ ["-s"; "--tier2"; "-s"; "x"]).
Proof.
  apply (parseFlags_by_membership ["-s"; "--tier2"; "-s"; "x"] ["x"; "--tier2"; "-s"]).
  intros a. rewrite !elem_of_cons, !elem_of_nil. tauto.
Defined.

Lemma scan_step (arg next : string) (after : list string) (limit : Amount.double) :
  scan (arg :: next :: after) limit =
    if is_limit_flag arg && truthy (Some next) then
      scan after
        (match parseInt next with
         | Some parsed => if positive parsed then parsed else limit
         | None => limit
         end)
    else scan (next :: after) limit.
Proof. reflexivity. Qed.

Lemma scan_nullable_step (arg next : string) (after : list string)
    (limit : option Amount.double) :
  scan_nullable (arg :: next :: after) limit =
    if is_limit_flag arg && truthy (Some next) then
      scan_nullable after
        (match parseInt next with
         | Some parsed => if positive parsed then Some parsed else limit
         | None => limit
         end)
    else scan_nullable (next :: after) limit.
Proof. reflexivity. Qed.

(** The loop keeps what it has or takes a positive number written after a
    limit flag. *)
Lemma scan_nullable_source (n : nat) :
  forall (args : list string) (limit : option Amount.double),
    length args <= n ->
    scan_nullable args limit = limit \/
    exists before flag text after parsed,
      args = before ++ flag :: text :: after /\
      is_limit_flag flag = true /\ text <> "" /\
      parseInt text = Some parsed /\ positive parsed = true /\
      scan_nullable args limit = Some parsed.
Proof.
  induction n as [|n IH]; intros args limit Hlen.
  - destruct args; [now left|simpl in Hlen; lia].
  - destruct args as [|arg [|next after]]; [now left|now left|].
    rewrite scan_nullable_step.
    assert (Hskip : forall l,
      scan_nullable after l = l \/
      exists before flag text after' parsed,
        arg :: next :: after = before ++ flag :: text :: after' /\
        is_limit_flag flag = true /\ text <> "" /\
        parseInt text = Some parsed /\ positive parsed = true /\
        scan_nullable after l = Some parsed).
    { intros l. destruct (IH after l ltac:(simpl in Hlen; lia))
        as [H|(before & flag & text & after' & parsed & -> & H)]; [now left|].
      right. exists (arg :: next :: before), flag, text, after', parsed.
      split; [reflexivity|exact H]. }
    destruct (is_limit_flag arg && truthy (Some next)) eqn:Hflag.
    + apply andb_prop in Hflag as [Hf Ht]. apply truthy_Some in Ht.
      destruct (parseInt next) as [parsed|] eqn:Hp; [|apply Hskip].
      destruct (positive parsed) eqn:Hpos; [|apply Hskip].
      destruct (Hskip (Some parsed)) as [H|H]; [|now right].
      right. exists [], arg, next, after, parsed. auto 10.
    + destruct (IH (next :: after) limit ltac:(simpl in *; lia))
        as [H|(before & flag & text & after' & parsed & E & H)]; [now left|].
      right. exists (arg :: before), flag, text, after', parsed.
      split; [now rewrite E|exact H].
Qed.

Lemma scan_scan_nullable (n : nat) :
  forall (args : list string) (limit : Amount.double)
         (found : option Amount.double),
    length args <= n ->
    scan args (default limit found) = default limit (scan_nullable args found).
Proof.
  induction n as [|n IH]; intros args limit found Hlen.
  - destruct args; [reflexivity|simpl in Hlen; lia].
  - destruct args as [|arg [|next after]]; [reflexivity|reflexivity|].
    rewrite scan_step, scan_nullable_step.
    destruct (is_limit_flag arg && truthy (Some next)).
    + destruct (parseInt next) as [parsed|];
        [|apply IH; simpl in Hlen; lia].
      destruct (positive parsed); [|apply IH; simpl in Hlen; lia].
      apply (IH after limit (Some parsed)). simpl in Hlen; lia.
    + apply IH. simpl in *. lia.
Qed.

(** X21.  The limit [parseArgs] returns is always a number greater than
    zero.  In the project-details entry point it is [null] or a positive
    number that [parseInt] reads from a non-empty argument standing right
    after "--limit" or "-l"; in the funding-rounds entry point it is that
    same number, with 200 in place of [null]. *)
Theorem limit_is_a_positive_number_after_a_flag (args : list string) :
  (forall limit,
     parseArgs_nullable args = Some limit ->
     positive limit = true /\
     exists before flag text after,
       args = before ++ flag :: text :: after /\
       (flag = "--limit" \/ flag = "-l") /\ text <> "" /\
       parseInt text = Some limit) /\
  parseArgs args = default DEFAULT_LIMIT (parseArgs_nullable args) /\
  positive (parseArgs args) = true.
Proof.
  assert (H1 : forall limit,
     parseArgs_nullable args = Some limit ->
     positive limit = true /\
     exists before flag text after,
       args = before ++ flag :: text :: after /\
       (flag = "--limit" \/ flag = "-l") /\ text <> "" /\
       parseInt text = Some limit).
  { intros limit Hl. unfold parseArgs_nullable in Hl.
    destruct (scan_nullable_source (length args) args None (le_n _))
      as [H|(before & flag & text & after & parsed & E & Hf & Ht & Hp & Hpos & H)];
      [congruence|].
    rewrite H in Hl. injection Hl as <-. split; [exact Hpos|].
    exists before, flag, text, after. split; [exact E|].
    split; [|auto]. unfold is_limit_flag in Hf.
    apply orb_prop in Hf as [Hf|Hf]; apply String.eqb_eq in Hf; auto. }
  assert (H2 : parseArgs args = default DEFAULT_LIMIT (parseArgs_nullable args))
    by apply (scan_scan_nullable (length args) args DEFAULT_LIMIT None (le_n _)).
  split; [exact H1|]. split; [exact H2|]. rewrite H2.
  destruct (parseArgs_nullable args) as [limit|] eqn:E; [|reflexivity].
  now destruct (H1 limit eq_refl).
Qed.

End ArgsFacts.

(** ** The upstream source *)

Module ApiFacts.
Import Api.

Lemma includes_tier_elem_of (tiers : list Z) (tier : Z) :
  includes_tier tiers tier = true <-> tier ∈ tiers.
Proof.
  unfold includes_tier. rewrite existsb_exists. split.
  - intros (t & Hin & ->%Z.eqb_eq). now apply list_elem_of_In.
  - intros Hin. exists tier. split; [now apply list_elem_of_In|apply Z.eqb_refl].
Qed.

Lemma List_filter_sublist {A : Type} (f : A -> bool) (l : list A) :
  sublist (List.filter f l) l.
Proof.
  induction l as [|x l IH]; simpl; [constructor|].
  destruct (f x); now constructor.
Qed.

Lemma List_filter_narrow {A : Type} (f g : A -> bool) (l : list A) :
  (forall x, f x = true -> g x = true) ->
  List.filter f (List.filter g l) = List.filter f l.
Proof.
  intros H. induction l as [|x l IH]; simpl; [reflexivity|].
  destruct (g x) eqn:Eg; simpl.
  - destruct (f x); now rewrite IH.
  - destruct (f x) eqn:Ef; [|exact IH]. rewrite (H x Ef) in Eg. discriminate.
Qed.

Lemma fetchFundsByTiers_narrow (response : option (list Fund.t))
    (tiers wider : list Z) :
  (forall tier, tier ∈ tiers -> tier ∈ wider) ->
  fetchFundsByTiers response tiers =
    fetchFundsByTiers (fetchFundsByTiers response wider) tiers.
Proof.
  intros Hw. unfold fetchFundsByTiers.
  destruct response as [all|]; [|reflexivity].
  cbn [fmap option_fmap option_map]. f_equal.
  symmetry. apply List_filter_narrow. intros fund.
  rewrite !includes_tier_elem_of. apply Hw.
Qed.

(** X22.  [fetchFundsByTiers] fails exactly when the request fails;
    otherwise it returns the funds of the answer whose tier is one of the
    wanted tiers, in the order of the answer.  Asking for fewer tiers
    gives what filtering the wider answer gives: the funds of a Tier 1 run
    are the Tier 1 funds of a Tier 1 + 2 run. *)
Theorem fetchFundsByTiers_keeps_wanted_tiers (response : option (list Fund.t))
    (tiers : list Z) :
  (fetchFundsByTiers response tiers = None <-> response = None) /\
  (forall funds,
     fetchFundsByTiers response tiers = Some funds ->
     exists all,
       response = Some all /\ sublist funds all /\
       forall fund, fund ∈ funds <-> fund ∈ all /\ Fund.tier fund ∈ tiers) /\
  (forall wider,
     (forall tier, tier ∈ tiers -> tier ∈ wider) ->
     fetchFundsByTiers response tiers =
       fetchFundsByTiers (fetchFundsByTiers response wider) tiers) /\
  fetchTier1Funds response =
    fetchFundsByTiers (fetchTier1And2Funds response) [1%Z].
Proof.
  split; [|split; [|split]].
  - unfold fetchFundsByTiers. destruct response; simpl; split; congruence.
  - intros funds. unfold fetchFundsByTiers.
    destruct response as [all|]; [|discriminate].
    cbn [fmap option_fmap option_map]. intros [= <-].
    exists all. split; [reflexivity|]. split; [apply List_filter_sublist|].
    intros fund. rewrite MergeFacts.elem_of_List_filter, includes_tier_elem_of.
    reflexivity.
  - apply fetchFundsByTiers_narrow.
  - unfold fetchTier1Funds, fetchTier1And2Funds.
    apply fetchFundsByTiers_narrow. intros tier.
    rewrite !elem_of_cons, !elem_of_nil. tauto.
Qed.

End ApiFacts.

(** ** The project-details entry point with a cache *)

Module ProjectCacheFacts.
Import ProjectMainCached CachedShape.

Lemma cache_step_get (cache : JsMap.t ProjectResult.t) (round : EnrichedRound.t)
    (k : string) :
  JsMap.get k (cache_step cache round) =
    if qualifies round &&
       bool_decide (Round.projectKey (EnrichedRound.round round) = Some k)
    then Some (cached_result round)
    else JsMap.get k cache.
Proof.
  unfold cache_step, qualifies, cached_result.
  destruct (Round.projectKey (EnrichedRound.round round)) as [key|];
    [|reflexivity].
  destruct (EnrichedRound.details round) as [details|];
    [|now rewrite andb_false_r].
  rewrite andb_true_r.
  destruct (truthy (Some key) && negb (truthy (EnrichedRound.detailsError round)));
    [|reflexivity].
  rewrite JsMapFacts.get_set. cbn [andb].
  destruct (String.eqb_spec key k) as [->|Hne].
  - now rewrite bool_decide_eq_true_2.
  - rewrite bool_decide_eq_false_2 by congruence. reflexivity.
Qed.

Lemma cache_step_keys (cache : JsMap.t ProjectResult.t) (round : EnrichedRound.t) :
  NoDup (JsMap.keys cache) -> NoDup (JsMap.keys (cache_step cache round)).
Proof.
  intros H. unfold cache_step.
  destruct (Round.projectKey _) as [key|]; [|exact H].
  destruct (EnrichedRound.details round) as [details|]; [|exact H].
  destruct (_ && _); [|exact H]. now apply JsMapFacts.NoDup_keys_set.
Qed.

Lemma foldl_cache_step (rounds : list EnrichedRound.t) :
  NoDup (JsMap.keys (foldl cache_step JsMap.empty rounds)) /\
  forall k,
    JsMap.get k (foldl cache_step JsMap.empty rounds) =
      cached_result <$> last (qualifying k rounds).
Proof.
  induction rounds as [|round rounds [IHk IHg]] using rev_ind.
  - split; [constructor|reflexivity].
  - rewrite foldl_app. cbn [foldl]. split; [now apply cache_step_keys|].
    intros k. rewrite cache_step_get, IHg. unfold qualifying.
    rewrite List.filter_app. cbn [List.filter].
    destruct (qualifies round && bool_decide _).
    + now rewrite last_snoc.
    + now rewrite app_nil_r.
Qed.

(** X23.  [loadCachedDetails] holds no key twice, and under a key the
    [details] of the last round of the file that carries the key, has a
    [details] object and has no truthy [detailsError], with [error: null];
    it holds nothing for a key without such a round, and nothing at all
    when the file is missing, unreadable or without a [data] array.  So
    every cached key is a non-empty string and every cached result has
    details and no error. *)
Theorem loadCachedDetails_entries (stored : Stored DetailedResultSet.t) :
  let cache := loadCachedDetails stored in
  NoDup (JsMap.keys cache) /\
  (forall k,
     JsMap.get k cache =
       match stored with
       | Holding data =>
           cached_result <$> last (qualifying k (DetailedResultSet.data data))
       | _ => None
       end) /\
  (forall k r,
     JsMap.get k cache = Some r ->
     k <> "" /\ ProjectResult.error r = None /\
     exists details, ProjectResult.details r = Some details).
Proof.
  cbv zeta.
  assert (Hget : forall k,
     JsMap.get k (loadCachedDetails stored) =
       match stored with
       | Holding data =>
           cached_result <$> last (qualifying k (DetailedResultSet.data data))
       | _ => None
       end).
  { intros k. destruct stored as [| | |data]; try reflexivity.
    apply foldl_cache_step. }
  split; [|split; [exact Hget|]].
  - destruct stored as [| | |data]; try constructor. apply foldl_cache_step.
  - intros k r. rewrite Hget. destruct stored as [| | |data]; try discriminate.
    destruct (last _) as [round|] eqn:Hlast; [|discriminate].
    intros [= <-]. apply last_Some_elem_of in Hlast.
    apply MergeFacts.elem_of_List_filter in Hlast as [_ Hq].
    apply andb_prop in Hq as [Hq Hk]. apply bool_decide_eq_true_1 in Hk.
    unfold qualifies in Hq. rewrite Hk in Hq.
    apply andb_prop in Hq as [Hq _]. apply andb_prop in Hq as [Ht Hd].
    split; [now apply truthy_Some|]. split; [reflexivity|].
    unfold cached_result. cbn [ProjectResult.details].
    destruct (EnrichedRound.details round) as [details|]; [eauto|discriminate].
Qed.

Section Run.
Variable connectOk : bool.
Variable fetch : nat -> string -> Outcome RawDetails.t.
Variable now : nat -> Z.
Variable writeOk : nat -> bool.
Variable maxRetries : nat.
Variable limit : option nat.

Local Abbreviation scrape_from := (scrape_from fetch now writeOk maxRetries).
Local Abbreviation main := (main connectOk fetch now writeOk maxRetries limit).
Local Abbreviation toScrape := (toScrape limit).
Local Abbreviation saveResults := (ProjectMain.saveResults now writeOk).

(** A result with details and without an error. *)
Local Abbreviation success := (fun r : ProjectResult.t =>
  ProjectResult.error r = None /\
  exists details, ProjectResult.details r = Some details).

Local Abbreviation untouched := (fun f f' : Files.t =>
  Files.tier1 f' = Files.tier1 f /\ Files.tier1_2 f' = Files.tier1_2 f /\
  Files.rounds f' = Files.rounds f).

Lemma cached_saveResults_steps (data : list Round.t)
    (projectDetails : JsMap.t ProjectResult.t) (totalProjects successful failed : nat)
    (startTime : Z) (partial : bool) (w : World) :
  let saved :=
    saveResults data projectDetails totalProjects successful failed startTime
      partial w in
  trace saved.2 = trace w ++ [EvWrite OUTPUT_FILE saved.1] /\
  calls saved.2 = calls w /\
  untouched (files w) (files saved.2) /\
  (saved.1 = true ->
   Files.detailed (files saved.2) =
     Holding
       (DetailedResultSet.mk
          (DetailedMetadata.mk (ProjectMain.clock now w) "cryptorank.io/ico"
             totalProjects successful failed partial
             (ProjectMain.clock now w - startTime)%Z)
          (ProjectMain.enrich projectDetails <$> data))).
Proof.
  cbv zeta. unfold ProjectMain.saveResults.
  destruct (writeOk (length (trace w))); cbn [fst snd emit set_files trace calls files];
    repeat split; discriminate.
Qed.

Lemma cached_scrape_from_run (todo : list Project.t) :
  forall (i total totalProjects : nat) (data : list Round.t) (startTime : Z)
         (p : ProjectMain.Progress) (w : World),
    let run := scrape_from todo i total totalProjects data startTime p w in
    (exists events,
       continues w run.2 events /\
       (i + length todo = total ->
        unit_steps events = units_apart DELAY_BETWEEN_PROJECTS_MS (length todo))) /\
    untouched (files w) (files run.2) /\
    (forall k,
       JsMap.has k (ProjectMain.projectDetails run.1) = true <->
       JsMap.has k (ProjectMain.projectDetails p) = true \/
       k ∈ (Project.projectKey <$> todo)) /\
    ProjectMain.failCount p <= ProjectMain.failCount run.1 /\
    ((forall k r, JsMap.get k (ProjectMain.projectDetails p) = Some r -> success r) ->
     ProjectMain.failCount run.1 = ProjectMain.failCount p ->
     forall k r,
       JsMap.get k (ProjectMain.projectDetails run.1) = Some r -> success r).
Proof.
  induction todo as [|project later IH];
    intros i total totalProjects data startTime p w; cbv zeta.
  - cbn [ProjectMainCached.scrape_from fst snd]. split; [|split; [|split; [|split]]].
    + exists []. split; [apply continues_refl|reflexivity].
    + repeat split.
    + intros k. rewrite fmap_nil, elem_of_nil. tauto.
    + lia.
    + auto.
  - cbn [ProjectMainCached.scrape_from].
    set (key := Project.projectKey project).
    set (w1 := emit (EvUnit (TProject key)) w).
    destruct (ProjectScraperFacts.project_attempts_frame fetch now maxRetries
                key (seq 1 maxRetries) None w1) as (e2 & C2 & U2 & F2).
    pose proof (ProjectRunFacts.project_attempts_result fetch now maxRetries key
                  (seq 1 maxRetries) None w1) as Hres.
    unfold ProjectScraper.scrapeProject.
    destruct (ProjectScraper.attempts fetch now maxRetries (seq 1 maxRetries)
                key None w1) as [result w2].
    cbv zeta in Hres. cbn [fst snd] in C2, F2, Hres.
    set (p' := ProjectMain.mkProgress _ _ _).
    pose proof (cached_saveResults_steps data (ProjectMain.projectDetails p')
                  totalProjects (ProjectMain.successCount p')
                  (ProjectMain.failCount p') startTime true w2)
      as (C3 & _ & F3 & _).
    cbv zeta in C3, F3.
    destruct (saveResults data (ProjectMain.projectDetails p') totalProjects
                (ProjectMain.successCount p') (ProjectMain.failCount p')
                startTime true w2) as [ok w3]. cbn [fst snd] in C3, F3.
    set (w4 := if Z.ltb (Z.of_nat i) (Z.of_nat total - 1) then _ else w3).
    assert (C4 : continues w3 w4
              (if Z.ltb (Z.of_nat i) (Z.of_nat total - 1)
               then [EvThrottle DELAY_BETWEEN_PROJECTS_MS] else [])).
    { subst w4. destruct (Z.ltb _ _); [reflexivity|apply continues_refl]. }
    assert (F4 : files w4 = files w3) by (subst w4; now destruct (Z.ltb _ _)).
    destruct (IH (S i) total totalProjects data startTime p' w4)
      as ((e5 & C5 & U5) & F5 & Hhas & Hle & Hall).
    split; [|split; [|split; [|split]]].
    + eexists. split.
      * eapply continues_trans; [|exact C5].
        eapply continues_trans; [|exact C4].
        eapply continues_trans; [|exact C3].
        eapply continues_trans; [|exact C2].
        apply continues_emit.
      * intros Htotal. cbn [length] in Htotal.
        rewrite !unit_steps_app, U2, U5 by lia.
        cbn [unit_steps omap list_omap unit_step app length].
        destruct later as [|next later'].
        -- assert (Hlast : Z.ltb (Z.of_nat i) (Z.of_nat total - 1) = false)
             by (apply Z.ltb_ge; simpl in Htotal; lia).
           rewrite Hlast. reflexivity.
        -- assert (Hmore : Z.ltb (Z.of_nat i) (Z.of_nat total - 1) = true)
             by (apply Z.ltb_lt; simpl in Htotal; lia).
           rewrite Hmore. reflexivity.
    + rewrite F4 in F5. rewrite F2 in F3.
      change (files w1) with (files w) in F3.
      destruct F3 as (G1 & G2 & G3), F5 as (K1 & K2 & K3).
      repeat split; congruence.
    + intros k. rewrite Hhas. subst p'. cbn [ProjectMain.projectDetails].
      rewrite fmap_cons, elem_of_cons.
      rewrite !JsMapFacts.has_keys, JsMapFacts.elem_of_keys_set. tauto.
    + subst p'. cbn [ProjectMain.failCount] in Hle.
      destruct (truthy (ProjectResult.error result)); lia.
    + intros Hp Hfail. subst p'. cbn [ProjectMain.failCount] in Hle, Hall, Hfail.
      cbn [ProjectMain.projectDetails] in Hall.
      destruct (truthy (ProjectResult.error result)) eqn:Herr; [lia|].
      apply Hall; [|exact Hfail].
      intros k r. rewrite JsMapFacts.get_set.
      destruct (String.eqb key k); [|apply Hp].
      intros [= <-].
      destruct Hres as [(n & raw & t & _ & Hd & He)|(_ & He)];
        [split; eauto|congruence].
Qed.

Lemma units_of_app (e1 e2 : list Event) :
  units_of (e1 ++ e2) = units_of e1 ++ units_of e2.
Proof. apply omap_app. Qed.

Lemma fetched_app (e1 e2 : list Event) :
  fetched (e1 ++ e2) = fetched e1 ++ fetched e2.
Proof. apply omap_app. Qed.

(** The [catch] block opens no unit and fetches nothing. *)
Lemma project_on_error_quiet (projectKey : string) (attempt : nat)
    (message : string) (pageOpen : bool) (w : World) :
  exists events,
    continues w
      (ProjectScraper.on_error maxRetries projectKey attempt message pageOpen w)
      events /\
    unit_steps events = [] /\ units_of events = [] /\ fetched events = [].
Proof.
  unfold ProjectScraper.on_error, ProjectScraper.saveScreenshot.
  destruct pageOpen, (ProjectScraper.connection_lost message),
    (Nat.ltb attempt maxRetries);
    eexists; (split; [unfold continues; cbn [trace emit];
      rewrite <- ?app_assoc; try reflexivity; now rewrite app_nil_r|]); auto.
Qed.

(** What [scrapeProject] leaves in the trace: no unit and no throttle, and
    fetches of its own project only, at least one when it has an attempt
    to make. *)
Lemma project_attempts_events (projectKey : string) (todo : list nat) :
  forall (lastError : option string) (w : World),
    exists events,
      continues w
        (ProjectScraper.attempts fetch now maxRetries todo projectKey lastError w).2
        events /\
      unit_steps events = [] /\ units_of events = [] /\
      Forall (fun target => target = TProject projectKey) (fetched events) /\
      (todo <> [] -> TProject projectKey ∈ fetched events).
Proof.
  induction todo as [|attempt later IH]; intros lastError w.
  - exists []. split; [apply continues_refl|]. repeat split; [constructor|].
    congruence.
  - cbn [ProjectScraper.attempts].
    set (w1 := emit (EvAttempt (TProject projectKey) attempt) (next_call w)).
    assert (C1 : continues w w1 [EvAttempt (TProject projectKey) attempt])
      by reflexivity.
    destruct (fetch (calls w) projectKey) as [message pageOpen|rawDetails].
    + destruct (project_on_error_quiet projectKey attempt message pageOpen w1)
        as (e2 & C2 & U2 & V2 & G2).
      destruct (IH (Some message)
                  (ProjectScraper.on_error maxRetries projectKey attempt message
                     pageOpen w1))
        as (e3 & C3 & U3 & V3 & G3 & _).
      exists (([EvAttempt (TProject projectKey) attempt] ++ e2) ++ e3).
      split; [|split; [|split; [|split]]].
      * eapply continues_trans; [eapply continues_trans|]; eauto.
      * rewrite !unit_steps_app, U2, U3. reflexivity.
      * rewrite !units_of_app, V2, V3. reflexivity.
      * rewrite !fetched_app, G2. cbn [fetched omap list_omap app].
        now constructor.
      * intros _. rewrite !fetched_app. cbn [fetched omap list_omap app].
        apply elem_of_cons. now left.
    + exists ([EvAttempt (TProject projectKey) attempt]
                ++ [EvPageScreenshot (TProject projectKey)]).
      split; [|split; [|split; [|split]]];
        [|reflexivity|reflexivity|repeat constructor|].
      * eapply continues_trans; [exact C1|]. reflexivity.
      * intros _. cbn [fetched omap list_omap app]. apply elem_of_cons. now left.
Qed.

(** The loop of [main]: its units of work are the projects it is given,
    in their order, and it fetches these projects and no other one. *)
Lemma cached_scrape_from_events (todo : list Project.t) :
  forall (i total totalProjects : nat) (data : list Round.t) (startTime : Z)
         (p : ProjectMain.Progress) (w : World),
    let run := scrape_from todo i total totalProjects data startTime p w in
    exists events,
      continues w run.2 events /\
      units_of events = unit_of <$> todo /\
      (i + length todo = total ->
       unit_steps events = units_apart DELAY_BETWEEN_PROJECTS_MS (length todo)) /\
      Forall (fun target => target ∈ (unit_of <$> todo)) (fetched events) /\
      (0 < maxRetries ->
       forall project, project ∈ todo -> unit_of project ∈ fetched events).
Proof.
  induction todo as [|project later IH];
    intros i total totalProjects data startTime p w; cbv zeta.
  - cbn [ProjectMainCached.scrape_from fst snd].
    exists []. split; [apply continues_refl|]. repeat split; [constructor|].
    intros _ project H. now apply elem_of_nil in H.
  - cbn [ProjectMainCached.scrape_from].
    set (key := Project.projectKey project).
    set (w1 := emit (EvUnit (TProject key)) w).
    destruct (project_attempts_events key (seq 1 maxRetries) None w1)
      as (e2 & C2 & U2 & V2 & G2 & H2).
    unfold ProjectScraper.scrapeProject.
    destruct (ProjectScraper.attempts fetch now maxRetries (seq 1 maxRetries)
                key None w1) as [result w2].
    cbn [fst snd] in C2.
    set (p' := ProjectMain.mkProgress _ _ _).
    pose proof (cached_saveResults_steps data (ProjectMain.projectDetails p')
                  totalProjects (ProjectMain.successCount p')
                  (ProjectMain.failCount p') startTime true w2)
      as (C3 & _).
    cbv zeta in C3.
    destruct (saveResults data (ProjectMain.projectDetails p') totalProjects
                (ProjectMain.successCount p') (ProjectMain.failCount p')
                startTime true w2) as [ok w3]. cbn [fst snd] in C3.
    set (w4 := if Z.ltb (Z.of_nat i) (Z.of_nat total - 1) then _ else w3).
    assert (C4 : continues w3 w4
              (if Z.ltb (Z.of_nat i) (Z.of_nat total - 1)
               then [EvThrottle DELAY_BETWEEN_PROJECTS_MS] else [])).
    { subst w4. destruct (Z.ltb _ _); [reflexivity|apply continues_refl]. }
    destruct (IH (S i) total totalProjects data startTime p' w4)
      as (e5 & C5 & V5 & U5 & G5 & H5).
    set (e4 := if Z.ltb (Z.of_nat i) (Z.of_nat total - 1)
               then [EvThrottle DELAY_BETWEEN_PROJECTS_MS] else []) in *.
    assert (V4 : units_of e4 = [] /\ fetched e4 = [])
      by (subst e4; now destruct (Z.ltb _ _)).
    destruct V4 as [V4 G4].
    exists (((([EvUnit (TProject key)] ++ e2) ++ [EvWrite OUTPUT_FILE ok]) ++ e4)
              ++ e5).
    split; [|split; [|split; [|split]]].
    + eapply continues_trans; [|exact C5].
      eapply continues_trans; [|exact C4].
      eapply continues_trans; [|exact C3].
      eapply continues_trans; [|exact C2].
      apply continues_emit.
    + rewrite !units_of_app, V2, V4, V5. reflexivity.
    + intros Htotal. cbn [length] in Htotal.
      rewrite !unit_steps_app, U2, U5 by lia.
      cbn [unit_steps omap list_omap unit_step app length].
      subst e4. destruct later as [|next later'].
      * assert (Hlast : Z.ltb (Z.of_nat i) (Z.of_nat total - 1) = false)
          by (apply Z.ltb_ge; simpl in Htotal; lia).
        rewrite Hlast. reflexivity.
      * assert (Hmore : Z.ltb (Z.of_nat i) (Z.of_nat total - 1) = true)
          by (apply Z.ltb_lt; simpl in Htotal; lia).
        rewrite Hmore. reflexivity.
    + rewrite !fetched_app, G4. cbn [fetched omap list_omap app].
      rewrite ?app_nil_r, fmap_cons. apply Forall_app. split.
      * eapply Forall_impl; [exact G2|]. intros target ->.
        apply elem_of_cons. now left.
      * eapply Forall_impl; [exact G5|]. intros target Ht.
        apply elem_of_cons. now right.
    + intros Hmax project' Hin. rewrite !fetched_app, G4.
      cbn [fetched omap list_omap app]. rewrite ?app_nil_r.
      apply elem_of_app. apply elem_of_cons in Hin as [->|Hin].
      * left. apply H2. destruct maxRetries; [lia|discriminate].
      * right. now apply H5.
Qed.

(** A run that has nothing to scrape: it writes the file and does
    nothing else. *)
Lemma cached_main_nothing_to_scrape (w : World) (fundingData : RoundsResultSet.t) :
  Files.rounds (files w) = Holding fundingData ->
  toScrape w = [] ->
  exists ok,
    trace (main w).2 = trace w ++ [EvWrite OUTPUT_FILE ok] /\
    calls (main w).2 = calls w /\
    (main w).1 = (if ok then Completed else Failed).
Proof.
  unfold ProjectMainCached.toScrape, ProjectMainCached.main.
  intros -> Hnil. rewrite Hnil.
  cbn [length Nat.ltb Nat.leb andb ProjectMainCached.scrape_from].
  set (projects := ProjectMain.apply_limit limit _).
  set (cache := loadCachedDetails _).
  pose proof (cached_saveResults_steps (RoundsResultSet.data fundingData) cache
                (length projects) (JsMap.size cache) 0 (clock now w) false w)
    as (C & K & _).
  cbv zeta in C, K. cbn [ProjectMain.projectDetails ProjectMain.successCount
                          ProjectMain.failCount].
  destruct (saveResults _ _ _ _ _ _ _ _) as [ok w4]. cbn [fst snd] in C, K.
  exists ok. now destruct ok.
Qed.

(** X24.  Take a run of the project-details entry point with a cache,
    over an input that can be read and a cache that is a plain object (no
    entry was put under "__proto__").  The projects to scrape are, in the
    order of the input, exactly the projects of the run for which
    [projectDetails[key]] is falsy: those that have no entry in the cache
    and whose key is not the name of a property of [Object.prototype].
    When the connection is made, the units of work of the run are these
    projects, each once and in this order, with one throttle wait between
    consecutive ones; the run fetches pages of these projects only, and
    of each of them when the scraper has an attempt to make.  With
    nothing to scrape the run makes no connection and no fetch: all it
    does is write the output file once, and it completes when that write
    succeeds. *)
Theorem cached_main_skips_cached_projects (w : World)
    (fundingData : RoundsResultSet.t) :
  Files.rounds (files w) = Holding fundingData ->
  plain (loadCachedDetails (Files.detailed (files w))) ->
  let projects :=
    ProjectMain.apply_limit limit
      (Extract.extractUniqueProjects (RoundsResultSet.data fundingData)) in
  let cache := loadCachedDetails (Files.detailed (files w)) in
  sublist (toScrape w) projects /\
  (forall project,
     project ∈ toScrape w <->
     project ∈ projects /\
     JsMap.get (Project.projectKey project) cache = None /\
     Project.projectKey project ∉ OBJECT_PROTOTYPE) /\
  (exists events,
     continues w (main w).2 events /\
     units_of events = (if connectOk then unit_of <$> toScrape w else []) /\
     unit_steps events
       = units_apart DELAY_BETWEEN_PROJECTS_MS (units connectOk limit w) /\
     Forall (fun target => target ∈ (unit_of <$> toScrape w)) (fetched events) /\
     (connectOk = true -> 0 < maxRetries ->
      forall project, project ∈ toScrape w -> unit_of project ∈ fetched events)) /\
  (toScrape w = [] ->
   exists ok,
     trace (main w).2 = trace w ++ [EvWrite OUTPUT_FILE ok] /\
     calls (main w).2 = calls w /\
     (main w).1 = (if ok then Completed else Failed)).
Proof.
  intros Hin _. cbv zeta.
  split; [|split; [|split]].
  - unfold ProjectMainCached.toScrape. rewrite Hin.
    apply ApiFacts.List_filter_sublist.
  - intros project. unfold ProjectMainCached.toScrape. rewrite Hin.
    unfold projectsToScrape. rewrite MergeFacts.elem_of_List_filter.
    unfold answers. rewrite negb_orb, andb_true_iff, !negb_true_iff.
    rewrite JsMapFacts.has_false, bool_decide_eq_false. tauto.
  - unfold ProjectMainCached.main, units, ProjectMainCached.toScrape.
    rewrite Hin.
    set (data := RoundsResultSet.data fundingData).
    set (projects := ProjectMain.apply_limit limit _).
    set (cache := loadCachedDetails _).
    set (todo := projectsToScrape projects cache).
    destruct (Nat.ltb 0 (length todo)) eqn:Hscraping.
    + destruct connectOk; cbn [negb andb].
      2:{ exists [EvConnect false]. split; [apply continues_emit|].
          split; [reflexivity|]. split; [reflexivity|].
          split; [constructor|discriminate]. }
      set (w1 := emit (EvConnect true) w).
      destruct (cached_scrape_from_events todo 0 (length todo) (length projects)
                  data (clock now w)
                  (ProjectMain.mkProgress cache (JsMap.size cache) 0) w1)
        as (e2 & C2 & V2 & U2 & G2 & H2).
      destruct (scrape_from todo 0 (length todo) (length projects) data
                  (clock now w)
                  (ProjectMain.mkProgress cache (JsMap.size cache) 0) w1)
        as [p w2]. cbn [snd] in C2.
      pose proof (cached_saveResults_steps data (ProjectMain.projectDetails p)
                    (length projects) (ProjectMain.successCount p)
                    (ProjectMain.failCount p) (clock now w) false
                    (emit EvDisconnect w2)) as (C4 & _).
      cbv zeta in C4.
      destruct (saveResults _ _ _ _ _ _ _ _) as [ok w4]. cbn [fst snd] in C4.
      exists ((([EvConnect true] ++ e2) ++ [EvDisconnect])
                ++ [EvWrite OUTPUT_FILE ok]).
      split; [|split; [|split; [|split]]].
      * assert (C : continues w w4
                      ((([EvConnect true] ++ e2) ++ [EvDisconnect])
                         ++ [EvWrite OUTPUT_FILE ok])).
        { eapply continues_trans; [|exact C4].
          eapply continues_trans; [|apply continues_emit].
          eapply continues_trans; [apply continues_emit|exact C2]. }
        now destruct ok.
      * rewrite !units_of_app, V2. cbn [units_of omap list_omap app].
        now rewrite !app_nil_r.
      * rewrite !unit_steps_app, U2 by reflexivity. simpl. now rewrite !app_nil_r.
      * rewrite !fetched_app. cbn [fetched omap list_omap app].
        now rewrite !app_nil_r.
      * intros _ Hmax project Hp. rewrite !fetched_app.
        cbn [fetched omap list_omap app]. rewrite !app_nil_r. now apply H2.
    + cbn [andb]. apply Nat.ltb_ge in Hscraping.
      assert (Hnil : todo = []) by (destruct todo; [reflexivity|simpl in *; lia]).
      rewrite Hnil. cbn [ProjectMainCached.scrape_from length].
      pose proof (cached_saveResults_steps data cache (length projects)
                    (JsMap.size cache) 0 (clock now w) false w) as (C4 & _).
      cbv zeta in C4.
      cbn [ProjectMain.projectDetails ProjectMain.successCount
           ProjectMain.failCount].
      destruct (saveResults _ _ _ _ _ _ _ _) as [ok w4]. cbn [fst snd] in C4.
      exists [EvWrite OUTPUT_FILE ok]. split; [now destruct ok|].
      split; [now destruct connectOk|]. split; [now destruct connectOk|].
      split; [constructor|]. intros _ _ project H. now apply elem_of_nil in H.
  - now apply (cached_main_nothing_to_scrape w fundingData).
Qed.

Lemma cached_main_completed (w w' : World) :
  main w = (Completed, w') ->
  exists fundingData p w1 w2,
    let data := RoundsResultSet.data fundingData in
    let projects :=
      ProjectMain.apply_limit limit (Extract.extractUniqueProjects data) in
    let cache := loadCachedDetails (Files.detailed (files w)) in
    Files.rounds (files w) = Holding fundingData /\
    Files.rounds (files w') = Holding fundingData /\
    files w1 = files w /\
    scrape_from (toScrape w) 0 (length (toScrape w)) (length projects) data
      (clock now w) (ProjectMain.mkProgress cache (JsMap.size cache) 0) w1
      = (p, w2) /\
    exists generatedAt durationMs,
      Files.detailed (files w') =
        Holding
          (DetailedResultSet.mk
             (DetailedMetadata.mk generatedAt "cryptorank.io/ico" (length projects)
                (ProjectMain.successCount p) (ProjectMain.failCount p) false
                durationMs)
             (ProjectMain.enrich (ProjectMain.projectDetails p) <$> data)).
Proof.
  unfold ProjectMainCached.main, ProjectMainCached.toScrape.
  destruct (Files.rounds (files w)) as [| | |fundingData] eqn:Hin;
    try discriminate.
  set (data := RoundsResultSet.data fundingData).
  set (projects := ProjectMain.apply_limit limit _).
  set (cache := loadCachedDetails _).
  set (todo := projectsToScrape projects cache).
  destruct (Nat.ltb 0 (length todo) && negb connectOk); [discriminate|].
  set (w1 := if Nat.ltb 0 (length todo) then emit (EvConnect true) w else w).
  assert (F1 : files w1 = files w) by (subst w1; now destruct (Nat.ltb _ _)).
  destruct (cached_scrape_from_run todo 0 (length todo) (length projects) data
              (clock now w) (ProjectMain.mkProgress cache (JsMap.size cache) 0) w1)
    as (_ & F2 & _).
  destruct (scrape_from todo 0 (length todo) (length projects) data (clock now w)
              (ProjectMain.mkProgress cache (JsMap.size cache) 0) w1)
    as [p w2] eqn:Hrun. cbn [snd] in F2.
  set (w3 := if Nat.ltb 0 (length todo) then emit EvDisconnect w2 else w2).
  assert (F3 : files w3 = files w2) by (subst w3; now destruct (Nat.ltb _ _)).
  pose proof (cached_saveResults_steps data (ProjectMain.projectDetails p)
                (length projects) (ProjectMain.successCount p)
                (ProjectMain.failCount p) (clock now w) false w3)
    as (_ & _ & F4 & Hfile).
  cbv zeta in F4, Hfile.
  destruct (saveResults _ _ _ _ _ _ _ _) as [ok w4]. cbn [fst snd] in F4, Hfile.
  destruct ok; [|discriminate]. intros [= <-].
  exists fundingData, p, w1, w2. cbv zeta.
  split; [reflexivity|]. split.
  { destruct F4 as (_ & _ & G), F2 as (_ & _ & K).
    rewrite G, F3, K, F1. exact Hin. }
  split; [exact F1|]. split; [exact Hrun|].
  eexists _, _. exact (Hfile eq_refl).
Qed.

Lemma List_filter_nil {A : Type} (f : A -> bool) (l : list A) :
  (forall x, x ∈ l -> f x = false) -> List.filter f l = [].
Proof.
  induction l as [|x l IH]; intros H; [reflexivity|]. simpl.
  rewrite (H x) by (apply elem_of_cons; now left).
  apply IH. intros y Hy. apply H. apply elem_of_cons. now right.
Qed.

Lemma first_index_key (k : string) (rounds : list Round.t) (i : nat)
    (round : Round.t) :
  Extract.first_index k rounds = Some i -> rounds !! i = Some round ->
  Round.projectKey round = Some k.
Proof.
  revert i. induction rounds as [|r rounds IH]; intros i; [discriminate|].
  cbn [Extract.first_index].
  destruct (bool_decide_reflect (Round.projectKey r = Some k)) as [Hk|Hk].
  - intros [= <-] [= <-]. exact Hk.
  - destruct (Extract.first_index k rounds) as [j|] eqn:Hj; [|discriminate].
    intros [= <-]. cbn [lookup list_lookup]. now apply IH.
Qed.

(** A project of a run comes from a round of the input that carries its
    key, and the key is not empty. *)
Lemma project_has_round (data : list Round.t) (project : Project.t) :
  project ∈ ProjectMain.apply_limit limit (Extract.extractUniqueProjects data) ->
  Project.projectKey project <> "" /\
  exists round,
    round ∈ data /\ Round.projectKey round = Some (Project.projectKey project).
Proof.
  intros Hin.
  assert (Hp : project ∈ Extract.extractUniqueProjects data).
  { unfold ProjectMain.apply_limit in Hin. destruct limit as [n|]; [|exact Hin].
    destruct (_ && _); [|exact Hin].
    apply elem_of_take in Hin as (i & Hi & _).
    now apply list_elem_of_lookup_2 in Hi. }
  apply ExtractFacts.loop_sound in Hp as (_ & Hne & i & round & Hi & Hr & _).
  split; [exact Hne|]. exists round.
  split; [now apply list_elem_of_lookup_2 in Hr|].
  now apply (first_index_key _ data i).
Qed.

(** X25.  After a run of the project-details entry point with a cache
    that completed without a failed project, the next run on the files it
    left has nothing to scrape: it makes no connection and no fetch, and
    only writes the output file again. *)
Theorem cached_rerun_after_full_success (w w' : World) :
  main w = (Completed, w') ->
  (exists output,
     Files.detailed (files w') = Holding output /\
     DetailedMetadata.failed (DetailedResultSet.metadata output) = 0) ->
  toScrape w' = [] /\
  exists ok,
    trace (main w').2 = trace w' ++ [EvWrite OUTPUT_FILE ok] /\
    calls (main w').2 = calls w'.
Proof.
  intros Hmain (output & Hout & Hfailed).
  destruct (cached_main_completed w w' Hmain)
    as (fundingData & p & w1 & w2 & Hin & Hin' & F1 & Hrun & t & d & Hfile).
  cbv zeta in Hrun.
  rewrite Hfile in Hout. injection Hout as <-.
  cbn [DetailedResultSet.metadata DetailedMetadata.failed] in Hfailed.
  set (data := RoundsResultSet.data fundingData) in *.
  set (projects := ProjectMain.apply_limit limit _) in *.
  set (cache := loadCachedDetails (Files.detailed (files w))) in *.
  destruct (cached_scrape_from_run (toScrape w) 0 (length (toScrape w))
              (length projects) data (clock now w)
              (ProjectMain.mkProgress cache (JsMap.size cache) 0) w1)
    as (_ & _ & Hhas & _ & Hall).
  rewrite Hrun in Hhas, Hall. cbn [fst ProjectMain.projectDetails
                                    ProjectMain.failCount] in Hhas, Hall.
  assert (Hsuccess : forall k r,
            JsMap.get k (ProjectMain.projectDetails p) = Some r -> success r).
  { apply Hall; [|exact Hfailed]. intros k r Hget.
    destruct (loadCachedDetails_entries (Files.detailed (files w)))
      as (_ & _ & H). now destruct (H k r Hget) as (_ & He & Hd). }
  assert (Hnil : toScrape w' = []).
  { unfold ProjectMainCached.toScrape. rewrite Hin'. fold data projects.
    unfold projectsToScrape.
    apply List_filter_nil. intros project Hp.
    apply negb_false_iff. unfold answers.
    destruct (bool_decide (Project.projectKey project ∈ OBJECT_PROTOTYPE))
      eqn:Hproto; [apply orb_true_r|rewrite orb_false_r].
    destruct (JsMap.has (Project.projectKey project)
                (loadCachedDetails (Files.detailed (files w')))) eqn:Hnot;
      [reflexivity|exfalso].
    apply JsMapFacts.has_false in Hnot.
    destruct (project_has_round data project Hp) as (Hne & round & Hr & Hk).
    set (k := Project.projectKey project) in *.
    assert (Hk' : JsMap.has k (ProjectMain.projectDetails p) = true).
    { apply Hhas.
      destruct (JsMap.has k cache) eqn:Hc; [now left|right].
      apply list_elem_of_fmap_2.
      unfold ProjectMainCached.toScrape. rewrite Hin. fold data projects cache.
      unfold projectsToScrape. apply MergeFacts.elem_of_List_filter.
      split; [exact Hp|]. unfold answers. fold k. now rewrite Hc, Hproto. }
    unfold JsMap.has in Hk'.
    destruct (JsMap.get k (ProjectMain.projectDetails p)) as [r|] eqn:Hget;
      [|discriminate].
    destruct (Hsuccess k r Hget) as (He & details & Hd).
    destruct (loadCachedDetails_entries (Files.detailed (files w')))
      as (_ & Hcache & _).
    rewrite Hcache, Hfile in Hnot. cbn [DetailedResultSet.data] in Hnot.
    apply fmap_None, last_None in Hnot.
    assert (Hq : ProjectMain.enrich (ProjectMain.projectDetails p) round
                   ∈ qualifying k (ProjectMain.enrich (ProjectMain.projectDetails p)
                                     <$> data)).
    { unfold qualifying. apply MergeFacts.elem_of_List_filter.
      split; [now apply list_elem_of_fmap_2|].
      unfold qualifies. rewrite ProjectRunFacts.round_enrich, Hk.
      unfold ProjectMain.enrich. rewrite Hk. cbn [ProjectMain.property].
      rewrite Hget. cbn [EnrichedRound.details EnrichedRound.detailsError].
      rewrite Hd, He. cbn [or_null truthy negb andb].
      rewrite bool_decide_eq_true_2 by reflexivity.
      destruct (String.eqb_spec k ""); [contradiction|reflexivity]. }
    rewrite Hnot in Hq. now apply elem_of_nil in Hq. }
  split; [exact Hnil|].
  destruct (cached_main_nothing_to_scrape w' fundingData Hin' Hnil)
    as (ok & Ht & Hc & _).
  eauto.
Qed.

End Run.

(** In the sample, "alpha" is cached, "constructor" is answered by the
    prototype, and "beta", whose scrape failed, is scraped again. *)
Example toScrape_half_done :
  Project.projectKey <$> toScrape None SampleRuns.half_done = ["beta"].
Proof. reflexivity. Qed.

Lemma cached_main_skips_cached_projects_witness :
  let w := SampleRuns.half_done in
  let projects :=
    ProjectMain.apply_limit None
      (Extract.extractUniqueProjects
         (RoundsResultSet.data SampleRuns.three_projects)) in
  let cache := loadCachedDetails (Files.detailed (files w)) in
  sublist (toScrape None w) projects /\
  (forall project,
     project ∈ toScrape None w <->
     project ∈ projects /\
     JsMap.get (Project.projectKey project) cache = None /\
     Project.projectKey project ∉ OBJECT_PROTOTYPE) /\
  (exists events,
     continues w (SampleRuns.cached_run w).2 events /\
     units_of events = unit_of <$> toScrape None w /\
     unit_steps events
       = units_apart DELAY_BETWEEN_PROJECTS_MS (units true None w) /\
     Forall (fun target => target ∈ (unit_of <$> toScrape None w))
            (fetched events) /\
     (true = true -> 0 < 3 ->
      forall project, project ∈ toScrape None w -> unit_of project ∈ fetched events)) /\
  (toScrape None w = [] ->
   exists ok,
     trace (SampleRuns.cached_run w).2 = trace w ++ [EvWrite OUTPUT_FILE ok] /\
     calls (SampleRuns.cached_run w).2 = calls w /\
     (SampleRuns.cached_run w).1 = (if ok then Completed else Failed)).
Proof.
  apply (cached_main_skips_cached_projects true SampleRuns.reads_page Sample.now
           Sample.writeOk 3 None SampleRuns.half_done SampleRuns.three_projects).
  - reflexivity.
  - vm_compute. reflexivity.
Defined.

Lemma cached_rerun_after_full_success_witness :
  let first := SampleRuns.cached_run SampleRuns.with_rounds in
  let second := SampleRuns.cached_run first.2 in
  toScrape None first.2 = [] /\
  exists ok,
    trace second.2 = trace first.2 ++ [EvWrite OUTPUT_FILE ok] /\
    calls second.2 = calls first.2.
Proof.
  apply (cached_rerun_after_full_success true SampleRuns.reads_page Sample.now
           Sample.writeOk 3 None SampleRuns.with_rounds).
  - vm_compute. reflexivity.
  - eexists. split; vm_compute; reflexivity.
Defined.

End ProjectCacheFacts.

(** ** Test data subsets *)

Module TestDataFacts.
Import TestData.

Lemma key_of_Some (round : EnrichedRound.t) (k : string) :
  key_of round = Some k <-> projectKey round = Some k /\ k <> "".
Proof.
  unfold key_of, or_null. destruct (projectKey round) as [k'|]; simpl.
  - destruct (String.eqb_spec k' ""); simpl; split.
    + discriminate.
    + intros [[= ->] H]. contradiction.
    + intros [= ->]. auto.
    + now intros [[= ->] _].
  - split; [discriminate|now intros [? _]].
Qed.

(** What the loop adds: first rounds of keys not seen before, each key
    once. *)
Lemma loop_adds (rounds : list EnrichedRound.t) :
  forall (seen : gset string) (acc : list EnrichedRound.t),
    exists added,
      loop rounds seen acc = acc ++ added /\
      NoDup (omap key_of added) /\
      length (omap key_of added) = length added /\
      Forall (fun round =>
                round ∈ rounds /\
                exists k, key_of round = Some k /\ k ∉ seen) added.
Proof.
  induction rounds as [|round rest IH]; intros seen acc.
  - exists []. rewrite app_nil_r. repeat split; constructor.
  - cbn [loop].
    assert (Hskip : exists added,
              loop rest seen acc = acc ++ added /\
              NoDup (omap key_of added) /\
              length (omap key_of added) = length added /\
              Forall (fun r => r ∈ round :: rest /\
                               exists k, key_of r = Some k /\ k ∉ seen) added).
    { destruct (IH seen acc) as (added & E & Hnd & Hlen & Hall).
      exists added. split; [exact E|]. split; [exact Hnd|]. split; [exact Hlen|].
      eapply Forall_impl; [exact Hall|]. intros r [Hr Hk].
      split; [apply elem_of_cons; now right|exact Hk]. }
    destruct (projectKey round) as [k|] eqn:Hk; [|exact Hskip].
    destruct (String.eqb_spec k "") as [->|Hne]; [exact Hskip|].
    destruct (bool_decide_reflect (k ∈ seen)) as [Hin|Hnot]; [exact Hskip|].
    cbn [negb andb].
    destruct (IH ({[k]} ∪ seen) (acc ++ [round])) as (added & E & Hnd & Hlen & Hall).
    assert (Hkey : key_of round = Some k) by (apply key_of_Some; auto).
    exists (round :: added). split; [now rewrite E, <- app_assoc|].
    cbn [omap list_omap]. rewrite Hkey. split; [|split].
    + apply NoDup_cons. split; [|exact Hnd].
      intros Hin. apply list_elem_of_omap in Hin as (r & Hr & Hrk).
      apply (proj1 (Forall_forall _ _) Hall) in Hr as (_ & k' & Hk' & Hfresh).
      rewrite Hrk in Hk'. injection Hk' as <-. apply Hfresh.
      apply elem_of_union. left. now apply elem_of_singleton.
    + cbn [length]. now rewrite Hlen.
    + constructor.
      * split; [apply elem_of_cons; now left|]. eauto.
      * eapply Forall_impl; [exact Hall|]. intros r (Hr & k' & Hk' & Hfresh).
        split; [apply elem_of_cons; now right|].
        exists k'. split; [exact Hk'|]. intros Hin. apply Hfresh.
        apply elem_of_union. now right.
Qed.

Lemma uniqueProjects_keys (data : list EnrichedRound.t) :
  NoDup (omap key_of (uniqueProjects data)) /\
  length (omap key_of (uniqueProjects data)) = length (uniqueProjects data) /\
  Forall (fun round => round ∈ data /\ exists k, key_of round = Some k)
         (uniqueProjects data).
Proof.
  unfold uniqueProjects.
  destruct (loop_adds data ∅ []) as (added & -> & Hnd & Hlen & Hall).
  cbn [app]. split; [exact Hnd|]. split; [exact Hlen|].
  eapply Forall_impl; [exact Hall|]. intros r (Hr & k & Hk & _). eauto.
Qed.

Lemma omap_key_of_length (rounds : list EnrichedRound.t) :
  length (omap key_of rounds) <= length rounds.
Proof.
  induction rounds as [|r rounds IH]; [reflexivity|].
  cbn [omap list_omap]. destruct (key_of r); cbn [length]; lia.
Qed.

Lemma omap_key_of_take (n : nat) (rounds : list EnrichedRound.t) :
  length (omap key_of rounds) = length rounds ->
  omap key_of (take n rounds) = take n (omap key_of rounds).
Proof.
  revert n. induction rounds as [|r rounds IH]; intros n Hlen.
  - now destruct n.
  - destruct n as [|n]; [reflexivity|].
    pose proof (omap_key_of_length rounds) as Hle.
    change (omap key_of (take (S n) (r :: rounds)))
      with (omap key_of (r :: take n rounds)).
    cbn [omap list_omap] in Hlen |- *.
    destruct (key_of r) as [k|]; cbn [length] in Hlen; [|lia].
    cbn [take]. f_equal. apply IH. lia.
Qed.

Lemma elem_of_filteredRounds (data : list EnrichedRound.t)
    (keys : list (option string)) (round : EnrichedRound.t) :
  round ∈ filteredRounds data keys <-> round ∈ data /\ projectKey round ∈ keys.
Proof.
  unfold filteredRounds. rewrite MergeFacts.elem_of_List_filter.
  now rewrite bool_decide_eq_true.
Qed.

Lemma filteredRounds_sublist (data : list EnrichedRound.t)
    (keys : list (option string)) :
  sublist (filteredRounds data keys) data.
Proof.
  unfold filteredRounds. induction data as [|x l IH]; simpl; [constructor|].
  destruct (bool_decide _); now constructor.
Qed.

(** The keys of the rounds kept for a subset are the keys of the subset. *)
Lemma distinct_keys_filteredRounds (data subset : list EnrichedRound.t) :
  Forall (fun round => round ∈ data /\ exists k, key_of round = Some k) subset ->
  distinct_keys (filteredRounds data (subsetKeys subset))
    = list_to_set (omap key_of subset).
Proof.
  intros Hsub. unfold distinct_keys. apply set_eq. intros k.
  rewrite !elem_of_list_to_set, !list_elem_of_omap. split.
  - intros (round & Hin & Hk). apply elem_of_filteredRounds in Hin as [_ Hin].
    unfold subsetKeys in Hin. apply list_elem_of_fmap in Hin as (e & He & Hin).
    exists e. split; [exact Hin|]. unfold key_of in *. now rewrite <- He.
  - intros (e & Hin & Hk). exists e. split; [|exact Hk].
    apply elem_of_filteredRounds.
    apply (proj1 (Forall_forall _ _) Hsub) in Hin as Hdata.
    split; [apply Hdata|]. unfold subsetKeys. now apply list_elem_of_fmap_2.
Qed.

Lemma Forall_take {A : Type} (P : A -> Prop) (n : nat) (l : list A) :
  Forall P l -> Forall P (take n l).
Proof.
  intros H. apply Forall_forall. intros x Hx.
  apply elem_of_take in Hx as (i & Hi & _).
  apply (proj1 (Forall_forall _ _) H). now apply list_elem_of_lookup_2 in Hi.
Qed.

Lemma subset_document_spec (input : DetailedResultSet.t) (generatedAt : Z)
    (count : nat) (output : Output.t) :
  subset_document input generatedAt count = Some output ->
  let data := DetailedResultSet.data input in
  let subset := take count (uniqueProjects data) in
  let metadata := Output.metadata output in
  count <= length (uniqueProjects data) /\
  Metadata.projectCount metadata = count /\
  Metadata.totalRounds metadata = length (Output.data output) /\
  Metadata.inherited metadata = DetailedResultSet.metadata input /\
  sublist (Output.data output) data /\
  (forall round,
     round ∈ Output.data output <->
     round ∈ data /\ exists first, first ∈ subset /\ projectKey round = projectKey first) /\
  size (distinct_keys (Output.data output)) = count.
Proof.
  unfold subset_document.
  destruct (Nat.ltb_spec (length (uniqueProjects (DetailedResultSet.data input)))
              count) as [|Hle]; [discriminate|].
  intros [= <-]. cbv zeta. cbn [Output.metadata Output.data Metadata.projectCount
    Metadata.totalRounds Metadata.inherited].
  set (data := DetailedResultSet.data input) in *.
  destruct (uniqueProjects_keys data) as (Hnd & Hlen & Hall).
  split; [exact Hle|]. split; [reflexivity|]. split; [reflexivity|].
  split; [reflexivity|]. split; [apply filteredRounds_sublist|]. split.
  - intros round. rewrite elem_of_filteredRounds. unfold subsetKeys.
    rewrite list_elem_of_fmap. split.
    + intros (Hin & first & He & Hf). eauto.
    + intros (Hin & first & Hf & He). eauto.
  - rewrite distinct_keys_filteredRounds by now apply Forall_take.
    rewrite omap_key_of_take by exact Hlen.
    rewrite size_list_to_set.
    + rewrite length_take, Hlen. lia.
    + eapply sublist_NoDup; [exact Hnd|apply sublist_take].
Qed.

Section Run.
Variable now : nat -> Z.
Variable writeOk : nat -> bool.

Lemma write_subsets_written (counts : list nat) (input : DetailedResultSet.t) :
  forall written,
    exists added,
      write_subsets now writeOk counts input written = written ++ added /\
      sublist added.*1 counts /\
      Forall (fun file =>
                exists generatedAt,
                  subset_document input generatedAt file.1 = Some file.2) added.
Proof.
  induction counts as [|count later IH]; intros written.
  - exists []. rewrite app_nil_r. repeat split; constructor.
  - cbn [write_subsets].
    destruct (subset_document input (now (length written)) count)
      as [output|] eqn:Hdoc.
    + destruct (writeOk (length written)).
      * destruct (IH (written ++ [(count, output)])) as (added & E & Hs & Hall).
        exists ((count, output) :: added). split; [now rewrite E, <- app_assoc|].
        split; [rewrite fmap_cons; now constructor|].
        constructor; [eauto|exact Hall].
      * exists []. rewrite app_nil_r. split; [reflexivity|].
        split; [apply sublist_nil_l|constructor].
    + destruct (IH written) as (added & E & Hs & Hall).
      exists added. split; [exact E|]. split; [now constructor|exact Hall].
Qed.

(** X26.  Every file [main] of the test-data generator writes is the file
    of a count of [SUBSETS] that does not exceed the number of projects of
    the input; its [projectCount] is that count and its [totalRounds] the
    number of its rounds; its rounds are rounds of the input in their
    order: exactly the rounds with the key of one of the first [count]
    projects, so all the rounds of each of them; and these rounds carry
    exactly [count] distinct keys. *)
Theorem test_subsets_hold_whole_projects (stored : Stored DetailedResultSet.t)
    (count : nat) (output : Output.t) :
  (count, output) ∈ main now writeOk stored ->
  exists input,
    stored = Holding input /\ count ∈ SUBSETS /\
    let data := DetailedResultSet.data input in
    let subset := take count (uniqueProjects data) in
    let metadata := Output.metadata output in
    count <= length (uniqueProjects data) /\
    Metadata.projectCount metadata = count /\
    Metadata.totalRounds metadata = length (Output.data output) /\
    Metadata.inherited metadata = DetailedResultSet.metadata input /\
    sublist (Output.data output) data /\
    (forall round,
       round ∈ Output.data output <->
       round ∈ data /\
       exists first, first ∈ subset /\ projectKey round = projectKey first) /\
    size (distinct_keys (Output.data output)) = count.
Proof.
  unfold main. destruct stored as [| | |input];
    try (intros H; now apply elem_of_nil in H).
  destruct (write_subsets_written SUBSETS input []) as (added & -> & Hs & Hall).
  cbn [app]. intros Hin. exists input. split; [reflexivity|].
  split.
  - eapply elem_of_sublist; [|exact Hs]. now apply (list_elem_of_fmap_2 fst) in Hin.
  - apply (proj1 (Forall_forall _ _) Hall) in Hin as (generatedAt & Hdoc).
    now apply (subset_document_spec input generatedAt).
Qed.

End Run.

Lemma test_subsets_hold_whole_projects_witness :
  exists output,
    SampleRuns.test_files = [(2, output)] /\
    exists input,
      Holding SampleRuns.detailed_file = Holding input /\ 2 ∈ SUBSETS /\
      let data := DetailedResultSet.data input in
      let subset := take 2 (uniqueProjects data) in
      let metadata := Output.metadata output in
      2 <= length (uniqueProjects data) /\
      Metadata.projectCount metadata = 2 /\
      Metadata.totalRounds metadata = length (Output.data output) /\
      Metadata.inherited metadata = DetailedResultSet.metadata input /\
      sublist (Output.data output) data /\
      (forall round,
         round ∈ Output.data output <->
         round ∈ data /\
         exists first, first ∈ subset /\ projectKey round = projectKey first) /\
      size (distinct_keys (Output.data output)) = 2.
Proof.
  eexists. split; [vm_compute; reflexivity|].
  apply (test_subsets_hold_whole_projects Sample.now Sample.writeOk
           (Holding SampleRuns.detailed_file) 2).
  vm_compute. constructor.
Defined.

End TestDataFacts.
